(** * WealthFlow: the ledger and the price-ingestion core

    A shallow embedding of the non-UI logic of the dashboard:

    - [src/App.tsx]: [handleSaveTransaction], [deleteTransaction] (the
      transaction ledger) and [handleUpdateStocks] (the price sync), each
      with its demo-mode branch (React state only) and its persisted branch
      (Firestore); [addAccount], [deleteAccount], [addStock], [deleteStock];
      the derived figures [totalBalance], [stockPortfolioValue], [netWorth],
      [getAccountName], and the data of the "Expense Structure" chart;
    - [src/services/geminiService.ts]: [fetchCurrentStockPrices] (the
      lookup and the extraction of the price list from the answer);
    - [src/constants.ts]: the demo data.

    JavaScript numbers are IEEE-754 binary64 values: they are embedded as
    Rocq's primitive floats, whose operations are the same binary64
    operations (round to nearest, ties to even).  Strings are byte strings
    (the UTF-8 text); [toLowerCase] is embedded for the ASCII letters. *)

From Stdlib Require Import List String Ascii Bool Arith ZArith QArith Lqa Lia.
From Stdlib Require Import Floats.
Import ListNotations.

#[local] Set Warnings "-inexact-float".
#[local] Close Scope Q_scope.
#[local] Open Scope string_scope.
#[local] Open Scope list_scope.

(* ================================================================== *)
(** * 1. Data model ([types.ts]) *)
(* ================================================================== *)

(** The values [JSON.parse] builds, and [undefined].  The price list of the
    lookup is typed [StockUpdateResult[]] in the source but is whatever
    [JSON.parse] returned, unchecked. *)
#[local] Unset Elimination Schemes.
Inductive JSValue :=
| JUndefined
| JNull
| JBool (b : bool)
| JNum (x : float)
| JStr (s : string)
| JArr (l : list JSValue)
| JObj (members : list (string * JSValue)).
#[local] Set Elimination Schemes.

Inductive AccountType := Bank | Cash | Investment | CreditCard.

Inductive TransactionType := Income | Expense.

Module Account.
Record t := mk
  { id : string;
    name : string;
    type : AccountType;
    balance : float;
    currency : string }.

(** [{ ...a, balance: b }] *)
Definition with_balance (a : t) (b : float) : t :=
  mk (id a) (name a) (type a) b (currency a).
End Account.

Module Transaction.
Record t := mk
  { id : string;
    accountId : string;
    amount : float;
    type : TransactionType;
    category : string;
    date : string;
    description : string }.
End Transaction.

(** [Partial<Transaction>], the content of the "Add Transaction" form.  Every
    place of the source that builds it sets [type] (the initial state, the
    reset after a save, and the spreads [{...newTx, f: v}]), so [type] is
    always present; the other fields may be missing ([undefined]). *)
Module NewTx.
Record t := mk
  { amount : option float;
    accountId : option string;
    category : option string;
    type : TransactionType;
    date : option string;
    description : option string }.
End NewTx.

(** A holding.  In persisted mode it is the snapshot of a document of the
    collection "stocks", [{ symbol: doc.id, ...doc.data() }]: [docId] is the
    id of the document and [symbol] the stored field when there is one (the
    spread overrides [doc.id]).  In demo mode [docId] is not read.
    [currentPrice] holds whatever the price list gave. *)
Module StockHolding.
Record t := mk
  { docId : string;
    symbol : string;
    name : string;
    quantity : float;
    averageCost : float;
    currentPrice : JSValue;
    lastUpdated : option string }.

(** [{ ...s, currentPrice: p, lastUpdated: ts }] *)
Definition with_price (s : t) (p : JSValue) (ts : string) : t :=
  mk (docId s) (symbol s) (name s) (quantity s) (averageCost s) p (Some ts).
End StockHolding.

Module GroundingSource.
Record t := mk { title : string; url : string }.
End GroundingSource.

(* ================================================================== *)
(** * 2. JavaScript primitives used by the handlers *)
(* ================================================================== *)

(** [ToBoolean] on a number: [0], [-0] and [NaN] are falsy. *)
Definition truthy_number (x : float) : bool :=
  negb (PrimFloat.is_zero x || PrimFloat.is_nan x).

(** [ToBoolean] on a string: only the empty string is falsy. *)
Definition truthy_string (s : string) : bool :=
  negb (String.eqb s "").

(** [ToBoolean] on an optional field: [undefined] is falsy. *)
Definition truthy_opt {A} (truthy : A -> bool) (o : option A) : bool :=
  match o with
  | Some a => truthy a
  | None => false
  end.

(** [o || d] on an optional string. *)
Definition or_string (o : option string) (d : string) : string :=
  match o with
  | Some s => if truthy_string s then s else d
  | None => d
  end.

(** [Array.prototype.find]. *)
Fixpoint find {A} (p : A -> bool) (l : list A) : option A :=
  match l with
  | [] => None
  | x :: l' => if p x then Some x else find p l'
  end.

(** [Array.prototype.findIndex]; [None] stands for [-1]. *)
Fixpoint findIndex {A} (p : A -> bool) (l : list A) : option nat :=
  match l with
  | [] => None
  | x :: l' => if p x then Some 0 else option_map S (findIndex p l')
  end.

(** [l[i] = f(l[i])] for an index inside the array (the source only writes
    at an index that [findIndex] returned). *)
Fixpoint update_at {A} (i : nat) (f : A -> A) (l : list A) : list A :=
  match l, i with
  | [], _ => []
  | x :: l', 0 => f x :: l'
  | x :: l', S j => x :: update_at j f l'
  end.

(** [s.split('T')[0]]: the text before the first ['T']. *)
Fixpoint split_T_0 (s : string) : string :=
  match s with
  | EmptyString => EmptyString
  | String c s' => if Ascii.eqb c "T" then EmptyString else String c (split_T_0 s')
  end.

(* ================================================================== *)
(** * 3. Application state *)
(* ================================================================== *)

(** The state of the component [App] that the handlers read and write, and
    what they leave outside: the alerts shown, the console, and the requests
    sent to the price lookup service.

    In demo mode ([db] is [null]) the three collections live in this state
    only.  In persisted mode they are Firestore collections and the state is
    the last snapshot pushed by [onSnapshot]; handlers are run one at a time
    with the snapshots delivered in between, so one list stands for the
    collection and for its mirror in the state.  An account's and a
    transaction's [id] is then the document id
    ([{ id: doc.id, ...doc.data() }]).  The listener of the transactions
    orders them by date; no statement below depends on the order, and the
    collection is kept in insertion order.  Of Firestore only this is
    assumed: [addDoc] adds a document under a new id, [deleteDoc] removes the
    document with the id, [updateDoc] rewrites fields of the document with
    the id and is rejected when there is none; no other write fails. *)
Record App := mkApp
  { isDemoMode : bool;
    accounts : list Account.t;
    transactions : list Transaction.t;
    stocks : list StockHolding.t;
    updatingStocks : bool;
    stockSources : list GroundingSource.t;
    txModalOpen : bool;
    newTx : NewTx.t;
    alerts : list string;
    console : list string;
    requests : list string }.

Definition set_accounts (l : list Account.t) (st : App) : App :=
  mkApp (isDemoMode st) l (transactions st) (stocks st) (updatingStocks st)
    (stockSources st) (txModalOpen st) (newTx st) (alerts st) (console st)
    (requests st).

Definition set_transactions (l : list Transaction.t) (st : App) : App :=
  mkApp (isDemoMode st) (accounts st) l (stocks st) (updatingStocks st)
    (stockSources st) (txModalOpen st) (newTx st) (alerts st) (console st)
    (requests st).

Definition set_stocks (l : list StockHolding.t) (st : App) : App :=
  mkApp (isDemoMode st) (accounts st) (transactions st) l (updatingStocks st)
    (stockSources st) (txModalOpen st) (newTx st) (alerts st) (console st)
    (requests st).

Definition set_updatingStocks (b : bool) (st : App) : App :=
  mkApp (isDemoMode st) (accounts st) (transactions st) (stocks st) b
    (stockSources st) (txModalOpen st) (newTx st) (alerts st) (console st)
    (requests st).

Definition set_stockSources (l : list GroundingSource.t) (st : App) : App :=
  mkApp (isDemoMode st) (accounts st) (transactions st) (stocks st)
    (updatingStocks st) l (txModalOpen st) (newTx st) (alerts st) (console st)
    (requests st).

Definition setTxModalOpen (b : bool) (st : App) : App :=
  mkApp (isDemoMode st) (accounts st) (transactions st) (stocks st)
    (updatingStocks st) (stockSources st) b (newTx st) (alerts st) (console st)
    (requests st).

Definition setNewTx (n : NewTx.t) (st : App) : App :=
  mkApp (isDemoMode st) (accounts st) (transactions st) (stocks st)
    (updatingStocks st) (stockSources st) (txModalOpen st) n (alerts st)
    (console st) (requests st).

(** [alert(msg)] *)
Definition show_alert (msg : string) (st : App) : App :=
  mkApp (isDemoMode st) (accounts st) (transactions st) (stocks st)
    (updatingStocks st) (stockSources st) (txModalOpen st) (newTx st)
    (alerts st ++ [msg]) (console st) (requests st).

(** [console.log], [console.warn], [console.error] *)
Definition console_write (msg : string) (st : App) : App :=
  mkApp (isDemoMode st) (accounts st) (transactions st) (stocks st)
    (updatingStocks st) (stockSources st) (txModalOpen st) (newTx st)
    (alerts st) (console st ++ [msg]) (requests st).

(** A request goes out to the price lookup service. *)
Definition send_request (req : string) (st : App) : App :=
  mkApp (isDemoMode st) (accounts st) (transactions st) (stocks st)
    (updatingStocks st) (stockSources st) (txModalOpen st) (newTx st)
    (alerts st) (console st) (requests st ++ [req]).

(** What one run of a handler takes from its environment. *)
Record Env := mkEnv
  { random_id : string;   (* Math.random().toString() *)
    auto_id : string;     (* the id Firestore gives to a document made by addDoc *)
    now : string;         (* new Date().toISOString() *)
    confirmed : bool }.   (* the answer to confirm(...) *)

(* ================================================================== *)
(** * 4. The transaction ledger ([App.tsx], lines 239-299) *)
(* ================================================================== *)

(** [(type === 'Income' ? amount : -amount)] *)
Definition signed (ty : TransactionType) (amount : float) : float :=
  match ty with
  | Income => amount
  | Expense => (- amount)%float
  end.

Definition signed_tx (t : Transaction.t) : float :=
  signed (Transaction.type t) (Transaction.amount t).

Definition has_id (i : string) (a : Account.t) : bool :=
  String.eqb (Account.id a) i.

(** [updateDoc(doc(db, "accounts", id), { balance: b })]: document ids are
    unique in a collection; the document with this id is rewritten. *)
Fixpoint updateDoc_balance (i : string) (b : float) (l : list Account.t)
  : list Account.t :=
  match l with
  | [] => []
  | a :: l' =>
      if has_id i a then Account.with_balance a b :: l'
      else a :: updateDoc_balance i b l'
  end.

(** [deleteDoc(doc(db, "transactions", id))] and, in demo mode,
    [transactions.filter(tr => tr.id !== id)]. *)
Definition remove_tx (i : string) (l : list Transaction.t) : list Transaction.t :=
  filter (fun tr => negb (String.eqb (Transaction.id tr) i)) l.

(** The guard [newTx.amount && newTx.accountId && newTx.category]. *)
Definition save_guard (n : NewTx.t) : bool :=
  truthy_opt truthy_number (NewTx.amount n)
  && truthy_opt truthy_string (NewTx.accountId n)
  && truthy_opt truthy_string (NewTx.category n).

(** The state of the form after a save:
    [{ type: 'Expense', date: new Date().toISOString().split('T')[0] }]. *)
Definition blank_form (e : Env) : NewTx.t :=
  NewTx.mk None None None Expense (Some (split_T_0 (now e))) None.

(** The record that is saved, [txData], with [i] for its id. *)
Definition txData (e : Env) (n : NewTx.t) (i accId : string) (amount : float)
    (cat : string) : Transaction.t :=
  Transaction.mk i accId amount (NewTx.type n) cat
    (or_string (NewTx.date n) (now e))
    (or_string (NewTx.description n) "").

(** The id of the record: the "temp id" in demo mode; in persisted mode the
    record is written with [id: undefined] and Firestore names it ("Firestore
    auto-id"). *)
Definition new_id (e : Env) (st : App) : string :=
  if isDemoMode st then random_id e else auto_id e.

(** Lines 239-274.  The demo branch writes the new balance into the account
    object at [accIndex], which the array of the previous state shares; that
    array is not read again.  The persisted branch writes the transaction,
    then the balance computed from the account of the state. *)
Definition handleSaveTransaction (e : Env) (st : App) : App :=
  match NewTx.amount (newTx st), NewTx.accountId (newTx st), NewTx.category (newTx st) with
  | Some amount, Some accId, Some cat =>
      if save_guard (newTx st) then
        let ty := NewTx.type (newTx st) in
        let tx := txData e (newTx st) (new_id e st) accId amount cat in
        let st1 :=
          if isDemoMode st then
            let st' := set_transactions (tx :: transactions st) st in
            match findIndex (has_id accId) (accounts st) with
            | Some accIndex =>
                set_accounts
                  (update_at accIndex
                     (fun a => Account.with_balance a (Account.balance a + signed ty amount)%float)
                     (accounts st)) st'
            | None => st'
            end
          else
            let st' := set_transactions (transactions st ++ [tx]) st in
            match find (has_id accId) (accounts st) with
            | Some account =>
                let newBalance := (Account.balance account + signed ty amount)%float in
                set_accounts (updateDoc_balance (Account.id account) newBalance (accounts st)) st'
            | None => st'
            end in
        setNewTx (blank_form e) (setTxModalOpen false st1)
      else st
  | _, _, _ => st
  end.

(** Lines 276-299. *)
Definition deleteTransaction (e : Env) (t : Transaction.t) (st : App) : App :=
  if confirmed e then
    if isDemoMode st then
      let st' := set_transactions (remove_tx (Transaction.id t) (transactions st)) st in
      match findIndex (has_id (Transaction.accountId t)) (accounts st) with
      | Some accIndex =>
          set_accounts
            (update_at accIndex
               (fun a => Account.with_balance a (Account.balance a - signed_tx t)%float)
               (accounts st)) st'
      | None => st'
      end
    else
      let st' := set_transactions (remove_tx (Transaction.id t) (transactions st)) st in
      match find (has_id (Transaction.accountId t)) (accounts st) with
      | Some account =>
          let revertedBalance := (Account.balance account - signed_tx t)%float in
          set_accounts (updateDoc_balance (Account.id account) revertedBalance (accounts st)) st'
      | None => st'
      end
  else st.

(* ================================================================== *)
(** * 5. Strings, the two regular expressions, and JSON *)
(* ================================================================== *)

(** ** Strings *)

Definition lower (c : ascii) : ascii :=
  let n := N_of_ascii c in
  if ((65 <=? n) && (n <=? 90))%N then ascii_of_N (n + 32) else c.

(** [s.toLowerCase()], on the ASCII letters. *)
Fixpoint toLowerCase (s : string) : string :=
  match s with
  | EmptyString => EmptyString
  | String c s' => String (lower c) (toLowerCase s')
  end.

(** [s] with the prefix [p] taken off, when [s] starts with [p]. *)
Fixpoint strip_prefix (p s : string) : option string :=
  match p, s with
  | EmptyString, _ => Some s
  | String a p', String b s' => if Ascii.eqb a b then strip_prefix p' s' else None
  | String _ _, EmptyString => None
  end.

Definition starts_with (p s : string) : bool :=
  match strip_prefix p s with
  | Some _ => true
  | None => false
  end.

(** [s.includes(sub)] *)
Fixpoint includes (s sub : string) : bool :=
  starts_with sub s
  || match s with
     | EmptyString => false
     | String _ s' => includes s' sub
     end.

(** [s.indexOf(c)] for a character; [None] stands for [-1]. *)
Fixpoint indexOf (c : ascii) (s : string) : option nat :=
  match s with
  | EmptyString => None
  | String d s' => if Ascii.eqb d c then Some 0 else option_map S (indexOf c s')
  end.

(** [s.lastIndexOf(c)] *)
Fixpoint lastIndexOf (c : ascii) (s : string) : option nat :=
  match s with
  | EmptyString => None
  | String d s' =>
      match lastIndexOf c s' with
      | Some k => Some (S k)
      | None => if Ascii.eqb d c then Some 0 else None
      end
  end.

(** [s.substring(a, b)]: the arguments are swapped when [a > b], and the end
    is cut at the length of [s]. *)
Definition substring (a b : nat) (s : string) : string :=
  String.substring (Nat.min a b) (Nat.max a b - Nat.min a b) s.

(** ** White space *)

(** The class [\s] of a regular expression: the white space and the line
    terminators of ECMAScript, read in the UTF-8 text.  [strip_space s] takes
    one such character off the head of [s]. *)
Definition space_1 (a : N) : bool :=
  ((9 <=? a) && (a <=? 13) || (a =? 32))%N.

Definition space_2 (a b : N) : bool :=
  ((a =? 194) && (b =? 160))%N.                         (* U+00A0 *)

Definition space_3 (a b c : N) : bool :=
  ((a =? 225) && (b =? 154) && (c =? 128)               (* U+1680 *)
   || (a =? 226) && (b =? 128) && (128 <=? c) && (c <=? 138)  (* U+2000-200A *)
   || (a =? 226) && (b =? 128) && ((c =? 168) || (c =? 169) || (c =? 175))
                                                        (* U+2028 U+2029 U+202F *)
   || (a =? 226) && (b =? 129) && (c =? 159)            (* U+205F *)
   || (a =? 227) && (b =? 128) && (c =? 128)            (* U+3000 *)
   || (a =? 239) && (b =? 187) && (c =? 191))%N.        (* U+FEFF *)

Definition strip_space (s : string) : option string :=
  match s with
  | EmptyString => None
  | String a r1 =>
      if space_1 (N_of_ascii a) then Some r1
      else
        match r1 with
        | EmptyString => None
        | String b r2 =>
            if space_2 (N_of_ascii a) (N_of_ascii b) then Some r2
            else
              match r2 with
              | EmptyString => None
              | String c r3 =>
                  if space_3 (N_of_ascii a) (N_of_ascii b) (N_of_ascii c)
                  then Some r3 else None
              end
        end
  end.

(** [\s*], greedy: all the white space at the head is taken off.  The fuel is
    the length of the text. *)
Fixpoint skip_spaces_fuel (fuel : nat) (s : string) : string :=
  match fuel with
  | 0 => s
  | S fuel' =>
      match strip_space s with
      | Some r => skip_spaces_fuel fuel' r
      | None => s
      end
  end.

Definition skip_spaces (s : string) : string :=
  skip_spaces_fuel (String.length s) s.

(** ** The regular expressions [/```json\s*([\s\S]*?)\s*```/] and
    [/```\s*([\s\S]*?)\s*```/] *)

Definition fence : string := "```".

(** [\s*```] matches at the head of [s]. *)
Definition closes (s : string) : bool :=
  starts_with fence (skip_spaces s).

(** [([\s\S]*?)\s*```] at the head of [s]: the group takes as few characters
    as it can; the result is the group. *)
Fixpoint lazy_group (s : string) : option string :=
  if closes s then Some EmptyString
  else
    match s with
    | EmptyString => None
    | String c s' => option_map (String c) (lazy_group s')
    end.

(** The expression with the opening [opener], matched at the head of [s].
    The first [\s*] takes all the white space: giving some of it back never
    helps, as a match only needs a closing fence further on, and the fence
    is no white space. *)
Definition match_here (opener s : string) : option string :=
  match strip_prefix opener s with
  | Some rest => lazy_group (skip_spaces rest)
  | None => None
  end.

(** [text.match(re)]: the leftmost match; the result is group 1 of the match,
    [None] when there is no match ([null]). *)
Fixpoint regexp_match (opener s : string) : option string :=
  match match_here opener s with
  | Some g => Some g
  | None =>
      match s with
      | EmptyString => None
      | String _ s' => regexp_match opener s'
      end
  end.

(** Texts made of white space only. *)
Inductive spaces : string -> Prop :=
| spaces_nil : spaces ""
| spaces_cons s r : strip_space s = Some r -> spaces r -> spaces s.

(** No byte of the text is a backtick. *)
Fixpoint no_tick (s : string) : Prop :=
  match s with
  | EmptyString => True
  | String c s' => N_of_ascii c <> 96%N /\ no_tick s'
  end.

(** ** [JSON.parse] *)

(** The number a JSON numeral stands for: [m * 10^e], negated when [neg],
    rounded to the nearest double. *)
Definition number_of_decimal (neg : bool) (m e : Z) : float :=
  if (m =? 0)%Z then (if neg then PrimFloat.neg_zero else PrimFloat.zero)
  else if (0 <=? e)%Z then
    SF2Prim (binary_normalize prec emax
               ((if neg then - m else m) * 10 ^ e)%Z 0 false)
  else
    SF2Prim (SFdiv prec emax
               (S754_finite neg (Z.to_pos m) 0)
               (S754_finite false (Z.to_pos (10 ^ (- e))) 0)).

Definition is_digit (c : ascii) : bool :=
  let n := N_of_ascii c in ((48 <=? n) && (n <=? 57))%N.

Definition digit_value (c : ascii) : Z :=
  Z.of_N (N_of_ascii c) - 48.

(** Reads digits: the value read so far, how many digits, the rest. *)
Fixpoint read_digits (s : string) (acc : Z) (count : Z) : Z * Z * string :=
  match s with
  | String c s' =>
      if is_digit c then read_digits s' (acc * 10 + digit_value c)%Z (count + 1)%Z
      else (acc, count, s)
  | EmptyString => (acc, count, s)
  end.

(** A JSON numeral: an optional minus sign; [0], or a digit from 1 to 9
    and more digits; an optional fraction (a point and digits); an optional
    exponent ([e] or [E], an optional sign, digits). *)
Definition parse_number (s : string) : option (float * string) :=
  let '(neg, s1) :=
    match s with
    | String "-" r => (true, r)
    | _ => (false, s)
    end in
  let int_part :=
    match s1 with
    | String "0" r => Some (0%Z, r)
    | String c _ =>
        if is_digit c then
          let '(m, _, r) := read_digits s1 0%Z 0%Z in Some (m, r)
        else None
    | EmptyString => None
    end in
  match int_part with
  | None => None
  | Some (m, s2) =>
      let frac_part :=
        match s2 with
        | String "." r =>
            let '(m', k, r') := read_digits r m 0%Z in
            if (k =? 0)%Z then None else Some (m', k, r')
        | _ => Some (m, 0%Z, s2)
        end in
      match frac_part with
      | None => None
      | Some (m', k, s3) =>
          let exponent (r : string) :=
            let '(eneg, r1) :=
              match r with
              | String "-" r' => (true, r')
              | String "+" r' => (false, r')
              | _ => (false, r)
              end in
            let '(x, n, r2) := read_digits r1 0%Z 0%Z in
            if (n =? 0)%Z then None
            else Some (number_of_decimal neg m' ((if eneg then - x else x) - k)%Z, r2) in
          match s3 with
          | String "e" r => exponent r
          | String "E" r => exponent r
          | _ => Some (number_of_decimal neg m' (- k)%Z, s3)
          end
      end
  end.

Definition hex_value (c : ascii) : option N :=
  let n := N_of_ascii c in
  if ((48 <=? n) && (n <=? 57))%N then Some (n - 48)%N
  else if ((65 <=? n) && (n <=? 70))%N then Some (n - 55)%N
  else if ((97 <=? n) && (n <=? 102))%N then Some (n - 87)%N
  else None.

(** Four hexadecimal digits. *)
Definition hex4 (s : string) : option (N * string) :=
  match s with
  | String a (String b (String c (String d r))) =>
      match hex_value a, hex_value b, hex_value c, hex_value d with
      | Some x, Some y, Some z, Some w => Some (((x * 16 + y) * 16 + z) * 16 + w, r)%N
      | _, _, _, _ => None
      end
  | _ => None
  end.

Definition byte (n : N) : string := String (ascii_of_N n) EmptyString.

(** The UTF-8 bytes of a code point (a lone surrogate is written as any
    other code point below 65536). *)
Definition utf8 (cp : N) : string :=
  (if (cp <? 128)%N then byte cp
   else if (cp <? 2048)%N then
     byte (192 + cp / 64) ++ byte (128 + cp mod 64)
   else if (cp <? 65536)%N then
     byte (224 + cp / 4096) ++ byte (128 + (cp / 64) mod 64) ++ byte (128 + cp mod 64)
   else
     byte (240 + cp / 262144) ++ byte (128 + (cp / 4096) mod 64)
     ++ byte (128 + (cp / 64) mod 64) ++ byte (128 + cp mod 64))%string.

(** The characters of a string literal, after the opening quote, up to the
    closing one. *)
Fixpoint parse_string (fuel : nat) (s : string) : option (string * string) :=
  match fuel with
  | 0 => None
  | S fuel' =>
      match s with
      | EmptyString => None
      | String c r =>
          if (N_of_ascii c =? 34)%N then Some (EmptyString, r)
          else if (N_of_ascii c <? 32)%N then None
          else if (N_of_ascii c =? 92)%N then
            match r with
            | EmptyString => None
            | String d r' =>
                let continue (out : string) (rest : string) :=
                  match parse_string fuel' rest with
                  | Some (t, rest') => Some ((out ++ t)%string, rest')
                  | None => None
                  end in
                let n := N_of_ascii d in
                if (n =? 34)%N then continue (byte 34) r'
                else if (n =? 92)%N then continue (byte 92) r'
                else if (n =? 47)%N then continue (byte 47) r'
                else if (n =? 98)%N then continue (byte 8) r'
                else if (n =? 102)%N then continue (byte 12) r'
                else if (n =? 110)%N then continue (byte 10) r'
                else if (n =? 114)%N then continue (byte 13) r'
                else if (n =? 116)%N then continue (byte 9) r'
                else if (n =? 117)%N then
                  match hex4 r' with
                  | None => None
                  | Some (hi, r1) =>
                      let pair :=
                        if ((55296 <=? hi) && (hi <? 56320))%N then
                          match strip_prefix "\u" r1 with
                          | Some r2 =>
                              match hex4 r2 with
                              | Some (lo, r3) =>
                                  if ((56320 <=? lo) && (lo <? 57344))%N
                                  then Some (65536 + (hi - 55296) * 1024 + (lo - 56320), r3)%N
                                  else None
                              | None => None
                              end
                          | None => None
                          end
                        else None in
                      match pair with
                      | Some (cp, r3) => continue (utf8 cp) r3
                      | None => continue (utf8 hi) r1
                      end
                  end
                else None
            end
          else
            match parse_string fuel' r with
            | Some (t, rest') => Some (String c t, rest')
            | None => None
            end
      end
  end.

(** White space of JSON: space, tab, line feed, carriage return. *)
Fixpoint json_ws (s : string) : string :=
  match s with
  | String c s' =>
      let n := N_of_ascii c in
      if ((n =? 32) || (n =? 9) || (n =? 10) || (n =? 13))%N then json_ws s' else s
  | EmptyString => s
  end.

Definition head_is (n : N) (s : string) : option string :=
  match s with
  | String c r => if (N_of_ascii c =? n)%N then Some r else None
  | EmptyString => None
  end.

(** A JSON value at the head of [s] (after white space), and the rest.  Every
    call reads at least one character, so fuel above twice the length of the
    text is never used up. *)
Fixpoint parse_value (fuel : nat) (s : string) {struct fuel}
  : option (JSValue * string) :=
  match fuel with
  | 0 => None
  | S fuel' =>
      let s0 := json_ws s in
      match head_is 91 s0 with                                   (* [ *)
      | Some r =>
          match head_is 93 (json_ws r) with                      (* ] *)
          | Some r' => Some (JArr [], r')
          | None =>
              match parse_elements fuel' r with
              | Some (l, r') => Some (JArr l, r')
              | None => None
              end
          end
      | None =>
      match head_is 123 s0 with                                  (* { *)
      | Some r =>
          match head_is 125 (json_ws r) with                     (* } *)
          | Some r' => Some (JObj [], r')
          | None =>
              match parse_members fuel' r with
              | Some (m, r') => Some (JObj m, r')
              | None => None
              end
          end
      | None =>
      match head_is 34 s0 with                                   (* quote *)
      | Some r =>
          match parse_string (S (String.length r)) r with
          | Some (t, r') => Some (JStr t, r')
          | None => None
          end
      | None =>
      match strip_prefix "true" s0 with
      | Some r => Some (JBool true, r)
      | None =>
      match strip_prefix "false" s0 with
      | Some r => Some (JBool false, r)
      | None =>
      match strip_prefix "null" s0 with
      | Some r => Some (JNull, r)
      | None =>
      match parse_number s0 with
      | Some (x, r) => Some (JNum x, r)
      | None => None
      end end end end end end end
  end
with parse_elements (fuel : nat) (s : string) {struct fuel}
  : option (list JSValue * string) :=
  match fuel with
  | 0 => None
  | S fuel' =>
      match parse_value fuel' s with
      | None => None
      | Some (v, r) =>
          match head_is 44 (json_ws r) with                      (* , *)
          | Some r' =>
              match parse_elements fuel' r' with
              | Some (l, r'') => Some (v :: l, r'')
              | None => None
              end
          | None =>
              match head_is 93 (json_ws r) with                  (* ] *)
              | Some r' => Some ([v], r')
              | None => None
              end
          end
      end
  end
with parse_members (fuel : nat) (s : string) {struct fuel}
  : option (list (string * JSValue) * string) :=
  match fuel with
  | 0 => None
  | S fuel' =>
      match head_is 34 (json_ws s) with
      | None => None
      | Some r0 =>
          match parse_string (S (String.length r0)) r0 with
          | None => None
          | Some (k, r1) =>
              match head_is 58 (json_ws r1) with                 (* : *)
              | None => None
              | Some r2 =>
                  match parse_value fuel' r2 with
                  | None => None
                  | Some (v, r3) =>
                      match head_is 44 (json_ws r3) with
                      | Some r4 =>
                          match parse_members fuel' r4 with
                          | Some (m, r5) => Some ((k, v) :: m, r5)
                          | None => None
                          end
                      | None =>
                          match head_is 125 (json_ws r3) with
                          | Some r4 => Some ([(k, v)], r4)
                          | None => None
                          end
                      end
                  end
              end
          end
      end
  end.

(** [JSON.parse(s)]; [None] stands for the [SyntaxError] it throws. *)
Definition JSON_parse (s : string) : option JSValue :=
  match parse_value (2 * String.length s + 2) s with
  | Some (v, r) =>
      match json_ws r with
      | EmptyString => Some v
      | String _ _ => None
      end
  | None => None
  end.

(** In the sample texts below a single quote stands for a double quote. *)
Definition dq (s : string) : string :=
  let fix go (s : string) : string :=
    match s with
    | EmptyString => EmptyString
    | String c s' => String (if (N_of_ascii c =? 39)%N then ascii_of_N 34 else c) (go s')
    end in
  go s.

(* ================================================================== *)
(** * 6. Exceptions and effects *)
(* ================================================================== *)

(** What a JavaScript evaluation can throw here.  [Unmodelled] is no
    exception of JavaScript: it marks the one evaluation this development
    does not follow (the conversion of a string or an array to a number, in
    [length_positive]); no handler catches it. *)
Inductive Exn :=
| SyntaxError      (* JSON.parse *)
| TypeError        (* a property of null or undefined; a call of a non-function *)
| LookupError      (* generateContent rejects: the lookup service failed *)
| FirestoreError   (* updateDoc on a document that does not exist *)
| Unmodelled.

Inductive Outcome (A : Type) :=
| Ret (a : A)
| Throw (e : Exn).

Arguments Ret {A} a.
Arguments Throw {A} e.

Definition catchable (e : Exn) : bool :=
  match e with
  | Unmodelled => false
  | _ => true
  end.

(** Evaluations without effects. *)
Definition obind {A B} (o : Outcome A) (k : A -> Outcome B) : Outcome B :=
  match o with
  | Ret a => k a
  | Throw e => Throw e
  end.

(** [l.map(f)] with a callback that may throw. *)
Fixpoint map_outcome {A B} (f : A -> Outcome B) (l : list A) : Outcome (list B) :=
  match l with
  | [] => Ret []
  | x :: l' =>
      obind (f x) (fun y => obind (map_outcome f l') (fun ys => Ret (y :: ys)))
  end.

(** Handlers: they read and write the state, and return or throw. *)
Definition M (A : Type) : Type := App -> Outcome A * App.

Definition ret {A} (a : A) : M A := fun st => (Ret a, st).

Definition throw {A} (e : Exn) : M A := fun st => (Throw e, st).

Definition bind {A B} (m : M A) (k : A -> M B) : M B :=
  fun st =>
    match m st with
    | (Ret a, st') => k a st'
    | (Throw e, st') => (Throw e, st')
    end.

Definition lift {A} (o : Outcome A) : M A := fun st => (o, st).

Definition read {A} (f : App -> A) : M A := fun st => (Ret (f st), st).

Definition write (f : App -> App) : M unit := fun st => (Ret tt, f st).

(** [try { body } catch (e) { handler }] *)
Definition try_catch {A} (body : M A) (handler : Exn -> M A) : M A :=
  fun st =>
    match body st with
    | (Ret a, st') => (Ret a, st')
    | (Throw e, st') => if catchable e then handler e st' else (Throw e, st')
    end.

(** [try { body } finally { final }] *)
Definition try_finally {A} (body : M A) (final : M unit) : M A :=
  fun st =>
    match body st with
    | (o, st') =>
        match final st' with
        | (Ret _, st'') => (o, st'')
        | (Throw e, st'') => (Throw e, st'')
        end
    end.

Declare Scope handler_scope.
Delimit Scope handler_scope with handler.
Notation "x <- m ;; k" := (bind m (fun x => k))
  (at level 61, m at next level, right associativity) : handler_scope.
Notation "m ;; k" := (bind m (fun _ => k))
  (at level 61, right associativity) : handler_scope.

(* ================================================================== *)
(** * 7. The price lookup ([geminiService.ts]) and the price sync
      ([App.tsx], lines 186-220) *)
(* ================================================================== *)

(** ** The answer of the service *)

Module Web.
Record t := mk { uri : option string; title : option string }.
End Web.

Module GroundingChunk.
Record t := mk { web : option Web.t }.
End GroundingChunk.

(** The answer of [ai.models.generateContent]: [text] is [response.text],
    [groundingChunks] is
    [response.candidates?.[0]?.groundingMetadata?.groundingChunks || []]. *)
Module Response.
Record t := mk { text : option string; groundingChunks : list GroundingChunk.t }.
End Response.

(** The service: the answer to a request, [None] when the call is
    rejected.  The prompt is a fixed text around the list of symbols; the
    request is identified with that list, [symbols.join(", ")]. *)
Definition Service : Type := string -> option Response.t.

Module FetchResult.
Record t := mk { prices : JSValue; sources : list GroundingSource.t }.
End FetchResult.

(** [chunks.forEach(chunk => { if (chunk.web?.uri && chunk.web?.title)
    sources.push({ title, url }) })] *)
Definition chunk_sources (chunks : list GroundingChunk.t) : list GroundingSource.t :=
  flat_map
    (fun chunk =>
       match GroundingChunk.web chunk with
       | Some w =>
           match Web.uri w, Web.title w with
           | Some u, Some t =>
               if truthy_string u && truthy_string t
               then [GroundingSource.mk t u] else []
           | _, _ => []
           end
       | None => []
       end)
    chunks.

(** ** The extraction of the price list *)

(** [text.match(/```json.../) || text.match(/```.../)]: group 1 of the match
    that is kept, [None] for [null].  A match of the first expression is kept
    even when its group is empty. *)
Definition jsonMatch (text : string) : option string :=
  match regexp_match "```json" text with
  | Some g => Some g
  | None => regexp_match "```" text
  end.

(** The [else] branch: the text from the first [[] to the last []]. *)
Definition parse_brackets (text : string) : M JSValue :=
  match indexOf "[" text, lastIndexOf "]" text with
  | Some start, Some end_ =>
      match JSON_parse (substring start (end_ + 1) text) with
      | Some v => ret v
      | None =>
          (write (console_write "Failed to parse stock data") ;; ret (JArr []))%handler
      end
  | _, _ => ret (JArr [])
  end.

(** Lines 42-61 of [geminiService.ts]. *)
Definition extract_prices (text : string) : M JSValue :=
  match jsonMatch text with
  | Some group1 =>
      if truthy_string group1 then
        match JSON_parse group1 with
        | Some v => ret v
        | None =>
            (write (console_write "Failed to parse JSON, trying full text") ;;
             ret (JArr []))%handler
        end
      else parse_brackets text
  | None => parse_brackets text
  end.

(** The text that [extract_prices] hands to [JSON.parse], if any. *)
Definition bracketed (text : string) : option string :=
  match indexOf "[" text, lastIndexOf "]" text with
  | Some start, Some end_ => Some (substring start (end_ + 1) text)
  | _, _ => None
  end.

Definition candidate (text : string) : option string :=
  match jsonMatch text with
  | Some group1 => if truthy_string group1 then Some group1 else bracketed text
  | None => bracketed text
  end.

(** [await ai.models.generateContent(...)] *)
Definition generateContent (service : Service) (request : string)
  : M Response.t :=
  fun st =>
    (match service request with
     | Some response => Ret response
     | None => Throw LookupError
     end, send_request request st).

(** Lines 6-69 of [geminiService.ts]. *)
Definition fetchCurrentStockPrices (service : Service) (symbols : list string)
  : M FetchResult.t :=
  match symbols with
  | [] => ret (FetchResult.mk (JArr []) [])
  | _ :: _ =>
      let symbolList := String.concat ", " symbols in
      try_catch
        (response <- generateContent service symbolList ;;
         let text := or_string (Response.text response) "" in
         let sources := chunk_sources (Response.groundingChunks response) in
         prices <- extract_prices text ;;
         ret (FetchResult.mk prices sources))%handler
        (fun error =>
           (write (console_write "Error fetching stock prices:") ;;
            throw error)%handler)
  end.

(** ** Reading the price list *)

(** The member [k] of an object made by [JSON.parse]: the last one when the
    key is repeated. *)
Fixpoint lookup_last (k : string) (m : list (string * JSValue)) : option JSValue :=
  match m with
  | [] => None
  | (k', v) :: m' =>
      match lookup_last k m' with
      | Some w => Some w
      | None => if String.eqb k' k then Some v else None
      end
  end.

(** [x.symbol] and [x.price]: a [TypeError] on [null] and [undefined],
    [undefined] on what has no such property. *)
Definition get_member (k : string) (x : JSValue) : Outcome JSValue :=
  match x with
  | JUndefined | JNull => Throw TypeError
  | JObj m =>
      Ret (match lookup_last k m with
           | Some v => v
           | None => JUndefined
           end)
  | _ => Ret JUndefined
  end.

(** The value [JSON.parse] builds for [{ "symbol": sym, "price": price }]. *)
Definition quote_value (symbol : string) (price : JSValue) : JSValue :=
  JObj [("symbol", JStr symbol); ("price", price)].

(** The symbol of a quote: of an object whose member "symbol" is a string. *)
Definition quote_symbol (x : JSValue) : option string :=
  match x with
  | JObj m =>
      match lookup_last "symbol" m with
      | Some (JStr sym) => Some sym
      | _ => None
      end
  | _ => None
  end.

(** [prices.length > 0].  [prices] is what [JSON.parse] gave: an array has
    its length, a string too; a number or a boolean has none
    ([undefined > 0] is false); [null.length] throws; an object has the
    member "length" it was given, compared to 0 after conversion to a
    number. *)
Definition length_positive (prices : JSValue) : Outcome bool :=
  match prices with
  | JUndefined | JNull => Throw TypeError
  | JArr l => Ret (Nat.ltb 0 (List.length l))
  | JStr s => Ret (truthy_string s)
  | JNum _ | JBool _ => Ret false
  | JObj m =>
      match lookup_last "length" m with
      | None => Ret false
      | Some (JNum x) => Ret (0 <? x)%float
      | Some (JBool b) => Ret b
      | Some JNull | Some JUndefined | Some (JObj _) => Ret false
      | Some (JStr _) | Some (JArr _) => Throw Unmodelled
      end
  end.

(** [l.find(callback)] on an array, with a callback that may throw. *)
Fixpoint array_find (callback : JSValue -> Outcome bool) (l : list JSValue)
  : Outcome (option JSValue) :=
  match l with
  | [] => Ret None
  | x :: l' =>
      obind (callback x)
        (fun hit => if hit then Ret (Some x) else array_find callback l')
  end.

(** [prices.find(callback)]: only an array has [find]; on anything else made
    by [JSON.parse] that is not [null] the call is the call of a
    non-function. *)
Definition prices_find (callback : JSValue -> Outcome bool) (prices : JSValue)
  : Outcome (option JSValue) :=
  match prices with
  | JArr l => array_find callback l
  | _ => Throw TypeError
  end.

(** Demo mode, line 196: [x => x.symbol === s.symbol]. *)
Definition demo_callback (s : StockHolding.t) (x : JSValue) : Outcome bool :=
  obind (get_member "symbol" x)
    (fun sym =>
       Ret (match sym with
            | JStr xs => String.eqb xs (StockHolding.symbol s)
            | _ => false
            end)).

(** Persisted mode, line 202:
    [p => p.symbol.toLowerCase() === stock.symbol.toLowerCase()
          || p.symbol.includes(stock.symbol)].
    [toLowerCase] is a function on strings only. *)
Definition live_callback (stock : StockHolding.t) (p : JSValue) : Outcome bool :=
  obind (get_member "symbol" p)
    (fun sym =>
       match sym with
       | JStr ps =>
           Ret (String.eqb (toLowerCase ps) (toLowerCase (StockHolding.symbol stock))
                || includes ps (StockHolding.symbol stock))
       | _ => Throw TypeError
       end).

(** The test of line 202 on a quote, as a boolean. *)
Definition live_rule (holdingSymbol : string) (q : JSValue) : bool :=
  match quote_symbol q with
  | Some sym =>
      String.eqb (toLowerCase sym) (toLowerCase holdingSymbol)
      || includes sym holdingSymbol
  | None => false
  end.

(** ** The two branches of the sync *)

(** Demo mode, lines 195-198: the callback of [stocks.map]. *)
Definition demo_update (e : Env) (prices : JSValue) (s : StockHolding.t)
  : Outcome StockHolding.t :=
  obind (prices_find (demo_callback s) prices)
    (fun p =>
       match p with
       | Some p' =>
           obind (get_member "price" p')
             (fun price => Ret (StockHolding.with_price s price (now e)))
       | None => Ret s
       end).

(** [updateDoc(doc(db, "stocks", i), { currentPrice, lastUpdated })] on the
    collection: [None] when no document has the id [i]. *)
Fixpoint updateDoc_price (i : string) (price : JSValue) (ts : string)
    (l : list StockHolding.t) : option (list StockHolding.t) :=
  match l with
  | [] => None
  | d :: l' =>
      if String.eqb (StockHolding.docId d) i
      then Some (StockHolding.with_price d price ts :: l')
      else option_map (cons d) (updateDoc_price i price ts l')
  end.

Definition updateDoc_stocks (i : string) (price : JSValue) (ts : string) : M unit :=
  fun st =>
    match updateDoc_price i price ts (stocks st) with
    | Some l => (Ret tt, set_stocks l st)
    | None => (Throw FirestoreError, st)
    end.

(** Persisted mode, lines 201-211: the body of [for (const stock of stocks)]. *)
Definition live_update (e : Env) (prices : JSValue) (stock : StockHolding.t)
  : M unit :=
  (update <- lift (prices_find (live_callback stock) prices) ;;
   match update with
   | Some u =>
       try_catch
         (price <- lift (get_member "price" u) ;;
          updateDoc_stocks (StockHolding.symbol stock) price (now e))
         (fun _ =>
            write (console_write "Update failed (likely due to demo/ID mismatch)"))
   | None => ret tt
   end)%handler.

Fixpoint for_each {A} (body : A -> M unit) (l : list A) : M unit :=
  match l with
  | [] => ret tt
  | x :: l' => (body x ;; for_each body l')%handler
  end.

Definition failure_message (demo : bool) : string :=
  ("Failed to update stock prices via AI. "
   ++ (if demo then "(Check Console for Details)" else ""))%string.

(** Lines 186-220. *)
Definition handleUpdateStocks (service : Service) (e : Env) : M unit :=
  (write (set_updatingStocks true) ;;
   write (set_stockSources []) ;;
   try_finally
     (try_catch
        (held <- read stocks ;;
         let symbols := map StockHolding.symbol held in
         r <- fetchCurrentStockPrices service symbols ;;
         positive <- lift (length_positive (FetchResult.prices r)) ;;
         (if positive then
            demo <- read isDemoMode ;;
            if demo then
              newStocks <- lift (map_outcome (demo_update e (FetchResult.prices r)) held) ;;
              write (set_stocks newStocks)
            else
              for_each (live_update e (FetchResult.prices r)) held
          else ret tt) ;;
         write (set_stockSources (FetchResult.sources r)))
        (fun err =>
           demo <- read isDemoMode ;;
           write (show_alert (failure_message demo))))
     (write (set_updatingStocks false)))%handler.

(* ================================================================== *)
(** * 8. Exact values and the ledger invariant *)
(* ================================================================== *)

(** The rational number a finite binary64 value stands for ([m * 2^e]). *)
Definition value (x : float) : Q :=
  match Prim2SF x with
  | S754_finite s m e => (inject_Z (if s then Z.neg m else Z.pos m) * 2 ^ e)%Q
  | _ => 0%Q
  end.

(** The sum [x + y], resp. [x - y], is computed without rounding. *)
Definition exact_add (x y : float) : Prop :=
  PrimFloat.is_finite (x + y) = true /\ (value (x + y) == value x + value y)%Q.

Definition exact_sub (x y : float) : Prop :=
  PrimFloat.is_finite (x - y) = true /\ (value (x - y) == value x - value y)%Q.

(** The sum of the signed effects of the transactions that reference
    account [i]. *)
Fixpoint effects (i : string) (l : list Transaction.t) : Q :=
  match l with
  | [] => 0%Q
  | t :: l' =>
      if String.eqb (Transaction.accountId t) i
      then (value (signed_tx t) + effects i l')%Q
      else effects i l'
  end.

(** The share of one transaction in the effects on account [i]. *)
Definition share (i : string) (t : Transaction.t) : Q :=
  if String.eqb (Transaction.accountId t) i then value (signed_tx t) else 0%Q.

(** Ledger integrity, for the opening balances [opening]. *)
Definition ledger_integrity (opening : string -> Q) (st : App) : Prop :=
  forall a, In a (accounts st) ->
    PrimFloat.is_finite (Account.balance a) = true /\
    (value (Account.balance a)
     == opening (Account.id a) + effects (Account.id a) (transactions st))%Q.

(** Ids are keys: no two accounts and no two transactions share one. *)
Definition unique_ids (st : App) : Prop :=
  NoDup (map Account.id (accounts st)) /\
  NoDup (map Transaction.id (transactions st)).

(** The user actions on the ledger: filling the form and saving it, and
    deleting a transaction. *)
Inductive Action :=
| Save (e : Env) (n : NewTx.t)
| Delete (e : Env) (t : Transaction.t).

Definition step (a : Action) (st : App) : App :=
  match a with
  | Save e n => handleSaveTransaction e (setNewTx n st)
  | Delete e t => deleteTransaction e t st
  end.

Fixpoint run (l : list Action) (st : App) : App :=
  match l with
  | [] => st
  | a :: l' => run l' (step a st)
  end.

(** The first account with id [i] gets the balance [g balance]: what both
    branches of the two handlers do to the accounts. *)
Fixpoint alter_balance (i : string) (g : float -> float) (l : list Account.t)
  : list Account.t :=
  match l with
  | [] => []
  | a :: l' =>
      if has_id i a then Account.with_balance a (g (Account.balance a)) :: l'
      else a :: alter_balance i g l'
  end.

(** What an action needs for the invariant to survive it.  A save that the
    guard lets through must get an id that no transaction has yet, and the
    addition on the account's balance must be exact; a confirmed deletion
    must be of a transaction of the collection, and the subtraction must be
    exact. *)
Definition admissible (st : App) (a : Action) : Prop :=
  match a with
  | Save e n =>
      save_guard n = true ->
      (forall t, In t (transactions st) -> Transaction.id t <> new_id e st) /\
      (forall amount accId acc,
          NewTx.amount n = Some amount ->
          NewTx.accountId n = Some accId ->
          find (has_id accId) (accounts st) = Some acc ->
          exact_add (Account.balance acc) (signed (NewTx.type n) amount))
  | Delete e t =>
      confirmed e = true ->
      In t (transactions st) /\
      (forall acc,
          find (has_id (Transaction.accountId t)) (accounts st) = Some acc ->
          exact_sub (Account.balance acc) (signed_tx t))
  end.

Fixpoint admissible_run (st : App) (l : list Action) : Prop :=
  match l with
  | [] => True
  | a :: l' => admissible st a /\ admissible_run (step a st) l'
  end.

(* ================================================================== *)
(** * 9. The parser and the matcher in the words of the specification *)
(* ================================================================== *)

(** These definitions follow the specification, not the source; they are
    what the source is compared with. *)

(** "An element qualifies as a Quote only if it carries a non-empty string
    symbol and a finite numeric price." *)
Definition spec_valid_quote (x : JSValue) : bool :=
  match x with
  | JObj m =>
      match lookup_last "symbol" m, lookup_last "price" m with
      | Some (JStr sym), Some (JNum price) =>
          truthy_string sym && PrimFloat.is_finite price
      | _, _ => false
      end
  | _ => false
  end.

(** "(1) exact match of quote.symbol to holdingSymbol, case-insensitive;
    (2) fallback substring containment: a quote matches if holdingSymbol
    contains quote.symbol or quote.symbol contains holdingSymbol
    (case-insensitive), iterated in the order quotes were returned by the
    parser, first match wins." *)
Definition spec_exact (holdingSymbol : string) (q : JSValue) : bool :=
  match quote_symbol q with
  | Some sym => String.eqb (toLowerCase sym) (toLowerCase holdingSymbol)
  | None => false
  end.

Definition spec_contains (holdingSymbol : string) (q : JSValue) : bool :=
  match quote_symbol q with
  | Some sym =>
      includes (toLowerCase holdingSymbol) (toLowerCase sym)
      || includes (toLowerCase sym) (toLowerCase holdingSymbol)
  | None => false
  end.

Definition spec_match (quotes : list JSValue) (holdingSymbol : string)
  : option JSValue :=
  match find (spec_exact holdingSymbol) quotes with
  | Some q => Some q
  | None => find (spec_contains holdingSymbol) quotes
  end.

(* ================================================================== *)
(** * 10. Sample data *)
(* ================================================================== *)

Definition sample_env : Env :=
  mkEnv "0.7312" "Zq3kT0" "2023-10-09T08:30:00.000Z" true.

(** The third account of [INITIAL_ACCOUNTS], with balance [b]. *)
Definition wallet (b : float) : Account.t :=
  Account.mk "3" "Wallet Cash" Cash b "TWD".

Definition form (amount : float) (accId : string) (ty : TransactionType)
    (cat : string) : NewTx.t :=
  NewTx.mk (Some amount) (Some accId) (Some cat) ty (Some "2023-10-09") None.

(** One account, no transaction yet, the form filled. *)
Definition sample_app (demo : bool) (b : float) (n : NewTx.t) : App :=
  mkApp demo [wallet b] [] [] false [] true n [] [] [].

Definition sample_tx (i accId : string) (amount : float) (ty : TransactionType)
  : Transaction.t :=
  Transaction.mk i accId amount ty "Food" "2023-10-06" "".

(** The end-to-end scenario: a balance of 5000; an Income of 1000 and an
    Expense of 2500 are saved, then the Expense and the Income are deleted. *)
Definition env_income : Env := mkEnv "0.1101" "Ab1" "2023-10-09T08:30:00.000Z" true.
Definition env_expense : Env := mkEnv "0.2202" "Cd2" "2023-10-09T09:45:00.000Z" true.

Definition scenario_start (demo : bool) : App :=
  mkApp demo [wallet 5000] [] [] false [] false (blank_form sample_env) [] [] [].

Definition scenario_income (demo : bool) : Transaction.t :=
  txData env_income (form 1000 "3" Income "Salary")
    (new_id env_income (scenario_start demo)) "3" 1000 "Salary".

Definition scenario_expense (demo : bool) : Transaction.t :=
  txData env_expense (form 2500 "3" Expense "Food")
    (new_id env_expense (scenario_start demo)) "3" 2500 "Food".

Definition scenario (demo : bool) : list Action :=
  [ Save env_income (form 1000 "3" Income "Salary");
    Save env_expense (form 2500 "3" Expense "Food");
    Delete sample_env (scenario_expense demo);
    Delete sample_env (scenario_income demo) ].

(** A holding of [INITIAL_STOCKS]; as a document its id is its symbol. *)
Definition tsmc : StockHolding.t :=
  StockHolding.mk "2330.TW" "2330.TW" "TSMC" 1000 500 (JNum 980)
    (Some "2023-10-01T00:00:00.000Z").

Definition nvda : StockHolding.t :=
  StockHolding.mk "NVDA" "NVDA" "NVIDIA" 5 400 (JNum 900)
    (Some "2023-10-01T00:00:00.000Z").

Definition portfolio (demo : bool) (held : list StockHolding.t) : App :=
  mkApp demo [] [] held false [] false (blank_form sample_env) [] [] [].

Definition aapl : StockHolding.t :=
  StockHolding.mk "AAPL" "AAPL" "Apple Inc." 10 150 (JNum 220)
    (Some "2023-10-01T00:00:00.000Z").

(** A service that answers every request with the text [text] and no
    citation, and one that fails. *)
Definition answers (text : string) : Service :=
  fun _ => Some (Response.mk (Some text) []).

Definition unreachable : Service := fun _ => None.

(** A fenced block whose content is no JSON, then a bracketed array. *)
Definition text_fence_then_array : string :=
  dq "```json
prices: see below
```
[{'symbol':'AAPL','price':225.3}]".

(** The array of the entry-filtering example, in a labelled fence. *)
Definition text_two_entries : string :=
  dq "```json
[{'symbol':'X','price':1},{'symbol':'Y'}]
```".

Definition text_null : string :=
  "```json
null
```".

Definition text_entry_without_symbol : string :=
  dq "```json
[{'symbol':'2330.TW','price':990},{'price':905}]
```".

Definition text_lower_case_symbol : string :=
  dq "```json
[{'symbol':'2330.tw','price':990}]
```".

(* ================================================================== *)
(** * 10a. Accounts, holdings and the derived figures ([App.tsx],
      lines 77-184), and the demo data ([constants.ts]) *)
(* ================================================================== *)

(** ** The derived figures *)

(** Line 77: [accounts.reduce((acc, curr) => acc + curr.balance, 0)]. *)
Definition totalBalance (st : App) : float :=
  fold_left (fun acc curr => (acc + Account.balance curr)%float) (accounts st) 0%float.

(** [ToNumber] on the value a holding has for its price, which is a number
    or whatever the price list gave: a number is itself, [undefined] is
    [NaN], [null] is [0], [true] is [1] and [false] is [0].  A string, an
    array or an object is turned into a primitive and read as a numeral;
    that conversion is not embedded ([None]). *)
Definition ToNumber (v : JSValue) : option float :=
  match v with
  | JNum x => Some x
  | JUndefined => Some PrimFloat.nan
  | JNull => Some 0%float
  | JBool b => Some (if b then 1%float else 0%float)
  | JStr _ | JArr _ | JObj _ => None
  end.

(** [curr.quantity * curr.currentPrice] (lines 78 and 467). *)
Definition marketValue (s : StockHolding.t) : option float :=
  option_map (fun price => (StockHolding.quantity s * price)%float)
    (ToNumber (StockHolding.currentPrice s)).

(** The callback of line 78,
    [(acc, curr) => acc + (curr.quantity * curr.currentPrice)]. *)
Definition portfolio_step (acc : option float) (curr : StockHolding.t) : option float :=
  match acc, marketValue curr with
  | Some a, Some v => Some (a + v)%float
  | _, _ => None
  end.

(** Line 78: [stocks.reduce(..., 0)]. *)
Definition stockPortfolioValue (st : App) : option float :=
  fold_left portfolio_step (stocks st) (Some 0%float).

(** Line 79: [totalBalance + stockPortfolioValue]. *)
Definition netWorth (st : App) : option float :=
  option_map (fun v => (totalBalance st + v)%float) (stockPortfolioValue st).

(** Line 81: [accounts.find(a => a.id === id)?.name || 'Unknown Account']. *)
Definition getAccountName (st : App) (id : string) : string :=
  or_string (option_map Account.name (find (has_id id) (accounts st)))
    "Unknown Account".

Definition is_expense (t : Transaction.t) : bool :=
  match Transaction.type t with
  | Expense => true
  | Income => false
  end.

(** Line 225, the "Top expense" of the summary sent for advice:
    [transactions.find(t => t.type === 'Expense')?.category || 'None']. *)
Definition top_expense (st : App) : string :=
  or_string (option_map Transaction.category (find is_expense (transactions st)))
    "None".

(** ** Accounts (lines 125-152) *)

(** The answers to the two prompts of [addAccount]: [prompt] gives the text
    typed, [null] when the dialog is cancelled; of the second answer the
    handler keeps its value as a number only. *)
Record AccountPrompt := mkAccountPrompt
  { typed_name : option string;   (* prompt("Account Name:") *)
    typed_balance : float }.      (* Number(prompt("Initial Balance:", "0")) *)

(** Lines 125-142.  In demo mode the account gets a "random" id; in
    persisted mode [addDoc] writes the four fields and the listener reads
    the document back under the id Firestore gave it. *)
Definition addAccount (e : Env) (p : AccountPrompt) (st : App) : App :=
  match typed_name p with
  | Some name =>
      let balance := typed_balance p in
      if truthy_string name && negb (PrimFloat.is_nan balance) then
        if isDemoMode st then
          set_accounts
            (accounts st ++ [Account.mk (random_id e) name Bank balance "TWD"]) st
        else
          set_accounts
            (accounts st ++ [Account.mk (auto_id e) name Bank balance "TWD"]) st
      else st
  | None => st
  end.

(** [accounts.filter(a => a.id !== id)] and
    [deleteDoc(doc(db, "accounts", id))]. *)
Definition remove_account (i : string) (l : list Account.t) : list Account.t :=
  filter (fun a => negb (String.eqb (Account.id a) i)) l.

(** Lines 144-152. *)
Definition deleteAccount (e : Env) (id : string) (st : App) : App :=
  if confirmed e then
    if isDemoMode st then set_accounts (remove_account id (accounts st)) st
    else set_accounts (remove_account id (accounts st)) st
  else st.

(** ** Holdings (lines 154-184) *)

Record StockPrompt := mkStockPrompt
  { typed_symbol : option string;   (* prompt("Stock Symbol (e.g., 2330.TW):") *)
    typed_quantity : float;         (* Number(prompt("Quantity:", "0")) *)
    typed_cost : float }.           (* Number(prompt("Average Cost:", "0")) *)

(** The guard [symbol && qty && cost]. *)
Definition stock_guard (p : StockPrompt) : bool :=
  truthy_opt truthy_string (typed_symbol p)
  && truthy_number (typed_quantity p)
  && truthy_number (typed_cost p).

(** The holding that [addStock] makes, as the document [i]. *)
Definition new_holding (e : Env) (i symbol : string) (qty cost : float)
  : StockHolding.t :=
  StockHolding.mk i symbol symbol qty cost (JNum cost) (Some (now e)).

(** Lines 154-174.  In demo mode the holding is no document; its [docId],
    which demo mode does not read, is set to its symbol, as for the holdings
    of [INITIAL_STOCKS].  In persisted mode [addDoc] makes a document under
    an id of Firestore's, with the symbol as a field. *)
Definition addStock (e : Env) (p : StockPrompt) (st : App) : App :=
  match typed_symbol p with
  | Some symbol =>
      if stock_guard p then
        if isDemoMode st then
          set_stocks
            (stocks st ++ [new_holding e symbol symbol (typed_quantity p) (typed_cost p)])
            st
        else
          set_stocks
            (stocks st
             ++ [new_holding e (auto_id e) symbol (typed_quantity p) (typed_cost p)])
            st
      else st
  | None => st
  end.

(** Lines 176-184.  Demo mode filters on the symbol; persisted mode deletes
    the document whose id is the argument, which is no error when there is
    none.  The table calls it with [stock.symbol] (line 475). *)
Definition deleteStock (e : Env) (id : string) (st : App) : App :=
  if confirmed e then
    if isDemoMode st then
      set_stocks
        (filter (fun s => negb (String.eqb (StockHolding.symbol s) id)) (stocks st)) st
    else
      set_stocks
        (filter (fun s => negb (String.eqb (StockHolding.docId s) id)) (stocks st)) st
  else st.

(** ** The demo data *)

Definition INITIAL_ACCOUNTS : list Account.t :=
  [ Account.mk "1" "中國信託 (CTBC) Main" Bank 150000 "TWD";
    Account.mk "2" "國泰世華 (Cathay)" Bank 45000 "TWD";
    Account.mk "3" "Wallet Cash" Cash 3200 "TWD" ].

(** [loaded] is the time at which the module was loaded. *)
Definition INITIAL_STOCKS (loaded : string) : list StockHolding.t :=
  [ StockHolding.mk "2330.TW" "2330.TW" "TSMC" 1000 500 (JNum 980) (Some loaded);
    StockHolding.mk "0050.TW" "0050.TW" "Yuanta Taiwan 50" 2000 120 (JNum 185)
      (Some loaded);
    StockHolding.mk "AAPL" "AAPL" "Apple Inc." 10 150 (JNum 220) (Some loaded);
    StockHolding.mk "NVDA" "NVDA" "NVIDIA" 5 400 (JNum 900) (Some loaded) ].

Definition INITIAL_TRANSACTIONS : list Transaction.t :=
  [ Transaction.mk "t1" "1" 50000 Income "Salary" "2023-10-05" "October Salary";
    Transaction.mk "t2" "2" 2500 Expense "Food" "2023-10-06" "Dinner with friends";
    Transaction.mk "t3" "1" 1200 Expense "Transport" "2023-10-07" "High Speed Rail";
    Transaction.mk "t4" "3" 300 Expense "Entertainment" "2023-10-08" "Movie ticket";
    Transaction.mk "t5" "1" 15000 Expense "Rent" "2023-10-01" "Monthly Rent" ].

(** The state after the effect of lines 85-94 when there is no database:
    demo mode, with the data of [constants.ts]. *)
Definition demo_start (e : Env) : App :=
  mkApp true INITIAL_ACCOUNTS INITIAL_TRANSACTIONS (INITIAL_STOCKS (now e))
    false [] false (blank_form e) [] [] [].

(** A persisted collection of holdings as [addStock] makes them: each
    document under an id of Firestore's. *)
Definition live_start (held : list StockHolding.t) : App :=
  mkApp false INITIAL_ACCOUNTS INITIAL_TRANSACTIONS held
    false [] false (blank_form sample_env) [] [] [].

(** ** The data of the "Expense Structure" chart (lines 373-376) *)

(** The keys under which an empty object already has a member, inherited
    from [Object.prototype]: there [acc[t.category]] is no number. *)
Definition prototype_names : list string :=
  [ "constructor"; "hasOwnProperty"; "isPrototypeOf"; "propertyIsEnumerable";
    "toLocaleString"; "toString"; "valueOf"; "__proto__";
    "__defineGetter__"; "__defineSetter__"; "__lookupGetter__"; "__lookupSetter__" ].

(** An array index: the decimal numeral, with no sign and no leading zero,
    of an integer below [2^32 - 1].  [Object.entries] lists the keys of this
    form first, by value. *)
Definition is_array_index (s : string) : bool :=
  match s with
  | EmptyString => false
  | String c r =>
      let '(v, _, rest) := read_digits s 0%Z 0%Z in
      is_digit c
      && (negb (Ascii.eqb c "0") || String.eqb r "")
      && String.eqb rest ""
      && (v <? 4294967295)%Z
  end.

(** The categories this development follows: under any other key the chart
    is not embedded. *)
Definition plain_key (c : string) : bool :=
  negb (existsb (String.eqb c) prototype_names) && negb (is_array_index c).

(** [acc[c] = (acc[c] || 0) + amount], on an object whose keys are plain:
    they are listed in the order of their creation. *)
Fixpoint add_to_category (c : string) (amount : float) (acc : list (string * float))
  : list (string * float) :=
  match acc with
  | [] => [(c, (0 + amount)%float)]
  | (k, v) :: acc' =>
      if String.eqb k c
      then (k, ((if truthy_number v then v else 0) + amount)%float) :: acc'
      else (k, v) :: add_to_category c amount acc'
  end.

(** The callback of [reduce]. *)
Definition chart_step (acc : option (list (string * float))) (t : Transaction.t)
  : option (list (string * float)) :=
  match acc with
  | Some m =>
      if plain_key (Transaction.category t)
      then Some (add_to_category (Transaction.category t) (Transaction.amount t) m)
      else None
  | None => None
  end.

(** [Object.entries(transactions.filter(t => t.type === 'Expense')
      .reduce((acc, t) => { acc[t.category] = (acc[t.category] || 0) + t.amount;
                            return acc; }, {}))
      .map(([name, value]) => ({ name, value }))] *)
Definition expense_structure (st : App) : option (list (string * float)) :=
  fold_left chart_step (filter is_expense (transactions st)) (Some []).

(* ================================================================== *)
(** * 10b. What a price sync may change *)
(* ================================================================== *)

(** The [catch] and [finally] clauses of [handleUpdateStocks] (lines
    215-219), entered with the exception [ex] in the state [st]. *)
Definition sync_failed (ex : Exn) (st : App) : Outcome unit * App :=
  if catchable ex
  then (Ret tt, set_updatingStocks false (show_alert (failure_message (isDemoMode st)) st))
  else (Throw ex, set_updatingStocks false st).

(** The end of the [try] block and the [finally] clause (lines 214, 218). *)
Definition sync_done (sources : list GroundingSource.t) (st : App)
  : Outcome unit * App :=
  (Ret tt, set_updatingStocks false (set_stockSources sources st)).

(** The ledger, the form and the mode are the same in both states. *)
Definition same_ledger (st st' : App) : Prop :=
  isDemoMode st' = isDemoMode st /\
  accounts st' = accounts st /\
  transactions st' = transactions st /\
  txModalOpen st' = txModalOpen st /\
  newTx st' = newTx st.

(** Everything is the same in both states but the holdings and the
    console. *)
Definition loop_frame (st st' : App) : Prop :=
  same_ledger st st' /\
  updatingStocks st' = updatingStocks st /\
  stockSources st' = stockSources st /\
  alerts st' = alerts st /\
  requests st' = requests st.

(** The holding [s'] is [s], or [s] with another price and the time stamp of
    this run. *)
Definition repriced (e : Env) (s s' : StockHolding.t) : Prop :=
  s' = s \/ exists price, s' = StockHolding.with_price s price (now e).

(** The document [d'] is [d], or [d] rewritten for a holding of [held] whose
    symbol is the id of [d]. *)
Definition rewritten (e : Env) (held : list StockHolding.t)
    (d d' : StockHolding.t) : Prop :=
  d' = d \/
  exists h price,
    In h held /\ StockHolding.symbol h = StockHolding.docId d /\
    d' = StockHolding.with_price d price (now e).

(** What the two branches of the sync do to one holding, on a price list
    whose entries are objects with a string for symbol: the holding takes
    the price of the first entry that the rule of its branch accepts. *)
Definition demo_rule (holdingSymbol : string) (q : JSValue) : bool :=
  match quote_symbol q with
  | Some sym => String.eqb sym holdingSymbol
  | None => false
  end.

Definition price_of (q : JSValue) : JSValue :=
  match q with
  | JObj m =>
      match lookup_last "price" m with
      | Some v => v
      | None => JUndefined
      end
  | _ => JUndefined
  end.

Definition reprice (rule : string -> JSValue -> bool) (e : Env)
    (quotes : list JSValue) (s : StockHolding.t) : StockHolding.t :=
  match find (rule (StockHolding.symbol s)) quotes with
  | Some q => StockHolding.with_price s (price_of q) (now e)
  | None => s
  end.

(** The character [c] does not occur in [s]. *)
Fixpoint lacks (c : ascii) (s : string) : Prop :=
  match s with
  | EmptyString => True
  | String d s' => d <> c /\ lacks c s'
  end.

(** The rule of the branch the sync takes in the state [st]. *)
Definition sync_rule (st : App) : string -> JSValue -> bool :=
  if isDemoMode st then demo_rule else live_rule.

(* ################################################################## *)
(** * Part II. Properties *)
(* ################################################################## *)

(* ================================================================== *)
(** * 11. What the two handlers do to the accounts *)
(* ================================================================== *)

Lemma has_id_true i a : has_id i a = true <-> Account.id a = i.
Proof. unfold has_id. apply String.eqb_eq. Qed.

Lemma has_id_with_balance i a b : has_id i (Account.with_balance a b) = has_id i a.
Proof. reflexivity. Qed.

Lemma with_balance_same a : Account.with_balance a (Account.balance a) = a.
Proof. destruct a; reflexivity. Qed.

Lemma find_findIndex_None {A} (p : A -> bool) l :
  find p l = None <-> findIndex p l = None.
Proof.
  induction l as [|x l IH]; cbn; [tauto|].
  destruct (p x); [split; discriminate|].
  rewrite IH. destruct (findIndex p l); cbn; split; congruence.
Qed.

Lemma update_at_findIndex i g l k :
  findIndex (has_id i) l = Some k ->
  update_at k (fun a => Account.with_balance a (g (Account.balance a))) l
  = alter_balance i g l.
Proof.
  revert k; induction l as [|a l IH]; intros k; cbn; [discriminate|].
  destruct (has_id i a).
  - intros [= <-]; reflexivity.
  - destruct (findIndex (has_id i) l) as [j|]; cbn; [|discriminate].
    intros [= <-]. cbn. now rewrite (IH j).
Qed.

Lemma updateDoc_balance_find i g l a :
  find (has_id i) l = Some a ->
  updateDoc_balance (Account.id a) (g (Account.balance a)) l = alter_balance i g l.
Proof.
  induction l as [|x l IH]; cbn; [discriminate|].
  destruct (has_id i x) eqn:E.
  - intros [= <-]. apply has_id_true in E.
    assert (has_id (Account.id x) x = true) as -> by now apply has_id_true.
    reflexivity.
  - intros H. specialize (IH H).
    assert (Account.id a = i) as Ea.
    { clear -H. induction l as [|y l IH]; cbn in H; [discriminate|].
      destruct (has_id i y) eqn:E; [|auto].
      injection H as <-. now apply has_id_true. }
    rewrite Ea in *. rewrite E. now rewrite IH.
Qed.

Lemma alter_balance_absent i g l :
  find (has_id i) l = None -> alter_balance i g l = l.
Proof.
  induction l as [|a l IH]; cbn; [reflexivity|].
  destruct (has_id i a); [discriminate|]. intros H; now rewrite IH.
Qed.

(** Both branches of a handler come to [alter_balance]. *)
Lemma demo_branch_accounts i g l :
  match findIndex (has_id i) l with
  | Some k => update_at k (fun a => Account.with_balance a (g (Account.balance a))) l
  | None => l
  end = alter_balance i g l.
Proof.
  destruct (findIndex (has_id i) l) as [k|] eqn:E.
  - now apply update_at_findIndex.
  - symmetry; apply alter_balance_absent. now apply find_findIndex_None.
Qed.

Lemma live_branch_accounts i g l :
  match find (has_id i) l with
  | Some a => updateDoc_balance (Account.id a) (g (Account.balance a)) l
  | None => l
  end = alter_balance i g l.
Proof.
  destruct (find (has_id i) l) as [a|] eqn:E.
  - now apply updateDoc_balance_find.
  - symmetry; now apply alter_balance_absent.
Qed.

Lemma handleSaveTransaction_accepted e st amount accId cat :
  NewTx.amount (newTx st) = Some amount ->
  NewTx.accountId (newTx st) = Some accId ->
  NewTx.category (newTx st) = Some cat ->
  save_guard (newTx st) = true ->
  accounts (handleSaveTransaction e st)
  = alter_balance accId
      (fun b => (b + signed (NewTx.type (newTx st)) amount)%float) (accounts st)
  /\ transactions (handleSaveTransaction e st)
     = (if isDemoMode st
        then txData e (newTx st) (new_id e st) accId amount cat :: transactions st
        else transactions st ++ [txData e (newTx st) (new_id e st) accId amount cat])
  /\ isDemoMode (handleSaveTransaction e st) = isDemoMode st.
Proof.
  intros Ha Hi Hc Hg. unfold handleSaveTransaction. rewrite Ha, Hi, Hc, Hg.
  set (g := fun b => (b + signed (NewTx.type (newTx st)) amount)%float).
  destruct (isDemoMode st) eqn:Em.
  - pose proof (demo_branch_accounts accId g (accounts st)) as D.
    destruct (findIndex (has_id accId) (accounts st)); cbn; rewrite <- D; auto.
  - pose proof (live_branch_accounts accId g (accounts st)) as D.
    destruct (find (has_id accId) (accounts st)); cbn; rewrite <- D; auto.
Qed.

Lemma handleSaveTransaction_rejected e st :
  save_guard (newTx st) = false -> handleSaveTransaction e st = st.
Proof.
  intros Hg. unfold handleSaveTransaction.
  destruct (NewTx.amount (newTx st)), (NewTx.accountId (newTx st)),
    (NewTx.category (newTx st)); try reflexivity.
  now rewrite Hg.
Qed.

Lemma deleteTransaction_confirmed e t st :
  confirmed e = true ->
  accounts (deleteTransaction e t st)
  = alter_balance (Transaction.accountId t)
      (fun b => (b - signed_tx t)%float) (accounts st)
  /\ transactions (deleteTransaction e t st)
     = remove_tx (Transaction.id t) (transactions st)
  /\ isDemoMode (deleteTransaction e t st) = isDemoMode st.
Proof.
  intros Hc. unfold deleteTransaction. rewrite Hc.
  set (g := fun b => (b - signed_tx t)%float).
  destruct (isDemoMode st) eqn:Em.
  - pose proof (demo_branch_accounts (Transaction.accountId t) g (accounts st)) as D.
    destruct (findIndex _ (accounts st)); cbn; rewrite <- D; auto.
  - pose proof (live_branch_accounts (Transaction.accountId t) g (accounts st)) as D.
    destruct (find _ (accounts st)); cbn; rewrite <- D; auto.
Qed.

Lemma alter_balance_twice i f g l :
  alter_balance i g (alter_balance i f l) = alter_balance i (fun b => g (f b)) l.
Proof.
  induction l as [|a l IH]; cbn [alter_balance]; [reflexivity|].
  destruct (has_id i a) eqn:E; cbn [alter_balance].
  - now rewrite has_id_with_balance, E.
  - now rewrite E, IH.
Qed.

Lemma alter_balance_fixed i g l :
  (forall a, find (has_id i) l = Some a -> g (Account.balance a) = Account.balance a) ->
  alter_balance i g l = l.
Proof.
  induction l as [|a l IH]; cbn; [reflexivity|].
  destruct (has_id i a) eqn:E; intros H.
  - rewrite (H a eq_refl). now rewrite with_balance_same.
  - now rewrite IH.
Qed.

Lemma remove_tx_fresh i l :
  (forall t, In t l -> Transaction.id t <> i) -> remove_tx i l = l.
Proof.
  unfold remove_tx. induction l as [|t l IH]; cbn; [reflexivity|]; intros H.
  destruct (String.eqb_spec (Transaction.id t) i) as [E|E]; cbn.
  - exfalso. apply (H t); auto.
  - rewrite IH; auto.
Qed.

(* ================================================================== *)
(** * 12. Save then delete *)
(* ================================================================== *)

Lemma signed_tx_txData e n i accId amount cat :
  signed_tx (txData e n i accId amount cat) = signed (NewTx.type n) amount.
Proof. reflexivity. Qed.

(** C1, as the code has it.  When the form is accepted and names an existing
    account, saving the transaction and then deleting it puts every account
    back as it was, for Income and for Expense alike, provided the double
    subtraction undoes the double addition on this balance:
    [(B + s) - s = B], with [s] the signed amount. *)
Theorem delete_after_save_restores_accounts :
  forall (e e' : Env) (st : App) amount accId cat a,
    NewTx.amount (newTx st) = Some amount ->
    NewTx.accountId (newTx st) = Some accId ->
    NewTx.category (newTx st) = Some cat ->
    save_guard (newTx st) = true ->
    find (has_id accId) (accounts st) = Some a ->
    confirmed e' = true ->
    (Account.balance a + signed (NewTx.type (newTx st)) amount
       - signed (NewTx.type (newTx st)) amount)%float = Account.balance a ->
    let t := txData e (newTx st) (new_id e st) accId amount cat in
    In t (transactions (handleSaveTransaction e st)) /\
    find (has_id accId) (accounts (deleteTransaction e' t (handleSaveTransaction e st)))
      = Some a /\
    accounts (deleteTransaction e' t (handleSaveTransaction e st)) = accounts st.
Proof.
  intros e e' st amount accId cat a Ha Hi Hc Hg Hf Hc' Hx t.
  destruct (handleSaveTransaction_accepted e st amount accId cat Ha Hi Hc Hg)
    as (Hacc & Htx & _).
  destruct (deleteTransaction_confirmed e' t (handleSaveTransaction e st) Hc')
    as (Hacc' & _ & _).
  assert (accounts (deleteTransaction e' t (handleSaveTransaction e st)) = accounts st) as R.
  { rewrite Hacc', Hacc. cbn [Transaction.accountId t txData].
    rewrite alter_balance_twice. apply alter_balance_fixed.
    intros a' Ha'. rewrite Hf in Ha'. injection Ha' as <-.
    unfold t. now rewrite signed_tx_txData. }
  split; [|split; [now rewrite R | exact R]].
  rewrite Htx. destruct (isDemoMode st); [now left|].
  apply in_or_app; right; now left.
Qed.

(** The law at work on whole amounts, in persisted mode: 5000, an Expense of
    2500 saved and deleted. *)
Lemma delete_after_save_witness :
  accounts
    (deleteTransaction sample_env
       (txData sample_env (form 2500 "3" Expense "Food") "Zq3kT0" "3" 2500 "Food")
       (handleSaveTransaction sample_env
          (sample_app false 5000 (form 2500 "3" Expense "Food"))))
  = [wallet 5000].
Proof.
  apply (delete_after_save_restores_accounts sample_env sample_env
           (sample_app false 5000 (form 2500 "3" Expense "Food"))
           2500 "3" "Food" (wallet 5000)); reflexivity.
Defined.

(** C1 as stated fails: balance 0.1, an Income of 0.2 saved and deleted; the
    balance comes back as 0.10000000000000003. *)
Lemma delete_after_save_not_exact :
  save_guard (form 0.2 "3" Income "Salary") = true /\
  map Account.balance
    (accounts
       (deleteTransaction sample_env
          (txData sample_env (form 0.2 "3" Income "Salary") "0.7312" "3" 0.2 "Salary")
          (handleSaveTransaction sample_env
             (sample_app true 0.1 (form 0.2 "3" Income "Salary")))))
  = [0.10000000000000003%float] /\
  0.10000000000000003%float <> 0.1%float.
Proof.
  split; [reflexivity|]. split; [vm_compute; reflexivity|].
  vm_compute. discriminate.
Qed.

(* ================================================================== *)
(** * 13. The guard of the form *)
(* ================================================================== *)

(** C3, as the code has it.  When the amount is missing, zero ([0] or [-0])
    or [NaN], or the account id is missing or empty, or the category is
    missing or empty, saving changes nothing at all: neither the
    transactions, nor a balance, nor the form.  The handler has no error
    result; the save is dropped silently. *)
Theorem save_ignored_when_guard_fails :
  forall (e : Env) (st : App),
    (NewTx.amount (newTx st) = None \/
     (exists x, NewTx.amount (newTx st) = Some x /\
                (PrimFloat.is_zero x = true \/ PrimFloat.is_nan x = true))) \/
    (NewTx.accountId (newTx st) = None \/ NewTx.accountId (newTx st) = Some "") \/
    (NewTx.category (newTx st) = None \/ NewTx.category (newTx st) = Some "") ->
    handleSaveTransaction e st = st.
Proof.
  intros e st H. apply handleSaveTransaction_rejected. unfold save_guard.
  destruct H as [[H|(x & H & Hx)]|[[H|H]|[H|H]]]; rewrite H; cbn.
  - reflexivity.
  - unfold truthy_number. destruct Hx as [-> | ->]; cbn; [reflexivity|].
    now rewrite orb_true_r.
  - now rewrite andb_false_r.
  - now rewrite andb_false_r.
  - now rewrite andb_false_r.
  - now rewrite andb_false_r.
Qed.

Lemma save_ignored_witness :
  handleSaveTransaction sample_env (sample_app true 100 (form 0 "3" Expense "Food"))
  = sample_app true 100 (form 0 "3" Expense "Food").
Proof.
  apply (save_ignored_when_guard_fails sample_env
           (sample_app true 100 (form 0 "3" Expense "Food"))).
  left; right. exists 0%float. split; [reflexivity | left; reflexivity].
Defined.

(** C3 as stated fails twice.  A negative amount passes the guard: an
    Expense of -5 on a balance of 100 is recorded and the balance becomes
    105.  An account id that resolves to no account passes it too: the
    transaction is recorded, in both modes, and no balance moves. *)
Lemma save_accepts_negative_amount_and_unknown_account :
  (let st := handleSaveTransaction sample_env
               (sample_app true 100 (form (-5) "3" Expense "Food")) in
   map Account.balance (accounts st) = [105%float] /\
   map Transaction.amount (transactions st) = [(-5)%float]) /\
  (forall demo,
     let st := handleSaveTransaction sample_env
                 (sample_app demo 100 (form 30 "ghost" Expense "Food")) in
     map Account.balance (accounts st) = [100%float] /\
     map Transaction.accountId (transactions st) = ["ghost"]).
Proof.
  split; [split; vm_compute; reflexivity|].
  intros [|]; split; vm_compute; reflexivity.
Qed.

(* ================================================================== *)
(** * 14. Deleting what is not in the collection *)
(* ================================================================== *)

Lemma find_alter_balance i g l :
  find (has_id i) (alter_balance i g l)
  = option_map (fun a => Account.with_balance a (g (Account.balance a)))
      (find (has_id i) l).
Proof.
  induction l as [|a l IH]; cbn [alter_balance find]; [reflexivity|].
  destruct (has_id i a) eqn:E; cbn [find].
  - now rewrite has_id_with_balance, E.
  - now rewrite E.
Qed.

Lemma set_transactions_same st : set_transactions (transactions st) st = st.
Proof. destruct st; reflexivity. Qed.

Lemma deleteTransaction_no_account e t st :
  find (has_id (Transaction.accountId t)) (accounts st) = None ->
  deleteTransaction e t st
  = if confirmed e
    then set_transactions (remove_tx (Transaction.id t) (transactions st)) st
    else st.
Proof.
  intros H. unfold deleteTransaction.
  destruct (confirmed e); [|reflexivity].
  rewrite H. apply find_findIndex_None in H. rewrite H.
  now destruct (isDemoMode st).
Qed.

(** C7, as the code has it.  [deleteTransaction] does not look whether the
    transaction is in the collection and has no error result.  For a
    confirmed deletion of a transaction whose id is not in the collection
    (never saved, or deleted before): the collection stays as it is; the
    first account with the transaction's account id still gets the signed
    amount subtracted from its balance; only when no account has that id
    does the whole state stay as it is. *)
Theorem delete_of_absent_transaction :
  forall (e : Env) (t : Transaction.t) (st : App),
    confirmed e = true ->
    (forall tr, In tr (transactions st) -> Transaction.id tr <> Transaction.id t) ->
    transactions (deleteTransaction e t st) = transactions st /\
    (forall a,
        find (has_id (Transaction.accountId t)) (accounts st) = Some a ->
        find (has_id (Transaction.accountId t)) (accounts (deleteTransaction e t st))
        = Some (Account.with_balance a (Account.balance a - signed_tx t)%float)) /\
    (find (has_id (Transaction.accountId t)) (accounts st) = None ->
     deleteTransaction e t st = st).
Proof.
  intros e t st Hc Hfresh.
  destruct (deleteTransaction_confirmed e t st Hc) as (Hacc & Htx & _).
  split; [|split].
  - rewrite Htx. now apply remove_tx_fresh.
  - intros a Ha. now rewrite Hacc, find_alter_balance, Ha.
  - intros Hn. rewrite (deleteTransaction_no_account e t st Hn), Hc.
    rewrite remove_tx_fresh by assumption. apply set_transactions_same.
Qed.

Lemma delete_of_absent_witness :
  find (has_id "3")
    (accounts (deleteTransaction sample_env (sample_tx "t9" "3" 30 Income)
                 (sample_app false 100 (form 0 "3" Expense "Food"))))
  = Some (wallet 70).
Proof.
  refine (proj1 (proj2 (delete_of_absent_transaction sample_env
                          (sample_tx "t9" "3" 30 Income)
                          (sample_app false 100 (form 0 "3" Expense "Food"))
                          eq_refl _)) (wallet 100) eq_refl).
  intros tr [].
Defined.

(** C7 as stated fails.  A transaction that was never saved is deleted
    without an error and the balance moves from 100 to 70; a transaction
    saved once and deleted twice moves the balance from 100 to 130 and back
    to 100 and then to 70. *)
Lemma delete_of_absent_changes_balance :
  (forall demo,
     map Account.balance
       (accounts (deleteTransaction sample_env (sample_tx "t9" "3" 30 Income)
                    (sample_app demo 100 (form 0 "3" Expense "Food"))))
     = [70%float]) /\
  (forall demo,
     let n := form 30 "3" Income "Salary" in
     let st0 := sample_app demo 100 n in
     let t := txData sample_env n (new_id sample_env st0) "3" 30 "Salary" in
     let st1 := handleSaveTransaction sample_env st0 in
     let st2 := deleteTransaction sample_env t st1 in
     let st3 := deleteTransaction sample_env t st2 in
     transactions st1 = [t] /\ transactions st2 = [] /\ transactions st3 = [] /\
     map Account.balance (accounts st1) = [130%float] /\
     map Account.balance (accounts st2) = [100%float] /\
     map Account.balance (accounts st3) = [70%float]) /\
  70%float <> 100%float.
Proof.
  split; [intros [|]; vm_compute; reflexivity|].
  split; [intros [|]; repeat split; vm_compute; reflexivity|].
  vm_compute; discriminate.
Qed.

(* ================================================================== *)
(** * 15. Ledger integrity *)
(* ================================================================== *)

Lemma effects_cons i t l : (effects i (t :: l) == share i t + effects i l)%Q.
Proof.
  unfold share; cbn. destruct (String.eqb (Transaction.accountId t) i); lra.
Qed.

Lemma effects_snoc i t l : (effects i (l ++ [t]) == share i t + effects i l)%Q.
Proof.
  induction l as [|x l IH].
  - apply effects_cons.
  - change ((x :: l) ++ [t]) with (x :: (l ++ [t])).
    rewrite !effects_cons, IH. lra.
Qed.

Lemma remove_tx_cons i t l :
  remove_tx i (t :: l)
  = if String.eqb (Transaction.id t) i then remove_tx i l else t :: remove_tx i l.
Proof. unfold remove_tx; cbn. now destruct (String.eqb (Transaction.id t) i). Qed.

Lemma effects_remove i t l :
  NoDup (map Transaction.id l) -> In t l ->
  (share i t + effects i (remove_tx (Transaction.id t) l) == effects i l)%Q.
Proof.
  induction l as [|x l IH]; [intros _ []|].
  intros Hnd Hin. cbn in Hnd. apply NoDup_cons_iff in Hnd as [Hx Hnd].
  rewrite remove_tx_cons, effects_cons.
  destruct Hin as [->|Hin].
  - rewrite String.eqb_refl, remove_tx_fresh; [lra|].
    intros t' Ht' E. apply Hx. rewrite <- E. now apply in_map.
  - destruct (String.eqb_spec (Transaction.id x) (Transaction.id t)) as [E|E].
    + exfalso. apply Hx. rewrite E. now apply in_map.
    + rewrite effects_cons. specialize (IH Hnd Hin). lra.
Qed.

Lemma map_id_alter_balance i g l :
  map Account.id (alter_balance i g l) = map Account.id l.
Proof.
  induction l as [|a l IH]; cbn; [reflexivity|].
  destruct (has_id i a); cbn; [reflexivity | now rewrite IH].
Qed.

(** With ids as keys, an account after [alter_balance] is either an account
    with another id, left as it was, or the one account with this id, with
    its new balance. *)
Lemma In_alter_balance i g l a' :
  NoDup (map Account.id l) ->
  In a' (alter_balance i g l) ->
  (In a' l /\ Account.id a' <> i) \/
  (exists a, In a l /\ find (has_id i) l = Some a /\ Account.id a = i /\
             a' = Account.with_balance a (g (Account.balance a))).
Proof.
  induction l as [|a l IH]; cbn [alter_balance find]; [intros _ []|].
  intros Hnd. cbn in Hnd. apply NoDup_cons_iff in Hnd as [Ha Hnd].
  destruct (has_id i a) eqn:E.
  - apply has_id_true in E. intros [<-|Hin].
    + right. exists a. repeat split; auto. now left.
    + left. split; [now right|]. intros E'. apply Ha. rewrite E, <- E'.
      now apply in_map.
  - intros [<-|Hin].
    + left. split; [now left|]. intros E'. apply has_id_true in E'. congruence.
    + destruct (IH Hnd Hin) as [[H1 H2]|(a0 & H1 & H2 & H3 & H4)].
      * left. split; [now right | assumption].
      * right. exists a0. repeat split; auto. now right.
Qed.

Lemma share_other i t : Transaction.accountId t <> i -> share i t = 0%Q.
Proof.
  unfold share. now destruct (String.eqb_spec (Transaction.accountId t) i).
Qed.

Lemma share_same t : share (Transaction.accountId t) t = value (signed_tx t).
Proof. unfold share. now rewrite String.eqb_refl. Qed.

Lemma save_guard_fields n :
  save_guard n = true ->
  exists amount accId cat,
    NewTx.amount n = Some amount /\ NewTx.accountId n = Some accId /\
    NewTx.category n = Some cat.
Proof.
  unfold save_guard.
  destruct (NewTx.amount n) as [x|], (NewTx.accountId n) as [i|],
    (NewTx.category n) as [c|]; cbn; try discriminate;
    rewrite ?andb_false_r; try discriminate.
  intros _. now exists x, i, c.
Qed.

Lemma integrity_save opening e n st :
  unique_ids st -> ledger_integrity opening st -> admissible st (Save e n) ->
  ledger_integrity opening (step (Save e n) st) /\ unique_ids (step (Save e n) st).
Proof.
  intros [Hua Hut] Hinv Hadm. cbn [step].
  destruct (save_guard n) eqn:Hg.
  2:{ rewrite handleSaveTransaction_rejected by exact Hg. split; [exact Hinv|now split]. }
  destruct (save_guard_fields n Hg) as (amount & accId & cat & Ha & Hi & Hc).
  destruct (Hadm Hg) as [Hfresh Hexact].
  destruct (handleSaveTransaction_accepted e (setNewTx n st) amount accId cat
              Ha Hi Hc Hg) as (Hacc & Htx & _).
  cbn [newTx setNewTx accounts transactions isDemoMode] in Hacc, Htx.
  set (t := txData e n (new_id e (setNewTx n st)) accId amount cat) in *.
  assert (forall i, effects i (transactions (handleSaveTransaction e (setNewTx n st)))
                    == share i t + effects i (transactions st))%Q as Heff.
  { intros i. rewrite Htx.
    destruct (isDemoMode st); [apply effects_cons | apply effects_snoc]. }
  split.
  - intros a' Hin. rewrite Hacc in Hin.
    apply (In_alter_balance _ _ _ _ Hua) in Hin
      as [[Hin Hne]|(a & Hin & Hfind & Hid & ->)].
    + destruct (Hinv a' Hin) as [Hfin Hval]. split; [exact Hfin|].
      rewrite Heff, share_other by (cbn; congruence). lra.
    + destruct (Hinv a Hin) as [_ Hval].
      destruct (Hexact amount accId a Ha Hi Hfind) as [Hfin Hsum].
      cbn [Account.balance Account.id Account.with_balance].
      split; [exact Hfin|].
      rewrite Heff, Hid. change accId with (Transaction.accountId t) at 2.
      rewrite share_same. change (signed_tx t) with (signed (NewTx.type n) amount).
      rewrite <- Hid. lra.
  - split.
    + rewrite Hacc, map_id_alter_balance. exact Hua.
    + rewrite Htx. change (new_id e (setNewTx n st)) with (new_id e st) in t.
      assert (~ In (Transaction.id t) (map Transaction.id (transactions st))) as Hni.
      { intros Hin. apply in_map_iff in Hin as (t' & E & Hin).
        now apply (Hfresh t' Hin). }
      destruct (isDemoMode st).
      * cbn. now apply NoDup_cons.
      * rewrite map_app. cbn.
        apply NoDup_app; [exact Hut | repeat constructor; intros [] |].
        intros x Hx [<-|[]]. now apply Hni.
Qed.

Lemma NoDup_map_filter {A B} (f : A -> B) (p : A -> bool) l :
  NoDup (map f l) -> NoDup (map f (filter p l)).
Proof.
  induction l as [|x l IH]; cbn; [auto|].
  intros H. apply NoDup_cons_iff in H as [Hx Hnd].
  destruct (p x); cbn; [|auto].
  apply NoDup_cons; [|auto].
  intros Hin. apply Hx. apply in_map_iff in Hin as (y & E & Hy).
  apply filter_In in Hy as [Hy _]. rewrite <- E. now apply in_map.
Qed.

Lemma integrity_delete opening e t st :
  unique_ids st -> ledger_integrity opening st -> admissible st (Delete e t) ->
  ledger_integrity opening (step (Delete e t) st) /\ unique_ids (step (Delete e t) st).
Proof.
  intros [Hua Hut] Hinv Hadm. cbn [step].
  destruct (confirmed e) eqn:Hc.
  2:{ unfold deleteTransaction. rewrite Hc. split; [exact Hinv | now split]. }
  destruct (Hadm Hc) as [Hmem Hexact].
  destruct (deleteTransaction_confirmed e t st Hc) as (Hacc & Htx & _).
  split.
  - intros a' Hin. rewrite Hacc in Hin. rewrite Htx.
    apply (In_alter_balance _ _ _ _ Hua) in Hin
      as [[Hin Hne]|(a & Hin & Hfind & Hid & ->)].
    + destruct (Hinv a' Hin) as [Hfin Hval]. split; [exact Hfin|].
      pose proof (effects_remove (Account.id a') t _ Hut Hmem) as R.
      rewrite share_other in R by congruence. lra.
    + destruct (Hinv a Hin) as [_ Hval].
      destruct (Hexact a Hfind) as [Hfin Hdiff].
      cbn [Account.balance Account.id Account.with_balance].
      split; [exact Hfin|].
      pose proof (effects_remove (Account.id a) t _ Hut Hmem) as R.
      rewrite Hid, share_same in R. rewrite Hid in *. lra.
  - split.
    + rewrite Hacc, map_id_alter_balance. exact Hua.
    + rewrite Htx. now apply NoDup_map_filter.
Qed.

(** C2, as the code has it.  Start from a ledger whose ids are keys and
    whose balances are the opening balances plus the signed effects.  After
    any sequence of saves and deletions in which every accepted save gets a
    fresh id, every confirmed deletion is of a transaction of the collection,
    and the additions and subtractions on the balances are exact, every
    account's balance is again its opening balance plus the sum of the signed
    effects of the transactions that reference it. *)
Theorem ledger_integrity_preserved :
  forall (opening : string -> Q) (l : list Action) (st : App),
    unique_ids st ->
    ledger_integrity opening st ->
    admissible_run st l ->
    ledger_integrity opening (run l st).
Proof.
  intros opening l; induction l as [|a l IH]; intros st Hu Hinv Hadm; [exact Hinv|].
  destruct Hadm as [Ha Hl]. cbn [run].
  assert (ledger_integrity opening (step a st) /\ unique_ids (step a st)) as [H1 H2].
  { destruct a; [now apply integrity_save | now apply integrity_delete]. }
  now apply IH.
Qed.

(** The balances along the end-to-end scenario, in both modes:
    5000, 6000, 3500, 6000, 5000. *)
Example scenario_balances :
  forall demo,
    map (fun k => map Account.balance (accounts (run (firstn k (scenario demo))
                                                   (scenario_start demo))))
      [0; 1; 2; 3; 4]
    = [[5000]; [6000]; [3500]; [6000]; [5000]]%float.
Proof. intros [|]; vm_compute; reflexivity. Qed.

(** Obligations on closed ledgers: the states are evaluated first, then
    each quantified obligation is settled on the values it ranges over. *)
Ltac eval_steps :=
  repeat match goal with
    | |- context [step ?a ?s] =>
        let v := eval vm_compute in (step a s) in change (step a s) with v
    end.

Ltac closed_exact := split; vm_compute; reflexivity.

Ltac closed_admissible :=
  lazymatch goal with
  | |- admissible _ (Save _ _) =>
      intros _; split;
      [ intros t Hin; cbn in Hin; intros E;
        repeat (destruct Hin as [<-|Hin]; [vm_compute in E; discriminate E|]);
        contradiction
      | intros amount accId acc Ha Hi Hf;
        cbn in Ha, Hi; injection Ha as <-; injection Hi as <-;
        vm_compute in Hf; injection Hf as <-; closed_exact ]
  | |- admissible _ (Delete _ _) =>
      intros _; split;
      [ vm_compute; tauto
      | intros acc Hf; vm_compute in Hf; injection Hf as <-; closed_exact ]
  end.

Lemma ledger_integrity_witness :
  ledger_integrity (fun _ => 5000%Q) (run (scenario true) (scenario_start true)).
Proof.
  apply (ledger_integrity_preserved (fun _ => 5000%Q) (scenario true) (scenario_start true)).
  - split; cbn; repeat constructor; intros [].
  - intros a [<-|[]]. closed_exact.
  - cbn [admissible_run scenario]. eval_steps.
    repeat (split; [closed_admissible|]). exact I.
Defined.

(** C2 as stated fails, for two reasons.  A deletion of a transaction that
    is not in the collection (here "t9", never saved) still moves the
    balance: 100 becomes 70 with no transaction to account for it.  And the
    balance is a double: 0.1 plus an Income of 0.2 is stored as
    0.30000000000000004, which is not the opening balance plus the effect. *)
Lemma ledger_integrity_broken :
  (let st := sample_app true 100 (form 0 "3" Expense "Food") in
   unique_ids st /\
   ledger_integrity (fun _ => 100%Q) st /\
   ~ ledger_integrity (fun _ => 100%Q)
       (deleteTransaction sample_env (sample_tx "t9" "3" 30 Income) st)) /\
  (let st := sample_app true 0.1 (form 0.2 "3" Income "Salary") in
   unique_ids st /\
   ledger_integrity (fun _ => value 0.1) st /\
   ~ ledger_integrity (fun _ => value 0.1) (handleSaveTransaction sample_env st)).
Proof.
  split; cbv zeta.
  - split; [split; cbn; repeat constructor; intros []|].
    split; [intros a [<-|[]]; split; vm_compute; reflexivity|].
    intros H. destruct (H (wallet 70) (or_introl eq_refl)) as [_ E].
    vm_compute in E. discriminate.
  - split; [split; cbn; repeat constructor; intros []|].
    split; [intros a [<-|[]]; split; vm_compute; reflexivity|].
    intros H.
    destruct (H (wallet 0.30000000000000004) (or_introl eq_refl)) as [_ E].
    vm_compute in E. discriminate.
Qed.

(* ================================================================== *)
(** * 16. The lookup *)
(* ================================================================== *)

(** C10.  With no symbol the lookup returns an empty price list and an empty
    source list, and leaves the state, with the list of the requests sent to
    the service, as it was: the service is not called and the lookup cannot
    fail. *)
Theorem lookup_without_symbols :
  forall (service : Service) (st : App),
    fetchCurrentStockPrices service [] st = (Ret (FetchResult.mk (JArr []) []), st)
    /\ requests (snd (fetchCurrentStockPrices service [] st)) = requests st.
Proof. intros service st. split; reflexivity. Qed.

(** With a symbol the service is called, once, whatever it answers. *)
Lemma lookup_sends_request service symbols st :
  symbols <> [] ->
  requests (snd (fetchCurrentStockPrices service symbols st))
  = requests st ++ [String.concat ", " symbols].
Proof.
  intros H. destruct symbols as [|x xs]; [congruence|].
  unfold fetchCurrentStockPrices, try_catch, bind, generateContent.
  set (req := String.concat ", " (x :: xs)).
  destruct (service req) as [response|]; [|reflexivity].
  set (text := or_string (Response.text response) "").
  assert (requests (snd (extract_prices text (send_request req st)))
          = requests (send_request req st)
          /\ exists v, fst (extract_prices text (send_request req st)) = Ret v)
    as [E (v & Ev)].
  { unfold extract_prices, parse_brackets.
    destruct (jsonMatch text) as [g|];
      [destruct (truthy_string g)|];
      repeat match goal with
        | |- context [match ?o with Some _ => _ | None => _ end] => destruct o
        end; cbn; eauto. }
  destruct (extract_prices text (send_request req st)) as [[v'|err] st'];
    cbn in *; [exact E | discriminate].
Qed.

(** With no holding the sync sends no request and shows no alert. *)
Lemma sync_without_holdings service e st :
  stocks st = [] ->
  fst (handleUpdateStocks service e st) = Ret tt /\
  requests (snd (handleUpdateStocks service e st)) = requests st /\
  alerts (snd (handleUpdateStocks service e st)) = alerts st /\
  stocks (snd (handleUpdateStocks service e st)) = [].
Proof.
  intros H. unfold handleUpdateStocks, bind, try_finally, try_catch, read, write, lift.
  cbn. rewrite H. cbn. auto.
Qed.

(** X25.  When the call of the service is rejected the sync shows the alert
    and leaves every holding as it was. *)
Lemma sync_lookup_failure service e st :
  stocks st <> [] ->
  service (String.concat ", " (map StockHolding.symbol (stocks st))) = None ->
  fst (handleUpdateStocks service e st) = Ret tt /\
  stocks (snd (handleUpdateStocks service e st)) = stocks st /\
  alerts (snd (handleUpdateStocks service e st))
  = alerts st ++ [failure_message (isDemoMode st)].
Proof.
  intros Hne Hfail.
  unfold handleUpdateStocks, bind, try_finally, try_catch, read, write, lift.
  cbn. destruct (stocks st) as [|s l] eqn:E; [congruence|].
  cbn [map fetchCurrentStockPrices].
  unfold try_catch, bind, generateContent. cbn in Hfail |- *. rewrite Hfail.
  cbn. rewrite E. auto.
Qed.

(* ================================================================== *)
(** * 17. The regular expressions *)
(* ================================================================== *)

Lemma strip_space_length s r : strip_space s = Some r -> String.length r < String.length s.
Proof.
  unfold strip_space. destruct s as [|a [|b [|c r3]]]; try discriminate;
    repeat match goal with
      | |- context [if ?b then _ else _] => destruct b
      end; intros [= <-]; cbn; lia.
Qed.

Lemma strip_space_append s r x :
  strip_space s = Some r -> strip_space (s ++ x) = Some (r ++ x)%string.
Proof.
  unfold strip_space. destruct s as [|a [|b [|c r3]]]; cbn; try discriminate.
  - destruct (space_1 (N_of_ascii a)); [intros [= <-]; reflexivity|discriminate].
  - destruct (space_1 (N_of_ascii a)); [intros [= <-]; reflexivity|].
    destruct (space_2 (N_of_ascii a) (N_of_ascii b)); [intros [= <-]; reflexivity|discriminate].
  - destruct (space_1 (N_of_ascii a)); [intros [= <-]; reflexivity|].
    destruct (space_2 (N_of_ascii a) (N_of_ascii b)); [intros [= <-]; reflexivity|].
    destruct (space_3 _ _ _); [intros [= <-]; reflexivity|discriminate].
Qed.

Lemma skip_spaces_fuel_enough fuel s :
  String.length s <= fuel -> skip_spaces_fuel fuel s = skip_spaces s.
Proof.
  unfold skip_spaces. remember (String.length s) as n eqn:En.
  revert s fuel En. induction n as [n IH] using lt_wf_ind. intros s fuel -> Hle.
  destruct fuel as [|fuel].
  - destruct s; [reflexivity | cbn in Hle; lia].
  - destruct s as [|a s']; [reflexivity|].
    cbn [String.length skip_spaces_fuel].
    destruct (strip_space (String a s')) as [r|] eqn:E; [|reflexivity].
    pose proof (strip_space_length _ _ E) as L. cbn in L, Hle.
    rewrite (IH (String.length r)) with (fuel := fuel) by (auto; lia).
    rewrite (IH (String.length r)) with (fuel := String.length s') by (auto; lia).
    reflexivity.
Qed.

Lemma skip_spaces_step s r : strip_space s = Some r -> skip_spaces s = skip_spaces r.
Proof.
  intros E. unfold skip_spaces at 1.
  pose proof (strip_space_length _ _ E) as L.
  destruct s as [|a s']; [discriminate|].
  cbn [String.length skip_spaces_fuel]. rewrite E.
  apply skip_spaces_fuel_enough. cbn in L. lia.
Qed.

Lemma skip_spaces_stop s : strip_space s = None -> skip_spaces s = s.
Proof.
  intros E. unfold skip_spaces. destruct (String.length s); cbn; [reflexivity|].
  now rewrite E.
Qed.

Lemma skip_spaces_spaces w x : spaces w -> skip_spaces (w ++ x) = skip_spaces x.
Proof.
  induction 1 as [|s r E _ IH]; [reflexivity|].
  rewrite (skip_spaces_step _ _ (strip_space_append _ _ x E)). exact IH.
Qed.

Lemma no_tick_append a b : no_tick a -> no_tick b -> no_tick (a ++ b).
Proof. induction a as [|c a IH]; cbn; [auto|]. intros [H1 H2] Hb. auto. Qed.

(** What [strip_space] takes off is one to three bytes, none a backtick. *)
Lemma strip_space_split s r :
  strip_space s = Some r ->
  exists c, s = (c ++ r)%string /\ no_tick c /\ strip_space c = Some EmptyString.
Proof.
  unfold strip_space.
  destruct s as [|a r1]; [discriminate|].
  destruct (space_1 (N_of_ascii a)) eqn:E1.
  { intros [= <-]. exists (String a ""). cbn. rewrite E1. repeat split; auto.
    unfold space_1 in E1. intros E. rewrite E in E1. discriminate. }
  destruct r1 as [|b r2]; [discriminate|].
  destruct (space_2 (N_of_ascii a) (N_of_ascii b)) eqn:E2.
  { intros [= <-]. exists (String a (String b "")). cbn. rewrite E1, E2.
    repeat split; auto; unfold space_2 in E2; intros E; rewrite E in E2;
      try discriminate.
    now rewrite andb_false_r in E2. }
  destruct r2 as [|c r3]; [discriminate|].
  destruct (space_3 (N_of_ascii a) (N_of_ascii b) (N_of_ascii c)) eqn:E3; [|discriminate].
  intros [= <-]. exists (String a (String b (String c ""))). cbn.
  rewrite E1, E2, E3. repeat split; auto; unfold space_3 in E3; intros E;
    rewrite E in E3; cbn in E3; rewrite ?andb_false_r in E3; cbn in E3;
    try discriminate.
Qed.

Lemma append_assoc (a b c : string) : ((a ++ b) ++ c)%string = (a ++ b ++ c)%string.
Proof. induction a as [|x a IH]; cbn; [reflexivity | now rewrite IH]. Qed.

Lemma spaces_no_tick w : spaces w -> no_tick w.
Proof.
  induction 1 as [|s r E _ IH]; [exact I|].
  destruct (strip_space_split _ _ E) as (c & -> & Hc & _).
  now apply no_tick_append.
Qed.

(** The white space that [skip_spaces] takes off. *)
Lemma skip_spaces_split s :
  exists w, s = (w ++ skip_spaces s)%string /\ spaces w
            /\ strip_space (skip_spaces s) = None.
Proof.
  remember (String.length s) as n eqn:En. revert s En.
  induction n as [n IH] using lt_wf_ind. intros s ->.
  destruct (strip_space s) as [r|] eqn:E.
  - destruct (IH (String.length r) (strip_space_length _ _ E) r eq_refl)
      as (w & Hw & Sw & Hn).
    rewrite (skip_spaces_step _ _ E).
    destruct (strip_space_split _ _ E) as (c & -> & _ & Hc).
    exists (c ++ w)%string. repeat split; auto.
    + rewrite Hw at 1. now rewrite append_assoc.
    + apply (spaces_cons _ w); [|exact Sw].
      apply (strip_space_append _ _ w) in Hc. exact Hc.
  - exists EmptyString. rewrite (skip_spaces_stop _ E). repeat split; auto.
    constructor.
Qed.

Lemma strip_prefix_append p s r : strip_prefix p s = Some r <-> s = (p ++ r)%string.
Proof.
  revert s; induction p as [|a p IH]; intros s; cbn.
  - split; [intros [= ->]; reflexivity | intros ->; reflexivity].
  - destruct s as [|b s]; [split; discriminate|].
    destruct (Ascii.eqb_spec a b) as [->|Hne].
    + rewrite IH. split; [intros ->; reflexivity | intros [= ->]; reflexivity].
    + split; [discriminate | intros [= E _]; congruence].
Qed.

Lemma starts_with_append p s : starts_with p s = true <-> exists r, s = (p ++ r)%string.
Proof.
  unfold starts_with. destruct (strip_prefix p s) as [r|] eqn:E.
  - apply strip_prefix_append in E. split; eauto.
  - split; [discriminate|]. intros (r & Hr).
    apply strip_prefix_append in Hr. congruence.
Qed.

(** [\s*```] matches at the head of [s]. *)
Lemma closes_spec s :
  closes s = true <->
  exists w post, s = (w ++ fence ++ post)%string /\ spaces w.
Proof.
  unfold closes. rewrite starts_with_append. split.
  - intros (post & Hp).
    destruct (skip_spaces_split s) as (w & Hw & Sw & _).
    exists w, post. split; [|exact Sw]. rewrite Hw at 1. now rewrite Hp.
  - intros (w & post & -> & Sw). exists post.
    rewrite (skip_spaces_spaces _ _ Sw). now apply skip_spaces_stop.
Qed.

Lemma lazy_group_sound s g :
  lazy_group s = Some g ->
  exists rest, s = (g ++ rest)%string /\ closes rest = true.
Proof.
  revert g; induction s as [|c s IH]; intros g; cbn [lazy_group].
  - destruct (closes "") eqn:E; [|discriminate]. intros [= <-]. now exists EmptyString.
  - destruct (closes (String c s)) eqn:E.
    + intros [= <-]. now exists (String c s).
    + destruct (lazy_group s) as [g'|]; [|discriminate]. intros [= <-].
      destruct (IH g' eq_refl) as (rest & -> & Hc). now exists rest.
Qed.

(** The group is as short as it can be: the closing part matches at no
    earlier place of the group. *)
Lemma lazy_group_minimal s g :
  lazy_group s = Some g ->
  forall g1 g2 rest, s = (g1 ++ g2 ++ rest)%string -> g = (g1 ++ g2)%string ->
                     g2 <> EmptyString -> closes (g2 ++ rest) = false.
Proof.
  revert g; induction s as [|c s IH]; intros g; cbn [lazy_group].
  - destruct (closes ""); [|discriminate]. intros [= <-] g1 g2 rest _ E.
    destruct g1, g2; cbn in E; congruence.
  - destruct (closes (String c s)) eqn:E.
    + intros [= <-] g1 g2 rest _ E'. destruct g1, g2; cbn in E'; congruence.
    + destruct (lazy_group s) as [g'|] eqn:L; [|discriminate]. intros [= <-].
      intros g1 g2 rest Hs Hg Hne.
      destruct g1 as [|a g1].
      * cbn in Hs. now rewrite <- Hs.
      * cbn in Hs, Hg. injection Hs as _ Hs. injection Hg as _ Hg.
        now apply (IH g' eq_refl g1 g2 rest).
Qed.

Lemma lazy_group_complete a b :
  closes b = true -> lazy_group (a ++ b) <> None.
Proof.
  intros Hb. induction a as [|c a IH]; cbn [append lazy_group].
  - destruct b; cbn [lazy_group]; rewrite Hb; discriminate.
  - destruct (closes (String c (a ++ b))); [discriminate|].
    destruct (lazy_group (a ++ b)); [discriminate | contradiction].
Qed.

Lemma tick_align w r u v :
  no_tick w ->
  (w ++ r)%string = (u ++ String "`" v)%string ->
  exists a, u = (w ++ a)%string /\ r = (a ++ String "`" v)%string.
Proof.
  revert u; induction w as [|x w IH]; intros u; cbn.
  - intros _ ->. now exists u.
  - intros [Hx Hw]. destruct u as [|y u]; cbn.
    + intros [= -> _]. now contradiction Hx.
    + intros [= -> E]. destruct (IH u Hw E) as (a & -> & ->). now exists a.
Qed.

(** The expression at the head of [s]. *)
Lemma match_here_sound opener s g :
  match_here opener s = Some g ->
  exists w1 w2 post,
    s = (opener ++ w1 ++ g ++ w2 ++ fence ++ post)%string /\ spaces w1 /\ spaces w2.
Proof.
  unfold match_here. destruct (strip_prefix opener s) as [rest|] eqn:E; [|discriminate].
  apply strip_prefix_append in E. intros L.
  destruct (lazy_group_sound _ _ L) as (tail & Ht & Hc).
  apply closes_spec in Hc as (w2 & post & -> & S2).
  destruct (skip_spaces_split rest) as (w1 & H1 & S1 & _).
  exists w1, w2, post. repeat split; auto.
  rewrite E. rewrite H1 at 1. now rewrite Ht.
Qed.

Lemma match_here_complete opener w1 g w2 post :
  spaces w1 -> spaces w2 ->
  match_here opener (opener ++ w1 ++ g ++ w2 ++ fence ++ post) <> None.
Proof.
  intros S1 S2. unfold match_here.
  assert (strip_prefix opener (opener ++ w1 ++ g ++ w2 ++ fence ++ post)
          = Some (w1 ++ g ++ w2 ++ fence ++ post)%string) as ->
      by now apply strip_prefix_append.
  rewrite (skip_spaces_spaces _ _ S1).
  destruct (skip_spaces_split (g ++ w2 ++ fence ++ post)) as (w & Hw & Sw & _).
  assert ((w ++ skip_spaces (g ++ w2 ++ fence ++ post))%string
          = ((g ++ w2) ++ String "`" ("``" ++ post))%string) as E.
  { rewrite <- Hw. now rewrite <- append_assoc. }
  destruct (tick_align _ _ _ _ (spaces_no_tick _ Sw) E) as (a & _ & ->).
  apply lazy_group_complete. apply closes_spec.
  exists EmptyString, post. split; [reflexivity | constructor].
Qed.

(** [text.match(re)] returns a group exactly when the text has a match of
    the expression, and the group is then delimited as the expression says:
    an opening, white space, the group, white space, a fence. *)
Lemma regexp_match_sound opener s g :
  regexp_match opener s = Some g ->
  exists pre w1 w2 post,
    s = (pre ++ opener ++ w1 ++ g ++ w2 ++ fence ++ post)%string
    /\ spaces w1 /\ spaces w2.
Proof.
  induction s as [|c s IH]; cbn [regexp_match].
  - destruct (match_here opener "") as [g'|] eqn:E; [|discriminate].
    intros [= <-]. destruct (match_here_sound _ _ _ E) as (w1 & w2 & post & H).
    now exists EmptyString, w1, w2, post.
  - destruct (match_here opener (String c s)) as [g'|] eqn:E.
    + intros [= <-]. destruct (match_here_sound _ _ _ E) as (w1 & w2 & post & H).
      now exists EmptyString, w1, w2, post.
    + intros H. destruct (IH H) as (pre & w1 & w2 & post & -> & S1 & S2).
      now exists (String c pre), w1, w2, post.
Qed.

Lemma regexp_match_unfold opener s :
  regexp_match opener s
  = match match_here opener s with
    | Some g => Some g
    | None =>
        match s with
        | EmptyString => None
        | String _ s' => regexp_match opener s'
        end
    end.
Proof. destruct s; reflexivity. Qed.

Lemma regexp_match_complete opener pre w1 g w2 post :
  spaces w1 -> spaces w2 ->
  regexp_match opener (pre ++ opener ++ w1 ++ g ++ w2 ++ fence ++ post) <> None.
Proof.
  intros S1 S2. pose proof (match_here_complete opener w1 g w2 post S1 S2) as H.
  induction pre as [|c pre IH]; rewrite regexp_match_unfold; cbn [append].
  - destruct (match_here opener (opener ++ w1 ++ g ++ w2 ++ fence ++ post));
      [discriminate | contradiction].
  - destruct (match_here opener (String c _)); [discriminate | exact IH].
Qed.

(** The match that is returned starts at the first place where the
    expression matches. *)
Lemma regexp_match_first opener s g :
  regexp_match opener s = Some g ->
  exists pre rest,
    s = (pre ++ rest)%string /\ match_here opener rest = Some g /\
    forall p1 r1, s = (p1 ++ r1)%string -> String.length p1 < String.length pre ->
                  match_here opener r1 = None.
Proof.
  revert g; induction s as [|c s IH]; intros g; rewrite regexp_match_unfold.
  - destruct (match_here opener "") as [g'|] eqn:E; [|discriminate].
    intros [= <-]. exists EmptyString, EmptyString. repeat split; auto.
    cbn. intros; lia.
  - destruct (match_here opener (String c s)) as [g'|] eqn:E.
    + intros [= <-]. exists EmptyString, (String c s). repeat split; auto.
      cbn. intros; lia.
    + intros H. destruct (IH g H) as (pre & rest & -> & Hm & Hfirst).
      exists (String c pre), rest. repeat split; auto.
      intros [|x p1] r1; cbn.
      * intros <- _. exact E.
      * intros [= <- E1] L. apply (Hfirst p1 r1 E1). lia.
Qed.

(** X26.  What [text.match(re)] returns, in full: the text is cut as the
    expression says; the first [\s*] took all the white space there was; the
    group stops at the first place where [\s*```] matches; and there is no
    match of the expression that starts further left. *)
Theorem regexp_match_spec opener s g :
  regexp_match opener s = Some g ->
  exists pre w1 w2 post,
    s = (pre ++ opener ++ w1 ++ g ++ w2 ++ fence ++ post)%string
    /\ spaces w1 /\ spaces w2
    /\ strip_space (g ++ w2 ++ fence ++ post) = None
    /\ (forall g1 g2, g = (g1 ++ g2)%string -> g2 <> EmptyString ->
                      closes (g2 ++ w2 ++ fence ++ post) = false)
    /\ (forall pre' w1' g' w2' post',
           s = (pre' ++ opener ++ w1' ++ g' ++ w2' ++ fence ++ post')%string ->
           spaces w1' -> spaces w2' ->
           String.length pre <= String.length pre').
Proof.
  intros H. destruct (regexp_match_first _ _ _ H) as (pre & rest & -> & Hm & Hfirst).
  pose proof Hm as Hm'. unfold match_here in Hm'.
  destruct (strip_prefix opener rest) as [body|] eqn:E; [|discriminate].
  apply strip_prefix_append in E. subst rest.
  destruct (skip_spaces_split body) as (w1 & Hb & S1 & Hstop).
  destruct (lazy_group_sound _ _ Hm') as (tail & Ht & Hc).
  apply closes_spec in Hc as (w2 & post & -> & S2).
  exists pre, w1, w2, post. repeat split; auto.
  - rewrite Hb at 1. now rewrite Ht.
  - now rewrite <- Ht.
  - intros g1 g2 Hg Hne.
    apply (lazy_group_minimal _ _ Hm' g1 g2 (w2 ++ fence ++ post)%string); auto.
    rewrite Ht, Hg. now rewrite append_assoc.
  - intros pre' w1' g' w2' post' Hs S1' S2'.
    destruct (Nat.le_gt_cases (String.length pre) (String.length pre')) as [L|L];
      [exact L|].
    pose proof (Hfirst pre' _ Hs L) as Hn.
    now apply (match_here_complete opener w1' g' w2' post') in Hn.
Qed.

(* ================================================================== *)
(** * 18. The extraction of the price list *)
(* ================================================================== *)

(** When a fence matched with a group that is not empty and the group is no
    JSON, the price list is empty: the brackets of the text are not tried,
    though the message on the console says so. *)
Lemma extract_prices_fence_failure text group1 st :
  jsonMatch text = Some group1 ->
  truthy_string group1 = true ->
  JSON_parse group1 = None ->
  extract_prices text st
  = (Ret (JArr []), console_write "Failed to parse JSON, trying full text" st).
Proof.
  intros H1 H2 H3. unfold extract_prices. now rewrite H1, H2, H3.
Qed.

(** C4 fails on the code at this text: a labelled fence whose content is no
    JSON, followed by a bracketed array.  The text between the first [[] and
    the last []] is a JSON array with one quote, but the price list is empty
    and the console reads "trying full text". *)
Theorem fenced_failure_has_no_fallback :
  forall st : App,
    extract_prices text_fence_then_array st
    = (Ret (JArr []), console_write "Failed to parse JSON, trying full text" st)
    /\ option_map JSON_parse (bracketed text_fence_then_array)
       = Some (Some (JArr [quote_value "AAPL" (JNum 225.3)])).
Proof.
  intros st. split; [|vm_compute; reflexivity].
  apply (extract_prices_fence_failure _ "prices: see below"); vm_compute; reflexivity.
Qed.

Lemma extract_prices_parsed text c v st :
  candidate text = Some c ->
  JSON_parse c = Some v ->
  extract_prices text st = (Ret v, st).
Proof.
  unfold candidate, extract_prices, parse_brackets, bracketed.
  destruct (jsonMatch text) as [g|].
  - destruct (truthy_string g).
    + intros [= ->] ->. reflexivity.
    + destruct (indexOf "[" text), (lastIndexOf "]" text); try discriminate.
      intros [= ->] ->. reflexivity.
  - destruct (indexOf "[" text), (lastIndexOf "]" text); try discriminate.
    intros [= ->] ->. reflexivity.
Qed.

(** C5, as the code has it.  When the text handed to [JSON.parse] is a JSON
    array, the price list of the lookup is that array as it is: every
    element, in order, whatever it carries.  There is no validation of the
    entries. *)
Theorem parsed_array_is_returned_whole :
  forall (service : Service) (symbols : list string) (response : Response.t)
         (c : string) (l : list JSValue) (st : App),
    symbols <> [] ->
    service (String.concat ", " symbols) = Some response ->
    candidate (or_string (Response.text response) "") = Some c ->
    JSON_parse c = Some (JArr l) ->
    fst (fetchCurrentStockPrices service symbols st)
    = Ret (FetchResult.mk (JArr l)
             (chunk_sources (Response.groundingChunks response))).
Proof.
  intros service symbols response c l st Hne Hs Hc Hp.
  destruct symbols as [|x xs]; [congruence|].
  unfold fetchCurrentStockPrices, try_catch, bind, generateContent.
  rewrite Hs. rewrite (extract_prices_parsed _ c (JArr l) _ Hc Hp). reflexivity.
Qed.

Lemma parsed_array_witness :
  fst (fetchCurrentStockPrices (answers text_two_entries) ["X"; "Y"] (portfolio true []))
  = Ret (FetchResult.mk
           (JArr [quote_value "X" (JNum 1); JObj [("symbol", JStr "Y")]]) []).
Proof.
  apply (parsed_array_is_returned_whole (answers text_two_entries) ["X"; "Y"]
           (Response.mk (Some text_two_entries) [])
           (dq "[{'symbol':'X','price':1},{'symbol':'Y'}]"));
    [discriminate | reflexivity | vm_compute; reflexivity | vm_compute; reflexivity].
Defined.

(** C5 as stated fails on the example of the specification: the entry
    without a price is no quote in the words of the specification, and it is
    in the price list. *)
Lemma invalid_entry_is_kept :
  let entry_x := quote_value "X" (JNum 1) in
  let entry_y := JObj [("symbol", JStr "Y")] in
  fst (extract_prices text_two_entries (portfolio true []))
  = Ret (JArr [entry_x; entry_y])
  /\ spec_valid_quote entry_y = false
  /\ filter spec_valid_quote [entry_x; entry_y] = [entry_x].
Proof. repeat split; vm_compute; reflexivity. Qed.

(* ================================================================== *)
(** * 19. The matcher *)
(* ================================================================== *)

Lemma live_callback_quote stock x :
  quote_symbol x <> None ->
  live_callback stock x = Ret (live_rule (StockHolding.symbol stock) x).
Proof.
  unfold live_callback, live_rule, quote_symbol, get_member.
  destruct x as [| |b|n|t|l|m]; try congruence.
  destruct (lookup_last "symbol" m) as [[| |b|n|t|l|m']|]; cbn; congruence.
Qed.

Lemma array_find_live stock quotes :
  (forall x, In x quotes -> quote_symbol x <> None) ->
  array_find (live_callback stock) quotes
  = Ret (find (live_rule (StockHolding.symbol stock)) quotes).
Proof.
  induction quotes as [|q quotes IH]; intros H; [reflexivity|].
  cbn [array_find find]. rewrite live_callback_quote by (apply H; now left).
  cbn [obind].
  destruct (live_rule (StockHolding.symbol stock) q); [reflexivity|].
  apply IH. intros x Hx. apply H. now right.
Qed.

Lemma find_first_hit {A} (p : A -> bool) l x :
  find p l = Some x ->
  exists before after,
    l = before ++ x :: after /\ p x = true /\ forall y, In y before -> p y = false.
Proof.
  induction l as [|a l IH]; cbn; [discriminate|].
  destruct (p a) eqn:E.
  - intros [= <-]. exists [], l. repeat split; auto. intros y [].
  - intros H. destruct (IH H) as (before & after & -> & Hx & Hb).
    exists (a :: before), after. repeat split; auto.
    intros y [<-|Hy]; auto.
Qed.

Lemma find_no_hit {A} (p : A -> bool) l :
  find p l = None -> forall y, In y l -> p y = false.
Proof.
  induction l as [|a l IH]; cbn; [intros _ y []|].
  destruct (p a) eqn:E; [discriminate|].
  intros H y [<-|Hy]; auto.
Qed.

(** C6, as the code has it (persisted mode, line 202).  On a list of quotes
    (objects with a string symbol) the matcher goes once through the list,
    in the order of the parser, and returns the first quote whose symbol is
    the holding's symbol up to the case of the letters, or contains the
    holding's symbol as it is written.  When no quote is such, there is no
    match, and the holding is left as it was, with no error. *)
Theorem live_matcher_first_hit :
  forall (quotes : list JSValue) (stock : StockHolding.t),
    (forall x, In x quotes -> quote_symbol x <> None) ->
    let rule := live_rule (StockHolding.symbol stock) in
    prices_find (live_callback stock) (JArr quotes) = Ret (find rule quotes)
    /\ (forall q, find rule quotes = Some q ->
          exists before after,
            quotes = before ++ q :: after /\ rule q = true /\
            forall x, In x before -> rule x = false)
    /\ (find rule quotes = None ->
          (forall x, In x quotes -> rule x = false) /\
          forall e st, live_update e (JArr quotes) stock st = (Ret tt, st)).
Proof.
  intros quotes stock Hq rule. split; [now apply array_find_live|]. split.
  - intros q. apply find_first_hit.
  - intros H. split; [now apply find_no_hit|].
    intros e st. unfold live_update, bind, lift.
    cbn [prices_find]. rewrite array_find_live by assumption.
    fold rule. rewrite H. reflexivity.
Qed.

(** The matching example of the specification: the holding "2330.TW" and the
    quote "2330.tw" (members in the other order). *)
Lemma live_matcher_witness :
  prices_find (live_callback tsmc)
    (JArr [JObj [("price", JNum 990); ("symbol", JStr "2330.tw")]])
  = Ret (Some (JObj [("price", JNum 990); ("symbol", JStr "2330.tw")])).
Proof.
  refine (proj1 (live_matcher_first_hit
                   [JObj [("price", JNum 990); ("symbol", JStr "2330.tw")]] tsmc _)).
  intros x [<-|[]]. discriminate.
Defined.

(** C6 as stated fails.  For the holding "2330.TW" and the quote "2330" the
    holding's symbol contains the quote's: a match in the words of the
    specification, none in the code.  For the holding "AAPL" and the quotes
    "AAPLX", "AAPL" the specification looks for the exact match first and
    finds "AAPL"; the code returns "AAPLX".  For the holding "AAPL" and the
    quote "aapl.us" the containment holds up to case only: a match in the
    words of the specification, none in the code. *)
Lemma live_matcher_differs_from_spec :
  (let quotes := [quote_value "2330" (JNum 980.5)] in
   spec_match quotes "2330.TW" = Some (quote_value "2330" (JNum 980.5)) /\
   prices_find (live_callback tsmc) (JArr quotes) = Ret None) /\
  (let quotes := [quote_value "AAPLX" (JNum 1); quote_value "AAPL" (JNum 2)] in
   spec_match quotes "AAPL" = Some (quote_value "AAPL" (JNum 2)) /\
   prices_find (live_callback aapl) (JArr quotes)
   = Ret (Some (quote_value "AAPLX" (JNum 1)))) /\
  (let quotes := [quote_value "aapl.us" (JNum 3)] in
   spec_match quotes "AAPL" = Some (quote_value "aapl.us" (JNum 3)) /\
   prices_find (live_callback aapl) (JArr quotes) = Ret None).
Proof. repeat split; vm_compute; reflexivity. Qed.

(* ================================================================== *)
(** * 20. The sync *)
(* ================================================================== *)

(** C8 fails on the code at these answers of the service, none of them a
    failure of the lookup.  When the fenced block holds [null] the sync ends
    in the alert of a failed lookup, in both modes.  When an entry of the
    array has no symbol the sync in persisted mode updates the first holding,
    then ends in the same alert. *)
Theorem sync_alert_without_lookup_failure :
  (forall demo : bool,
     let r := handleUpdateStocks (answers text_null) sample_env (portfolio demo [tsmc]) in
     fst r = Ret tt /\
     requests (snd r) = ["2330.TW"] /\
     alerts (snd r) = [failure_message demo] /\
     stocks (snd r) = [tsmc]) /\
  (let r := handleUpdateStocks (answers text_entry_without_symbol) sample_env
              (portfolio false [tsmc; nvda]) in
   fst r = Ret tt /\
   alerts (snd r) = [failure_message false] /\
   stocks (snd r)
   = [StockHolding.with_price tsmc (JNum 990) (now sample_env); nvda]).
Proof.
  split; [intros [|]|]; repeat split; vm_compute; reflexivity.
Qed.

(** C9 fails on the code at this input: the holding "2330.TW" and the quote
    "2330.tw".  The callback of demo mode compares the symbols as they are
    and finds nothing; the callback of persisted mode compares them up to
    case and finds the quote.  The sync leaves the holding at 980 in demo
    mode and sets it to 990 in persisted mode. *)
Theorem demo_and_live_sync_differ :
  let prices := JArr [quote_value "2330.tw" (JNum 990)] in
  (prices_find (demo_callback tsmc) prices = Ret None /\
   prices_find (live_callback tsmc) prices
   = Ret (Some (quote_value "2330.tw" (JNum 990)))) /\
  (forall demo : bool,
     fst (handleUpdateStocks (answers text_lower_case_symbol) sample_env
            (portfolio demo [tsmc])) = Ret tt /\
     alerts (snd (handleUpdateStocks (answers text_lower_case_symbol) sample_env
                    (portfolio demo [tsmc]))) = []) /\
  stocks (snd (handleUpdateStocks (answers text_lower_case_symbol) sample_env
                 (portfolio true [tsmc])))
  = [tsmc] /\
  stocks (snd (handleUpdateStocks (answers text_lower_case_symbol) sample_env
                 (portfolio false [tsmc])))
  = [StockHolding.with_price tsmc (JNum 990) (now sample_env)].
Proof.
  cbv zeta. split; [split; vm_compute; reflexivity|].
  split; [intros [|]; split; vm_compute; reflexivity|].
  split; vm_compute; reflexivity.
Qed.

(* ================================================================== *)
(** * 21. The examples of the specification *)
(* ================================================================== *)

(** A labelled fence. *)
Example parser_fenced_labelled :
  fst (extract_prices (dq "```json
[{'symbol':'AAPL','price':225.3}]
```") (portfolio true []))
  = Ret (JArr [quote_value "AAPL" (JNum 225.3)]).
Proof. vm_compute; reflexivity. Qed.

(** No fence: the brackets. *)
Example parser_bracket_fallback :
  fst (extract_prices (dq "noise [ {'symbol':'2330.TW','price':980.5} ] trailing")
         (portfolio true []))
  = Ret (JArr [quote_value "2330.TW" (JNum 980.5)]).
Proof. vm_compute; reflexivity. Qed.

(** Nothing to parse: an empty list, nothing thrown, nothing on the console. *)
Example parser_total_failure :
  extract_prices "no structured data here" (portfolio true [])
  = (Ret (JArr []), portfolio true []).
Proof. vm_compute; reflexivity. Qed.

(** An unlabelled fence; white space around the content is no part of it. *)
Example parser_fenced_unlabelled :
  jsonMatch "Here you are:
```
  [1, 2]

```
Regards" = Some "[1, 2]".
Proof. vm_compute; reflexivity. Qed.

(** No quote for the holding: the holding stays, no alert, in both modes. *)
Example sync_no_match :
  forall demo,
    handleUpdateStocks
      (answers (dq "```json
[{'symbol':'AAPL','price':1}]
```")) sample_env (portfolio demo [nvda])
    = (Ret tt, send_request "NVDA" (portfolio demo [nvda])).
Proof. intros [|]; vm_compute; reflexivity. Qed.

(** In persisted mode a holding whose document id is not its symbol is not
    updated: [updateDoc] is rejected and the rejection goes to the console. *)
Example sync_document_id_mismatch :
  let held := StockHolding.mk "h7Yq" "AAPL" "Apple Inc." 10 150 (JNum 220) None in
  let r := handleUpdateStocks
             (answers (dq "[{'symbol':'AAPL','price':225.3}]")) sample_env
             (portfolio false [held]) in
  stocks (snd r) = [held] /\
  alerts (snd r) = [] /\
  console (snd r) = ["Update failed (likely due to demo/ID mismatch)"].
Proof. repeat split; vm_compute; reflexivity. Qed.

(* ================================================================== *)
(** * 22. The lookup never fails on its own *)
(* ================================================================== *)

(** The extraction returns, whatever the text, and writes at most one line
    on the console. *)
Lemma extract_prices_returns text st :
  exists v,
    fst (extract_prices text st) = Ret v /\
    (snd (extract_prices text st) = st \/
     exists msg, snd (extract_prices text st) = console_write msg st).
Proof.
  unfold extract_prices, parse_brackets.
  destruct (jsonMatch text) as [g|];
    [destruct (truthy_string g)|];
    repeat match goal with
      | |- context [match ?o with Some _ => _ | None => _ end] => destruct o
      end; cbn; eauto.
Qed.

Lemma fetch_cases service symbols st :
  let req := String.concat ", " symbols in
  let r := fetchCurrentStockPrices service symbols st in
  (symbols = [] /\ r = (Ret (FetchResult.mk (JArr []) []), st)) \/
  (symbols <> [] /\ service req = None /\
   r = (Throw LookupError,
        console_write "Error fetching stock prices:" (send_request req st))) \/
  (symbols <> [] /\
   exists response v,
     service req = Some response /\
     fst r = Ret (FetchResult.mk v (chunk_sources (Response.groundingChunks response))) /\
     fst (extract_prices (or_string (Response.text response) "") (send_request req st))
     = Ret v /\
     (snd r = send_request req st \/
      exists msg, snd r = console_write msg (send_request req st))).
Proof.
  intros req r. subst r. destruct symbols as [|x xs]; [left; auto|right].
  unfold fetchCurrentStockPrices, try_catch, bind, generateContent. fold req.
  destruct (service req) as [response|] eqn:Es.
  - right. split; [discriminate|].
    destruct (extract_prices_returns (or_string (Response.text response) "")
                (send_request req st)) as (v & Ev & Hs).
    exists response, v. split; [reflexivity|].
    destruct (extract_prices _ (send_request req st)) as [[v'|ex] st'];
      cbn in Ev, Hs |- *; [|discriminate].
    injection Ev as ->. auto.
  - left. split; [discriminate|]. split; reflexivity.
Qed.

(** The lookup leaves the state as it is, but for the console and the
    requests. *)
Lemma lookup_frame service symbols st :
  let r := fetchCurrentStockPrices service symbols st in
  stocks (snd r) = stocks st /\ alerts (snd r) = alerts st /\
  isDemoMode (snd r) = isDemoMode st.
Proof.
  intros r.
  destruct (fetch_cases service symbols st)
    as [[_ Hr]|[(_ & _ & Hr)|(_ & response & v & _ & _ & _ & Hst)]];
    fold r in Hr || fold r in Hst.
  - now rewrite Hr.
  - now rewrite Hr.
  - destruct Hst as [-> | [msg ->]]; auto.
Qed.

(* ================================================================== *)
(** * 23. The sync, step by step *)
(* ================================================================== *)

(** The sync as one case analysis: on the result of the lookup, on
    [prices.length > 0], on the mode, and on the result of the branch. *)
Lemma handleUpdateStocks_unfold service e st :
  handleUpdateStocks service e st
  = match fetchCurrentStockPrices service (map StockHolding.symbol (stocks st))
            (set_stockSources [] (set_updatingStocks true st)) with
    | (Throw ex, st1) => sync_failed ex st1
    | (Ret r, st1) =>
        match length_positive (FetchResult.prices r) with
        | Throw ex => sync_failed ex st1
        | Ret false => sync_done (FetchResult.sources r) st1
        | Ret true =>
            if isDemoMode st1 then
              match map_outcome (demo_update e (FetchResult.prices r)) (stocks st) with
              | Ret newStocks =>
                  sync_done (FetchResult.sources r) (set_stocks newStocks st1)
              | Throw ex => sync_failed ex st1
              end
            else
              match for_each (live_update e (FetchResult.prices r)) (stocks st) st1 with
              | (Ret _, st2) => sync_done (FetchResult.sources r) st2
              | (Throw ex, st2) => sync_failed ex st2
              end
        end
    end.
Proof.
  unfold handleUpdateStocks, bind, try_finally, try_catch, read, write, lift,
    sync_failed, sync_done.
  cbn [stocks set_stockSources set_updatingStocks].
  destruct (fetchCurrentStockPrices _ _ _) as [[r|ex] st1].
  - destruct (length_positive (FetchResult.prices r)) as [[|]|ex].
    + destruct (isDemoMode st1) eqn:Ed.
      * destruct (map_outcome _ _) as [l|ex]; [reflexivity|].
        destruct (catchable ex); cbn; rewrite ?Ed; reflexivity.
      * destruct (for_each _ _ st1) as [[[]|ex] st2]; [reflexivity|].
        destruct (catchable ex); reflexivity.
    + reflexivity.
    + destruct (catchable ex); reflexivity.
  - destruct (catchable ex); reflexivity.
Qed.

(** ** What the search of a quote can throw *)

Lemma get_member_throws k x ex : get_member k x = Throw ex -> ex = TypeError.
Proof. destruct x; cbn; congruence. Qed.

Lemma array_find_throws callback l ex :
  (forall x ex', callback x = Throw ex' -> ex' = TypeError) ->
  array_find callback l = Throw ex -> ex = TypeError.
Proof.
  intros H. induction l as [|x l IH]; cbn; [discriminate|].
  unfold obind. destruct (callback x) as [[|]|ex'] eqn:Ec; [discriminate|auto|].
  intros [= <-]. eauto.
Qed.

Lemma prices_find_throws callback prices ex :
  (forall x ex', callback x = Throw ex' -> ex' = TypeError) ->
  prices_find callback prices = Throw ex -> ex = TypeError.
Proof.
  intros H. destruct prices; cbn; try congruence. now apply array_find_throws.
Qed.

Lemma demo_callback_throws s x ex : demo_callback s x = Throw ex -> ex = TypeError.
Proof.
  unfold demo_callback, obind.
  destruct (get_member "symbol" x) eqn:E; [discriminate|].
  intros [= <-]. now apply get_member_throws in E.
Qed.

Lemma live_callback_throws s x ex : live_callback s x = Throw ex -> ex = TypeError.
Proof.
  unfold live_callback, obind.
  destruct (get_member "symbol" x) as [v|ex'] eqn:E.
  - destruct v; congruence.
  - intros [= <-]. now apply get_member_throws in E.
Qed.

Lemma map_outcome_throws {A B} (f : A -> Outcome B) l ex :
  map_outcome f l = Throw ex -> exists x, In x l /\ f x = Throw ex.
Proof.
  induction l as [|x l IH]; cbn; [discriminate|].
  unfold obind. destruct (f x) as [y|ex'] eqn:E.
  - destruct (map_outcome f l) as [ys|ex'']; [discriminate|].
    intros [= <-]. destruct IH as (x' & Hx & Ex); auto. exists x'. auto.
  - intros [= <-]. exists x. auto.
Qed.

(** ** The demo branch *)

Lemma demo_update_throws e prices s ex :
  demo_update e prices s = Throw ex -> ex = TypeError.
Proof.
  unfold demo_update, obind.
  destruct (prices_find (demo_callback s) prices) as [[p|]|ex'] eqn:Ef.
  - destruct (get_member "price" p) as [v|ex''] eqn:Eg; [discriminate|].
    intros [= <-]. now apply get_member_throws in Eg.
  - discriminate.
  - intros [= <-]. apply prices_find_throws in Ef; auto.
    intros x ex0. apply demo_callback_throws.
Qed.

Lemma demo_update_repriced e prices s s' :
  demo_update e prices s = Ret s' -> repriced e s s'.
Proof.
  unfold demo_update, obind.
  destruct (prices_find (demo_callback s) prices) as [[p|]|ex]; [| |discriminate].
  - destruct (get_member "price" p) as [price|ex]; [|discriminate].
    intros [= <-]. right. now exists price.
  - intros [= <-]. now left.
Qed.

Lemma map_outcome_Forall2 {A B} (f : A -> Outcome B) (R : A -> B -> Prop) l l' :
  (forall x y, f x = Ret y -> R x y) ->
  map_outcome f l = Ret l' -> Forall2 R l l'.
Proof.
  intros H. revert l'; induction l as [|x l IH]; intros l'; cbn.
  - intros [= <-]. constructor.
  - unfold obind. destruct (f x) as [y|ex] eqn:E; [|discriminate].
    destruct (map_outcome f l) as [ys|ex]; [|discriminate].
    intros [= <-]. constructor; auto.
Qed.

(** ** The persisted branch *)

Lemma updateDoc_price_rewrites i price ts l l' :
  updateDoc_price i price ts l = Some l' ->
  Forall2 (fun d d' => d' = d \/
                       (StockHolding.docId d = i /\
                        d' = StockHolding.with_price d price ts)) l l'.
Proof.
  revert l'; induction l as [|d l IH]; intros l'; cbn; [discriminate|].
  destruct (String.eqb_spec (StockHolding.docId d) i) as [E|E].
  - intros [= <-]. constructor; [now right|].
    clear. induction l; constructor; auto.
  - destruct (updateDoc_price i price ts l) as [l0|]; cbn; [|discriminate].
    intros [= <-]. constructor; [now left | now apply IH].
Qed.

Lemma updateDoc_price_missing i price ts l :
  (forall d, In d l -> StockHolding.docId d <> i) ->
  updateDoc_price i price ts l = None.
Proof.
  induction l as [|d l IH]; cbn; [reflexivity|]. intros H.
  destruct (String.eqb_spec (StockHolding.docId d) i) as [E|E].
  - exfalso. apply (H d); auto.
  - rewrite IH; auto.
Qed.

Lemma Forall2_refl {A} (R : A -> A -> Prop) l :
  (forall x, R x x) -> Forall2 R l l.
Proof. intros H; induction l; constructor; auto. Qed.

Lemma Forall2_trans {A} (R : A -> A -> Prop) l1 l2 l3 :
  (forall x y z, R x y -> R y z -> R x z) ->
  Forall2 R l1 l2 -> Forall2 R l2 l3 -> Forall2 R l1 l3.
Proof.
  intros H H12. revert l3; induction H12; intros l3 H23; inversion H23; subst;
    constructor; eauto.
Qed.

Lemma Forall2_weaken {A B} (R R' : A -> B -> Prop) l l' :
  (forall x y, R x y -> R' x y) -> Forall2 R l l' -> Forall2 R' l l'.
Proof. intros H F; induction F; constructor; auto. Qed.

Lemma with_price_twice d p ts p' ts' :
  StockHolding.with_price (StockHolding.with_price d p ts) p' ts'
  = StockHolding.with_price d p' ts'.
Proof. reflexivity. Qed.

Lemma rewritten_trans e held x y z :
  rewritten e held x y -> rewritten e held y z -> rewritten e held x z.
Proof.
  intros [->|(h & p & Hh & Hs & ->)]; [auto|].
  intros [->|(h' & p' & Hh' & Hs' & ->)].
  - right. now exists h, p.
  - right. exists h', p'. repeat split; auto.
Qed.

Lemma rewritten_more e held held' d d' :
  (forall h, In h held -> In h held') ->
  rewritten e held d d' -> rewritten e held' d d'.
Proof.
  intros H [->|(h & p & Hh & Hs & ->)]; [now left|].
  right. exists h, p. auto.
Qed.

Lemma rewritten_repriced e held d d' : rewritten e held d d' -> repriced e d d'.
Proof.
  intros [->|(h & p & _ & _ & ->)]; [now left | right; now exists p].
Qed.

Lemma same_ledger_trans st1 st2 st3 :
  same_ledger st1 st2 -> same_ledger st2 st3 -> same_ledger st1 st3.
Proof.
  unfold same_ledger. intros (?&?&?&?&?) (?&?&?&?&?). repeat split; congruence.
Qed.

Lemma loop_frame_refl st : loop_frame st st.
Proof. repeat split. Qed.

Lemma loop_frame_trans st1 st2 st3 :
  loop_frame st1 st2 -> loop_frame st2 st3 -> loop_frame st1 st3.
Proof.
  unfold loop_frame, same_ledger.
  intros ((?&?&?&?&?)&?&?&?&?) ((?&?&?&?&?)&?&?&?&?).
  repeat split; congruence.
Qed.

Lemma live_update_effect e prices stock st :
  let r := live_update e prices stock st in
  (fst r = Ret tt \/ fst r = Throw TypeError) /\
  loop_frame st (snd r) /\
  Forall2 (rewritten e [stock]) (stocks st) (stocks (snd r)).
Proof.
  unfold live_update, bind, lift, try_catch.
  destruct (prices_find (live_callback stock) prices) as [[u|]|ex] eqn:Ef.
  - destruct (get_member "price" u) as [price|ex] eqn:Eg.
    + unfold updateDoc_stocks.
      destruct (updateDoc_price (StockHolding.symbol stock) price (now e) (stocks st))
        as [l|] eqn:Eu; cbn.
      * split; [now left|]. split; [repeat split|].
        apply updateDoc_price_rewrites in Eu.
        eapply Forall2_weaken; [|exact Eu].
        intros d d' [->|[Hd ->]]; [now left|].
        right. exists stock, price. repeat split; auto. now left.
      * split; [now left|]. split; [repeat split|].
        apply Forall2_refl. now left.
    + assert (ex = TypeError) as -> by (destruct u; cbn in Eg; congruence).
      cbn. split; [now left|]. split; [repeat split|].
      apply Forall2_refl. now left.
  - cbn. split; [now left|]. split; [apply loop_frame_refl|].
    apply Forall2_refl. now left.
  - cbn. split; [right|split; [apply loop_frame_refl | apply Forall2_refl; now left]].
    f_equal. apply prices_find_throws in Ef; auto.
    intros x ex0. apply live_callback_throws.
Qed.

Lemma for_each_live_effect e prices held st :
  let r := for_each (live_update e prices) held st in
  (fst r = Ret tt \/ fst r = Throw TypeError) /\
  loop_frame st (snd r) /\
  Forall2 (rewritten e held) (stocks st) (stocks (snd r)).
Proof.
  revert st; induction held as [|h held IH]; intros st; cbn.
  - split; [now left|]. split; [apply loop_frame_refl|]. apply Forall2_refl. now left.
  - unfold bind.
    destruct (live_update_effect e prices h st) as (Ho & Hf & Hs).
    destruct (live_update e prices h st) as [[[]|ex] st1]; cbn in Ho, Hf, Hs.
    + destruct (IH st1) as (Ho' & Hf' & Hs'). cbn in Ho', Hf', Hs'.
      split; [exact Ho'|]. split; [eapply loop_frame_trans; eauto|].
      eapply Forall2_trans; [apply rewritten_trans| |].
      * eapply Forall2_weaken; [|exact Hs].
        intros d d'. apply rewritten_more. intros x [<-|[]]. now left.
      * eapply Forall2_weaken; [|exact Hs'].
        intros d d'. apply rewritten_more. intros x Hx. now right.
    + cbn. split; [exact Ho|]. split; [exact Hf|].
      eapply Forall2_weaken; [|exact Hs].
      intros d d'. apply rewritten_more. intros x [<-|[]]. now left.
Qed.

(** What every run of the sync leaves, in one statement. *)
Lemma sync_effect service e st :
  let r := handleUpdateStocks service e st in
  let req := String.concat ", " (map StockHolding.symbol (stocks st)) in
  (fst r = Ret tt \/ fst r = Throw Unmodelled) /\
  same_ledger st (snd r) /\
  updatingStocks (snd r) = false /\
  Forall2 (repriced e) (stocks st) (stocks (snd r)) /\
  (isDemoMode st = false ->
   Forall2 (rewritten e (stocks st)) (stocks st) (stocks (snd r))) /\
  requests (snd r)
  = requests st ++ match stocks st with [] => [] | _ :: _ => [req] end /\
  (alerts (snd r) = alerts st \/
   alerts (snd r) = alerts st ++ [failure_message (isDemoMode st)] /\
   stockSources (snd r) = []).
Proof.
  intros r req. subst r. rewrite handleUpdateStocks_unfold.
  set (st0 := set_stockSources [] (set_updatingStocks true st)).
  assert (forall ex st1,
             same_ledger st st1 -> stockSources st1 = [] ->
             alerts st1 = alerts st ->
             Forall2 (repriced e) (stocks st) (stocks st1) ->
             (isDemoMode st = false ->
              Forall2 (rewritten e (stocks st)) (stocks st) (stocks st1)) ->
             (ex = Unmodelled \/ catchable ex = true) ->
             let r := sync_failed ex st1 in
             (fst r = Ret tt \/ fst r = Throw Unmodelled) /\
             same_ledger st (snd r) /\
             updatingStocks (snd r) = false /\
             Forall2 (repriced e) (stocks st) (stocks (snd r)) /\
             (isDemoMode st = false ->
              Forall2 (rewritten e (stocks st)) (stocks st) (stocks (snd r))) /\
             requests (snd r) = requests st1 /\
             (alerts (snd r) = alerts st \/
              alerts (snd r) = alerts st ++ [failure_message (isDemoMode st)] /\
              stockSources (snd r) = [])) as Hfail.
  { intros ex st1 (Hd&Ha&Ht&Hm&Hn) Hs Hal Hst Hlive Hex.
    unfold sync_failed.
    destruct Hex as [-> | ->]; cbn.
    - repeat split; auto.
    - rewrite Hd, Hal. repeat split; auto. }
  assert (forall sources st1,
             same_ledger st st1 -> stockSources st1 = [] ->
             alerts st1 = alerts st ->
             Forall2 (repriced e) (stocks st) (stocks st1) ->
             (isDemoMode st = false ->
              Forall2 (rewritten e (stocks st)) (stocks st) (stocks st1)) ->
             let r := sync_done sources st1 in
             (fst r = Ret tt \/ fst r = Throw Unmodelled) /\
             same_ledger st (snd r) /\
             updatingStocks (snd r) = false /\
             Forall2 (repriced e) (stocks st) (stocks (snd r)) /\
             (isDemoMode st = false ->
              Forall2 (rewritten e (stocks st)) (stocks st) (stocks (snd r))) /\
             requests (snd r) = requests st1 /\
             (alerts (snd r) = alerts st \/
              alerts (snd r) = alerts st ++ [failure_message (isDemoMode st)] /\
              stockSources (snd r) = [])) as Hdone.
  { intros sources st1 (Hd&Ha&Ht&Hm&Hn) Hs Hal Hst Hlive.
    unfold sync_done. cbn.
    repeat split; auto. }
  assert (Forall2 (repriced e) (stocks st) (stocks st)) as Hrefl
      by (apply Forall2_refl; now left).
  assert (Forall2 (rewritten e (stocks st)) (stocks st) (stocks st)) as Hrefl'
      by (apply Forall2_refl; now left).
  assert (forall st1,
             same_ledger st st1 -> stockSources st1 = [] ->
             alerts st1 = alerts st -> stocks st1 = stocks st ->
             forall r : FetchResult.t,
             let res :=
               match length_positive (FetchResult.prices r) with
               | Throw ex => sync_failed ex st1
               | Ret false => sync_done (FetchResult.sources r) st1
               | Ret true =>
                   if isDemoMode st1 then
                     match map_outcome (demo_update e (FetchResult.prices r)) (stocks st) with
                     | Ret newStocks =>
                         sync_done (FetchResult.sources r) (set_stocks newStocks st1)
                     | Throw ex => sync_failed ex st1
                     end
                   else
                     match for_each (live_update e (FetchResult.prices r)) (stocks st) st1 with
                     | (Ret _, st2) => sync_done (FetchResult.sources r) st2
                     | (Throw ex, st2) => sync_failed ex st2
                     end
               end in
             (fst res = Ret tt \/ fst res = Throw Unmodelled) /\
             same_ledger st (snd res) /\
             updatingStocks (snd res) = false /\
             Forall2 (repriced e) (stocks st) (stocks (snd res)) /\
             (isDemoMode st = false ->
              Forall2 (rewritten e (stocks st)) (stocks st) (stocks (snd res))) /\
             requests (snd res) = requests st1 /\
             (alerts (snd res) = alerts st \/
              alerts (snd res) = alerts st ++ [failure_message (isDemoMode st)] /\
              stockSources (snd res) = [])) as Hbody.
  { intros st1 Hf Hsrc Hal Hst r res. subst res.
    assert (isDemoMode st1 = isDemoMode st) as Hd by apply Hf.
    destruct (length_positive (FetchResult.prices r)) as [[|]|ex] eqn:El.
    - destruct (isDemoMode st1) eqn:Ed.
      + destruct (map_outcome _ _) as [l|ex] eqn:Em.
        * apply (map_outcome_Forall2 _ (repriced e)) in Em;
            [|apply demo_update_repriced].
          apply (Hdone (FetchResult.sources r) (set_stocks l st1));
            [exact Hf | exact Hsrc | exact Hal | exact Em | congruence].
        * apply Hfail; rewrite ?Hst; auto.
          right. apply map_outcome_throws in Em as (s & _ & Es).
          apply demo_update_throws in Es. now subst ex.
      + destruct (for_each_live_effect e (FetchResult.prices r) (stocks st) st1)
          as (Ho & Hf' & Hs).
        rewrite Hst in Hs.
        destruct (for_each _ _ st1) as [[[]|ex] st2]; cbn in Ho, Hf', Hs.
        * destruct Hf' as (Hl & _ & Hsrc' & Hal' & <-).
          apply Hdone; [eapply same_ledger_trans; eauto | congruence | congruence
                       | | auto].
          eapply Forall2_weaken; [|exact Hs]. apply rewritten_repriced.
        * destruct Hf' as (Hl & _ & Hsrc' & Hal' & <-).
          apply Hfail; [eapply same_ledger_trans; eauto | congruence | congruence
                       | | auto |].
          -- eapply Forall2_weaken; [|exact Hs]. apply rewritten_repriced.
          -- right. destruct Ho as [Ho|Ho]; [discriminate|]. now injection Ho as ->.
    - apply Hdone; rewrite ?Hst; auto.
    - apply Hfail; rewrite ?Hst; auto.
      destruct (FetchResult.prices r); cbn in El; try congruence.
      + right. now injection El as <-.
      + right. now injection El as <-.
      + repeat match type of El with
          | context [match ?o with _ => _ end] => destruct o
          end; try congruence; left; congruence. }
  destruct (fetch_cases service (map StockHolding.symbol (stocks st)) st0)
    as [[Hnil Hr]|[(Hne & Hs & Hr)|(Hne & response & v & Hs & Hr & _ & Hst)]].
  - rewrite Hr. destruct (stocks st) as [|s l] eqn:E; [|discriminate].
    cbn [length_positive FetchResult.prices List.length Nat.ltb Nat.leb].
    cbn. unfold same_ledger. cbn. rewrite E, app_nil_r.
    repeat split; auto; constructor.
  - fold req in Hs, Hr. rewrite Hr.
    assert (requests st ++ match stocks st with [] => [] | _ :: _ => [req] end
            = requests (console_write "Error fetching stock prices:"
                          (send_request req st0))) as ->.
    { destruct (stocks st); [now elim Hne | reflexivity]. }
    apply Hfail; auto. repeat split.
  - fold req in Hs, Hr, Hst.
    destruct (fetchCurrentStockPrices service (map StockHolding.symbol (stocks st)) st0)
      as [[r|ex] st1]; cbn in Hr, Hst; [|discriminate].
    assert (requests st ++ match stocks st with [] => [] | _ :: _ => [req] end
            = requests st1) as ->.
    { destruct (stocks st); [now elim Hne|].
      destruct Hst as [-> | [msg ->]]; reflexivity. }
    apply Hbody; destruct Hst as [-> | [msg ->]]; try reflexivity; repeat split.
Qed.

(* ================================================================== *)
(** * 24. What [JSON.parse] never builds *)
(* ================================================================== *)

Lemma parse_never_undefined fuel :
  (forall s v r, parse_value fuel s = Some (v, r) -> v <> JUndefined) /\
  (forall s l r, parse_elements fuel s = Some (l, r) ->
                 forall v, In v l -> v <> JUndefined).
Proof.
  induction fuel as [|fuel [IHv IHe]]; [split; intros; discriminate|].
  split.
  - intros s v r. cbn [parse_value].
    repeat match goal with
      | |- context [match ?o with Some _ => _ | None => _ end] => destruct o
      | |- context [let '(_, _) := ?p in _] => destruct p
      end; intros [= <- <-]; discriminate.
  - intros s l r. cbn [parse_elements].
    destruct (parse_value fuel s) as [[v0 r0]|] eqn:Ev; [|discriminate].
    destruct (head_is 44 (json_ws r0)) as [r1|].
    + destruct (parse_elements fuel r1) as [[l1 r2]|] eqn:El; [|discriminate].
      intros [= <- <-] v [<-|Hin]; eauto.
    + destruct (head_is 93 (json_ws r0)); [|discriminate].
      intros [= <- <-] v [<-|[]]; eauto.
Qed.

Lemma JSON_parse_array_defined s l :
  JSON_parse s = Some (JArr l) -> forall v, In v l -> v <> JUndefined.
Proof.
  unfold JSON_parse.
  destruct (parse_value (2 * String.length s + 2) s) as [[v r]|] eqn:E; [|discriminate].
  destruct (json_ws r); [|discriminate]. intros [= ->].
  destruct (2 * String.length s + 2) as [|fuel]; [discriminate|].
  revert E. cbn [parse_value].
  destruct (head_is 91 (json_ws s)) as [r1|].
  - destruct (head_is 93 (json_ws r1)).
    + intros [= <- <-] v [].
    + destruct (parse_elements fuel r1) as [[l1 r2]|] eqn:El; [|discriminate].
      intros [= <- <-]. now apply (proj2 (parse_never_undefined fuel) _ _ _ El).
  - repeat match goal with
      | |- context [match ?o with Some _ => _ | None => _ end] => destruct o
      | |- context [let '(_, _) := ?p in _] => destruct p
      end; intros [= ? ?]; discriminate.
Qed.

(* ================================================================== *)
(** * 25. The sync on a parsed price list *)
(* ================================================================== *)

Lemma fetch_parsed service symbols response c v st :
  symbols <> [] ->
  service (String.concat ", " symbols) = Some response ->
  candidate (or_string (Response.text response) "") = Some c ->
  JSON_parse c = Some v ->
  fetchCurrentStockPrices service symbols st
  = (Ret (FetchResult.mk v (chunk_sources (Response.groundingChunks response))),
     send_request (String.concat ", " symbols) st).
Proof.
  intros Hne Hs Hc Hp. destruct symbols as [|x xs]; [congruence|].
  unfold fetchCurrentStockPrices, try_catch, bind, generateContent.
  rewrite Hs. now rewrite (extract_prices_parsed _ c v _ Hc Hp).
Qed.

Lemma find_In {A} (p : A -> bool) l x : find p l = Some x -> In x l /\ p x = true.
Proof.
  induction l as [|a l IH]; cbn; [discriminate|].
  destruct (p a) eqn:E.
  - intros [= <-]. auto.
  - intros H. destruct (IH H). auto.
Qed.

Lemma find_ext {A} (p q : A -> bool) l :
  (forall x, In x l -> p x = q x) -> find p l = find q l.
Proof.
  induction l as [|a l IH]; cbn; [reflexivity|]. intros H.
  rewrite (H a) by auto. destruct (q a); [reflexivity|]. apply IH. auto.
Qed.

Lemma get_price_of q :
  quote_symbol q <> None -> get_member "price" q = Ret (price_of q).
Proof. destruct q; cbn; congruence. Qed.

(** ** Demo mode *)

Lemma demo_callback_rule s x :
  x <> JNull -> x <> JUndefined ->
  demo_callback s x = Ret (demo_rule (StockHolding.symbol s) x).
Proof.
  unfold demo_callback, demo_rule, quote_symbol, get_member, obind.
  destruct x as [| |b|n|t|l|m]; try congruence; try reflexivity.
  intros _ _. destruct (lookup_last "symbol" m) as [[| |b|n|t|l|m']|]; reflexivity.
Qed.

Lemma array_find_demo s quotes :
  (forall x, In x quotes -> x <> JNull /\ x <> JUndefined) ->
  array_find (demo_callback s) quotes
  = Ret (find (demo_rule (StockHolding.symbol s)) quotes).
Proof.
  induction quotes as [|q quotes IH]; intros H; [reflexivity|].
  cbn [array_find find].
  rewrite demo_callback_rule by (apply H; now left). cbn [obind].
  destruct (demo_rule (StockHolding.symbol s) q); [reflexivity|].
  apply IH. intros x Hx. apply H. now right.
Qed.

Lemma demo_rule_symbol sym q : demo_rule sym q = true -> quote_symbol q <> None.
Proof. unfold demo_rule. destruct (quote_symbol q); congruence. Qed.

Lemma demo_update_reprice e quotes s :
  (forall x, In x quotes -> x <> JNull /\ x <> JUndefined) ->
  demo_update e (JArr quotes) s = Ret (reprice demo_rule e quotes s).
Proof.
  intros H. unfold demo_update, reprice. cbn [prices_find].
  rewrite array_find_demo by assumption. cbn [obind].
  destruct (find (demo_rule (StockHolding.symbol s)) quotes) as [q|] eqn:E;
    [|reflexivity].
  apply find_In in E as [_ E]. apply demo_rule_symbol in E.
  now rewrite get_price_of.
Qed.

Lemma map_outcome_total {A B} (f : A -> Outcome B) (g : A -> B) l :
  (forall x, In x l -> f x = Ret (g x)) -> map_outcome f l = Ret (map g l).
Proof.
  induction l as [|x l IH]; intros H; [reflexivity|].
  cbn. rewrite (H x) by now left. cbn. rewrite IH; [reflexivity|].
  intros y Hy. apply H. now right.
Qed.

(** ** Persisted mode *)

Lemma live_rule_symbol sym q : live_rule sym q = true -> quote_symbol q <> None.
Proof. unfold live_rule. destruct (quote_symbol q); congruence. Qed.

Lemma updateDoc_price_keyed price ts pre d post :
  (forall x, In x pre -> StockHolding.docId x <> StockHolding.docId d) ->
  updateDoc_price (StockHolding.docId d) price ts (pre ++ d :: post)
  = Some (pre ++ StockHolding.with_price d price ts :: post).
Proof.
  induction pre as [|x pre IH]; intros H; cbn.
  - now rewrite String.eqb_refl.
  - destruct (String.eqb_spec (StockHolding.docId x) (StockHolding.docId d)) as [E|E].
    + exfalso. apply (H x); [now left | exact E].
    + rewrite IH; [reflexivity|]. intros y Hy. apply H. now right.
Qed.

Lemma docId_reprice rule e quotes s :
  StockHolding.docId (reprice rule e quotes s) = StockHolding.docId s.
Proof.
  unfold reprice. now destruct (find (rule (StockHolding.symbol s)) quotes).
Qed.

(** The loop on documents that are keyed by their symbol: each holding, in
    turn, takes the price of the first quote that the rule accepts. *)
Lemma for_each_live_keyed e quotes :
  (forall x, In x quotes -> quote_symbol x <> None) ->
  forall todo pre st,
    stocks st = pre ++ todo ->
    (forall s, In s todo -> StockHolding.docId s = StockHolding.symbol s) ->
    NoDup (map StockHolding.docId (pre ++ todo)) ->
    fst (for_each (live_update e (JArr quotes)) todo st) = Ret tt /\
    stocks (snd (for_each (live_update e (JArr quotes)) todo st))
    = pre ++ map (reprice live_rule e quotes) todo /\
    console (snd (for_each (live_update e (JArr quotes)) todo st)) = console st.
Proof.
  intros Hq todo. induction todo as [|h todo IH]; intros pre st Hst Hkey Hnd.
  - cbn. now rewrite Hst.
  - assert (forall x, In x pre -> StockHolding.docId x <> StockHolding.docId h) as Hpre.
    { intros x Hx E. rewrite map_app in Hnd. cbn in Hnd.
      apply NoDup_remove_2 in Hnd. apply Hnd. apply in_or_app. left.
      rewrite <- E. now apply in_map. }
    assert (NoDup (map StockHolding.docId
                     ((pre ++ [reprice live_rule e quotes h]) ++ todo))) as Hnd'.
    { rewrite <- app_assoc. cbn. rewrite map_app in Hnd |- *. cbn in Hnd |- *.
      now rewrite docId_reprice. }
    cbn [for_each]. unfold bind.
    assert (exists st1,
               live_update e (JArr quotes) h st = (Ret tt, st1) /\
               stocks st1 = (pre ++ [reprice live_rule e quotes h]) ++ todo /\
               console st1 = console st) as (st1 & -> & Hst1 & Hc1).
    { unfold live_update, bind, lift, try_catch. cbn [prices_find].
      rewrite array_find_live by assumption.
      unfold reprice.
      destruct (find (live_rule (StockHolding.symbol h)) quotes) as [u|] eqn:Ef.
      - apply find_In in Ef as [_ Ef]. apply live_rule_symbol in Ef.
        rewrite get_price_of by assumption.
        unfold updateDoc_stocks. rewrite Hst.
        rewrite <- (Hkey h) by now left.
        rewrite updateDoc_price_keyed by assumption.
        eexists. split; [reflexivity|]. cbn. now rewrite <- app_assoc.
      - exists st. split; [reflexivity|]. rewrite Hst. now rewrite <- app_assoc. }
    destruct (IH (pre ++ [reprice live_rule e quotes h]) st1 Hst1) as (Ho & Hs & Hc);
      [intros s Hs; apply Hkey; now right | exact Hnd' |].
    rewrite Ho, Hs, Hc, Hc1. rewrite <- app_assoc. auto.
Qed.

(* ================================================================== *)
(** * 26. The price sync: what holds of every run *)
(* ================================================================== *)

(** X1.  Whatever the service answers and whatever the price list holds,
    the sync comes to its end with the "updating" flag off, and it leaves
    the accounts, the transactions, the form and the mode as they were.  It
    returns normally: the one evaluation that is not followed here (the
    comparison of a "length" member that is a string or an array with 0) is
    the only way out of the handler that is no return. *)
Theorem sync_always_ends :
  forall (service : Service) (e : Env) (st : App),
    let r := handleUpdateStocks service e st in
    (fst r = Ret tt \/ fst r = Throw Unmodelled) /\
    updatingStocks (snd r) = false /\
    same_ledger st (snd r).
Proof.
  intros service e st r.
  destruct (sync_effect service e st) as (Ho & Hl & Hu & _). auto.
Qed.

Lemma repriced_fields e l l' :
  Forall2 (repriced e) l l' ->
  map StockHolding.docId l' = map StockHolding.docId l /\
  map StockHolding.symbol l' = map StockHolding.symbol l /\
  map StockHolding.name l' = map StockHolding.name l /\
  map StockHolding.quantity l' = map StockHolding.quantity l /\
  map StockHolding.averageCost l' = map StockHolding.averageCost l.
Proof.
  induction 1 as [|s s' l l' Hs _ (I1 & I2 & I3 & I4 & I5)]; [repeat split|].
  cbn. rewrite I1, I2, I3, I4, I5.
  destruct Hs as [->|[price ->]]; repeat split.
Qed.

(** X2.  A sync never adds, removes or reorders a holding, in either mode,
    and it never changes what is held: every holding after the sync is the
    holding that stood at its place, with the same document id, symbol,
    name, quantity and average cost; at most its price and its time stamp
    are new. *)
Theorem sync_keeps_the_holdings :
  forall (service : Service) (e : Env) (st : App),
    let held' := stocks (snd (handleUpdateStocks service e st)) in
    Forall2 (repriced e) (stocks st) held' /\
    List.length held' = List.length (stocks st) /\
    map StockHolding.docId held' = map StockHolding.docId (stocks st) /\
    map StockHolding.symbol held' = map StockHolding.symbol (stocks st) /\
    map StockHolding.name held' = map StockHolding.name (stocks st) /\
    map StockHolding.quantity held' = map StockHolding.quantity (stocks st) /\
    map StockHolding.averageCost held' = map StockHolding.averageCost (stocks st).
Proof.
  intros service e st held'.
  destruct (sync_effect service e st) as (_ & _ & _ & Hs & _).
  fold held' in Hs. split; [exact Hs|]. split.
  - symmetry. eapply Forall2_length; eauto.
  - now apply (repriced_fields e).
Qed.

(** X3.  The traffic of a sync.  One request goes to the service when there
    is a holding, for the symbols joined by ", ", and none when there is no
    holding.  At most one alert is shown, the one of a failed update; and
    when it is shown the list of sources is empty, whatever the service
    cited. *)
Theorem sync_traffic :
  forall (service : Service) (e : Env) (st : App),
    let r := handleUpdateStocks service e st in
    requests (snd r)
    = requests st
      ++ match stocks st with
         | [] => []
         | _ :: _ => [String.concat ", " (map StockHolding.symbol (stocks st))]
         end /\
    (alerts (snd r) = alerts st \/
     alerts (snd r) = alerts st ++ [failure_message (isDemoMode st)] /\
     stockSources (snd r) = []).
Proof.
  intros service e st r.
  destruct (sync_effect service e st) as (_ & _ & _ & _ & _ & Hr & Ha). auto.
Qed.

Lemma rewritten_unkeyed e held l l' :
  Forall2 (rewritten e held) l l' ->
  (forall h d, In h held -> In d l ->
               StockHolding.symbol h <> StockHolding.docId d) ->
  l' = l.
Proof.
  induction 1 as [|d d' l l' Hd _ IH]; intros Hkey; [reflexivity|].
  rewrite IH by (intros h x Hh Hx; apply Hkey; [exact Hh | now right]).
  destruct Hd as [->|(h & p & Hh & Hsym & _)]; [reflexivity|].
  exfalso. apply (Hkey h d); [exact Hh | now left | exact Hsym].
Qed.

(** X4.  In persisted mode the sync writes the price of a holding to the
    document named by the holding's symbol.  So when no document is named
    by the symbol of a holding, which is how [addStock] makes them (the id
    is Firestore's own), the sync changes no holding at all, whatever the
    service answers. *)
Theorem sync_skips_unkeyed_documents :
  forall (service : Service) (e : Env) (st : App),
    isDemoMode st = false ->
    (forall h d, In h (stocks st) -> In d (stocks st) ->
                 StockHolding.symbol h <> StockHolding.docId d) ->
    stocks (snd (handleUpdateStocks service e st)) = stocks st.
Proof.
  intros service e st Hlive Hkey.
  destruct (sync_effect service e st) as (_ & _ & _ & _ & Hs & _).
  apply (rewritten_unkeyed e (stocks st)); auto.
Qed.

(** Two holdings as [addStock] leaves them in the collection, and a service
    that quotes both. *)
Lemma sync_skips_unkeyed_witness :
  let held := [new_holding sample_env "Zq3kT0" "AAPL" 10 150;
               new_holding sample_env "h7YqB2" "NVDA" 5 400] in
  stocks (snd (handleUpdateStocks
                 (answers (dq "[{'symbol':'AAPL','price':225.3},{'symbol':'NVDA','price':905}]"))
                 sample_env (live_start held)))
  = held.
Proof.
  apply (sync_skips_unkeyed_documents _ sample_env
           (live_start [new_holding sample_env "Zq3kT0" "AAPL" 10 150;
                        new_holding sample_env "h7YqB2" "NVDA" 5 400]));
    [reflexivity|].
  intros h d [<-|[<-|[]]] [<-|[<-|[]]]; discriminate.
Defined.

(* ================================================================== *)
(** * 27. The price sync on a well-formed price list *)
(* ================================================================== *)

(** X5.  Demo mode, end to end.  When the text handed to [JSON.parse] is an
    array, not empty, with no [null] entry, the sync returns with no alert,
    and every holding takes the price of the first entry whose symbol is the
    holding's symbol, letter for letter, with the time of the run; a holding
    with no such entry stays as it was.  The price is taken as it is,
    [undefined] when the entry has none.  The sources are those the service
    cited. *)
Theorem demo_sync_reprices :
  forall (service : Service) (e : Env) (st : App) (response : Response.t)
         (c : string) (quotes : list JSValue),
    isDemoMode st = true ->
    stocks st <> [] ->
    service (String.concat ", " (map StockHolding.symbol (stocks st))) = Some response ->
    candidate (or_string (Response.text response) "") = Some c ->
    JSON_parse c = Some (JArr quotes) ->
    quotes <> [] ->
    (forall q, In q quotes -> q <> JNull) ->
    let r := handleUpdateStocks service e st in
    fst r = Ret tt /\
    stocks (snd r) = map (reprice demo_rule e quotes) (stocks st) /\
    alerts (snd r) = alerts st /\
    stockSources (snd r) = chunk_sources (Response.groundingChunks response).
Proof.
  intros service e st response c quotes Hd Hne Hs Hc Hp Hq Hnull r. subst r.
  rewrite handleUpdateStocks_unfold.
  rewrite (fetch_parsed service _ response c (JArr quotes)); auto.
  2:{ destruct (stocks st); [congruence | discriminate]. }
  cbn [FetchResult.prices FetchResult.sources length_positive].
  destruct quotes as [|q0 quotes]; [congruence|].
  cbn [List.length Nat.ltb Nat.leb].
  cbn [isDemoMode send_request set_stockSources set_updatingStocks]. rewrite Hd.
  rewrite (map_outcome_total _ (reprice demo_rule e (q0 :: quotes))).
  - cbn. auto.
  - intros s _. apply demo_update_reprice. intros x Hx. split; [now apply Hnull|].
    now apply (JSON_parse_array_defined c (q0 :: quotes)).
Qed.

(** The demo data, and an answer with a quote for "AAPL" and one, without a
    price, for "NVDA". *)
Lemma demo_sync_witness :
  map StockHolding.currentPrice
    (stocks (snd (handleUpdateStocks
                    (answers (dq "```json
[{'symbol':'AAPL','price':225.3},{'symbol':'NVDA'}]
```"))
                    sample_env (demo_start sample_env))))
  = [JNum 980; JNum 185; JNum 225.3; JUndefined].
Proof.
  pose proof (demo_sync_reprices
                (answers (dq "```json
[{'symbol':'AAPL','price':225.3},{'symbol':'NVDA'}]
```"))
                sample_env (demo_start sample_env)
                (Response.mk (Some (dq "```json
[{'symbol':'AAPL','price':225.3},{'symbol':'NVDA'}]
```")) [])
                (dq "[{'symbol':'AAPL','price':225.3},{'symbol':'NVDA'}]")
                [quote_value "AAPL" (JNum 225.3); JObj [("symbol", JStr "NVDA")]]
                eq_refl) as H.
  cbv zeta in H.
  destruct H as (_ & H & _).
  - discriminate.
  - reflexivity.
  - vm_compute; reflexivity.
  - vm_compute; reflexivity.
  - discriminate.
  - intros q [<-|[<-|[]]]; discriminate.
  - rewrite H. vm_compute. reflexivity.
Defined.

(** X6.  Persisted mode, end to end.  When every document of the collection
    is named by its holding's symbol, the text handed to [JSON.parse] is an
    array, not empty, and every entry has a string for symbol, the sync
    returns with no alert and nothing on the console, and every holding
    takes the price of the first entry whose symbol is the holding's up to
    the case of the letters or contains the holding's symbol; a holding with
    no such entry stays as it was. *)
Theorem live_sync_reprices :
  forall (service : Service) (e : Env) (st : App) (response : Response.t)
         (c : string) (quotes : list JSValue),
    isDemoMode st = false ->
    stocks st <> [] ->
    (forall s, In s (stocks st) -> StockHolding.docId s = StockHolding.symbol s) ->
    NoDup (map StockHolding.docId (stocks st)) ->
    service (String.concat ", " (map StockHolding.symbol (stocks st))) = Some response ->
    candidate (or_string (Response.text response) "") = Some c ->
    JSON_parse c = Some (JArr quotes) ->
    quotes <> [] ->
    (forall q, In q quotes -> quote_symbol q <> None) ->
    let r := handleUpdateStocks service e st in
    fst r = Ret tt /\
    stocks (snd r) = map (reprice live_rule e quotes) (stocks st) /\
    alerts (snd r) = alerts st /\
    console (snd r) = console st /\
    stockSources (snd r) = chunk_sources (Response.groundingChunks response).
Proof.
  intros service e st response c quotes Hd Hne Hkey Hnd Hs Hc Hp Hq Hsym r. subst r.
  rewrite handleUpdateStocks_unfold.
  rewrite (fetch_parsed service _ response c (JArr quotes)); auto.
  2:{ destruct (stocks st); [congruence | discriminate]. }
  cbn [FetchResult.prices FetchResult.sources length_positive].
  destruct quotes as [|q0 quotes]; [congruence|].
  cbn [List.length Nat.ltb Nat.leb].
  cbn [isDemoMode send_request set_stockSources set_updatingStocks]. rewrite Hd.
  set (st1 := send_request _ _).
  destruct (for_each_live_keyed e (q0 :: quotes) Hsym (stocks st) [] st1)
    as (Ho & Hst & Hcon); auto.
  destruct (for_each_live_effect e (JArr (q0 :: quotes)) (stocks st) st1)
    as (_ & (_ & _ & _ & Hal & _) & _).
  destruct (for_each _ _ st1) as [[[]|ex] st2]; cbn in Ho, Hst, Hcon, Hal;
    [|discriminate].
  cbn. auto.
Qed.

(** The holdings of the demo data as documents named by their symbols, and
    an answer that quotes "2330.tw" and "AAPLX". *)
Lemma live_sync_witness :
  map StockHolding.currentPrice
    (stocks (snd (handleUpdateStocks
                    (answers (dq "[{'symbol':'2330.tw','price':990},{'symbol':'AAPLX','price':7}]"))
                    sample_env (live_start (INITIAL_STOCKS "2023-10-01T00:00:00.000Z")))))
  = [JNum 990; JNum 185; JNum 7; JNum 900].
Proof.
  pose proof (live_sync_reprices
                (answers (dq "[{'symbol':'2330.tw','price':990},{'symbol':'AAPLX','price':7}]"))
                sample_env (live_start (INITIAL_STOCKS "2023-10-01T00:00:00.000Z"))
                (Response.mk
                   (Some (dq "[{'symbol':'2330.tw','price':990},{'symbol':'AAPLX','price':7}]"))
                   [])
                (dq "[{'symbol':'2330.tw','price':990},{'symbol':'AAPLX','price':7}]")
                [quote_value "2330.tw" (JNum 990); quote_value "AAPLX" (JNum 7)]
                eq_refl) as H.
  cbv zeta in H.
  destruct H as (_ & H & _).
  - discriminate.
  - intros s [<-|[<-|[<-|[<-|[]]]]]; reflexivity.
  - cbn. repeat constructor; cbn; intuition discriminate.
  - reflexivity.
  - vm_compute; reflexivity.
  - vm_compute; reflexivity.
  - discriminate.
  - intros q [<-|[<-|[]]]; discriminate.
  - rewrite H. vm_compute. reflexivity.
Defined.

(* ================================================================== *)
(** * 28. Accounts *)
(* ================================================================== *)

Lemma set_accounts_same st : set_accounts (accounts st) st = st.
Proof. destruct st; reflexivity. Qed.

Lemma set_stocks_same st : set_stocks (stocks st) st = st.
Proof. destruct st; reflexivity. Qed.

Lemma set_accounts_twice l l' st : set_accounts l (set_accounts l' st) = set_accounts l st.
Proof. reflexivity. Qed.

Lemma remove_account_fresh i l :
  (forall a, In a l -> Account.id a <> i) -> remove_account i l = l.
Proof.
  unfold remove_account. induction l as [|a l IH]; cbn; [reflexivity|]; intros H.
  destruct (String.eqb_spec (Account.id a) i) as [E|E]; cbn.
  - exfalso. apply (H a); [now left | exact E].
  - rewrite IH; [reflexivity|]. intros x Hx. apply H. now right.
Qed.

Lemma remove_account_snoc i l a :
  Account.id a = i -> remove_account i (l ++ [a]) = remove_account i l.
Proof.
  intros E. unfold remove_account. rewrite filter_app. cbn.
  rewrite E, String.eqb_refl. cbn. apply app_nil_r.
Qed.

Lemma find_remove_account i l : find (has_id i) (remove_account i l) = None.
Proof.
  unfold remove_account, has_id. induction l as [|a l IH]; cbn; [reflexivity|].
  destruct (String.eqb (Account.id a) i) eqn:E; cbn; [exact IH|].
  now rewrite E.
Qed.



(** What [addAccount] does when the two answers pass its guard. *)
Lemma addAccount_accepted e p st name :
  typed_name p = Some name -> name <> "" ->
  PrimFloat.is_nan (typed_balance p) = false ->
  addAccount e p st
  = set_accounts
      (accounts st ++ [Account.mk (new_id e st) name Bank (typed_balance p) "TWD"]) st.
Proof.
  intros Hn Hne Hb. unfold addAccount, new_id. rewrite Hn, Hb.
  assert (truthy_string name = true) as ->.
  { unfold truthy_string. now destruct (String.eqb_spec name ""). }
  cbn. now destruct (isDemoMode st).
Qed.

Lemma addAccount_cases e p st :
  addAccount e p st = st \/
  exists name,
    typed_name p = Some name /\ name <> "" /\
    PrimFloat.is_nan (typed_balance p) = false /\
    addAccount e p st
    = set_accounts
        (accounts st ++ [Account.mk (new_id e st) name Bank (typed_balance p) "TWD"]) st.
Proof.
  destruct (typed_name p) as [name|] eqn:Hn; [|left; unfold addAccount; now rewrite Hn].
  destruct (String.eqb_spec name "") as [->|Hne].
  { left. unfold addAccount. now rewrite Hn. }
  destruct (PrimFloat.is_nan (typed_balance p)) eqn:Hb.
  { left. unfold addAccount. rewrite Hn, Hb. now rewrite andb_false_r. }
  right. exists name. repeat split; auto. now apply addAccount_accepted.
Qed.

(** X7.  Adding an account and deleting it again, under the id it was
    given, puts the whole state back, in both modes and whatever was typed,
    provided that the id was not in use: [deleteAccount] removes every
    account under the id it is called with. *)
Theorem add_then_delete_account :
  forall (e e' : Env) (p : AccountPrompt) (st : App),
    confirmed e' = true ->
    (forall a, In a (accounts st) -> Account.id a <> new_id e st) ->
    deleteAccount e' (new_id e st) (addAccount e p st) = st.
Proof.
  intros e e' p st Hc Hfresh.
  assert (forall st', deleteAccount e' (new_id e st) st'
                      = set_accounts (remove_account (new_id e st) (accounts st')) st')
    as Hdel.
  { intros st'. unfold deleteAccount. rewrite Hc. now destruct (isDemoMode st'). }
  rewrite Hdel.
  destruct (addAccount_cases e p st) as [->|(name & _ & _ & _ & ->)].
  - rewrite remove_account_fresh by assumption. apply set_accounts_same.
  - cbn [accounts set_accounts]. rewrite remove_account_snoc by reflexivity.
    rewrite remove_account_fresh by assumption.
    rewrite set_accounts_twice. apply set_accounts_same.
Qed.

(** The demo data: an account "Savings" is added and deleted. *)
Lemma add_then_delete_account_witness :
  deleteAccount sample_env "0.7312"
    (addAccount sample_env (mkAccountPrompt (Some "Savings") 2000)
       (demo_start sample_env))
  = demo_start sample_env.
Proof.
  apply (add_then_delete_account sample_env sample_env
           (mkAccountPrompt (Some "Savings") 2000) (demo_start sample_env));
    [reflexivity|].
  intros a [<-|[<-|[<-|[]]]]; discriminate.
Defined.

(** X8.  A deleted account leaves its transactions behind.  After a
    confirmed [deleteAccount] no account has the id, the transactions are
    all there, those of the account now show under the name
    'Unknown Account', and deleting one of them moves no balance. *)
Theorem deleted_account_leaves_orphans :
  forall (e : Env) (id : string) (st : App),
    confirmed e = true ->
    let st' := deleteAccount e id st in
    transactions st' = transactions st /\
    find (has_id id) (accounts st') = None /\
    getAccountName st' id = "Unknown Account" /\
    (forall a, In a (accounts st) -> Account.id a <> id -> In a (accounts st')) /\
    (forall e' t, Transaction.accountId t = id ->
                  accounts (deleteTransaction e' t st') = accounts st').
Proof.
  intros e id st Hc st'.
  assert (st' = set_accounts (remove_account id (accounts st)) st) as E.
  { unfold st', deleteAccount. rewrite Hc. now destruct (isDemoMode st). }
  assert (find (has_id id) (accounts st') = None) as Hnone.
  { rewrite E. cbn [accounts set_accounts]. apply find_remove_account. }
  split; [now rewrite E|]. split; [exact Hnone|]. split; [|split].
  - unfold getAccountName. now rewrite Hnone.
  - intros a Ha Hne. rewrite E. cbn [accounts set_accounts].
    unfold remove_account. apply filter_In. split; [exact Ha|].
    now destruct (String.eqb_spec (Account.id a) id).
  - intros e' t Ht. rewrite deleteTransaction_no_account by now rewrite Ht.
    now destruct (confirmed e').
Qed.

(** The demo data: account "1" is deleted; its three transactions stay. *)
Lemma deleted_account_witness :
  map Transaction.id (transactions (deleteAccount sample_env "1" (demo_start sample_env)))
  = ["t1"; "t2"; "t3"; "t4"; "t5"].
Proof.
  rewrite (proj1 (deleted_account_leaves_orphans sample_env "1"
                    (demo_start sample_env) eq_refl)).
  reflexivity.
Defined.



(* ================================================================== *)
(** * 29. Holdings *)
(* ================================================================== *)

Lemma stock_guard_symbol p :
  stock_guard p = true -> exists symbol, typed_symbol p = Some symbol /\ symbol <> "".
Proof.
  unfold stock_guard. destruct (typed_symbol p) as [s|]; cbn; [|discriminate].
  intros H. exists s. split; [reflexivity|]. intros ->. discriminate.
Qed.

Lemma addStock_cases e p st :
  (stock_guard p = false /\ addStock e p st = st) \/
  exists symbol,
    stock_guard p = true /\ typed_symbol p = Some symbol /\
    addStock e p st
    = set_stocks
        (stocks st
         ++ [new_holding e (if isDemoMode st then symbol else auto_id e) symbol
               (typed_quantity p) (typed_cost p)]) st.
Proof.
  destruct (stock_guard p) eqn:Hg.
  - right. destruct (stock_guard_symbol p Hg) as (symbol & Hs & _).
    exists symbol. repeat split; auto.
    unfold addStock. rewrite Hs, Hg. now destruct (isDemoMode st).
  - left. split; [reflexivity|]. unfold addStock.
    destruct (typed_symbol p); [now rewrite Hg | reflexivity].
Qed.

Lemma filter_fresh {A} (p : A -> bool) l :
  (forall x, In x l -> p x = true) -> filter p l = l.
Proof.
  induction l as [|a l IH]; cbn; [reflexivity|]. intros H.
  rewrite (H a) by now left. rewrite IH; [reflexivity|].
  intros x Hx. apply H. now right.
Qed.

(** X10.  Demo mode: adding a holding and removing it again with the
    button of its row, which passes the symbol, puts the whole state back,
    provided that the symbol was not held before.  (When it was held, the
    removal takes every holding of the symbol with it.) *)
Theorem add_then_delete_stock_demo :
  forall (e e' : Env) (p : StockPrompt) (symbol : string) (st : App),
    isDemoMode st = true ->
    confirmed e' = true ->
    typed_symbol p = Some symbol ->
    (forall s, In s (stocks st) -> StockHolding.symbol s <> symbol) ->
    deleteStock e' symbol (addStock e p st) = st.
Proof.
  intros e e' p symbol st Hd Hc Hs Hfresh.
  assert (filter (fun s => negb (String.eqb (StockHolding.symbol s) symbol)) (stocks st)
          = stocks st) as Hf.
  { apply filter_fresh. intros s Hin.
    destruct (String.eqb_spec (StockHolding.symbol s) symbol); [|reflexivity].
    now elim (Hfresh s Hin). }
  destruct (addStock_cases e p st) as [[_ ->]|(symbol' & _ & Hs' & ->)].
  - unfold deleteStock. rewrite Hc, Hd, Hf. apply set_stocks_same.
  - assert (symbol' = symbol) as -> by congruence.
    unfold deleteStock. rewrite Hc. cbn [isDemoMode set_stocks stocks]. rewrite Hd.
    rewrite filter_app, Hf. cbn [filter new_holding StockHolding.symbol].
    rewrite String.eqb_refl. cbn [negb]. rewrite app_nil_r.
    destruct st; reflexivity.
Qed.

Lemma add_then_delete_stock_witness :
  deleteStock sample_env "MSFT"
    (addStock sample_env (mkStockPrompt (Some "MSFT") 3 410) (demo_start sample_env))
  = demo_start sample_env.
Proof.
  apply (add_then_delete_stock_demo sample_env sample_env
           (mkStockPrompt (Some "MSFT") 3 410) "MSFT" (demo_start sample_env));
    try reflexivity.
  intros s [<-|[<-|[<-|[<-|[]]]]]; discriminate.
Defined.

Lemma Forall2_snoc_inv {A} (R : A -> A -> Prop) l x l' :
  Forall2 R (l ++ [x]) l' -> exists l0 x', l' = l0 ++ [x'] /\ R x x'.
Proof.
  intros F. apply Forall2_app_inv_l in F as (l0 & l1 & _ & F1 & ->).
  inversion F1 as [|? x' ? ? Hx F2]; subst. inversion F2; subst.
  now exists l0, x'.
Qed.

(** X11.  Persisted mode: a holding made by [addStock] is a document under
    an id of Firestore's.  When that id is not the symbol of any holding,
    the holding stays out of reach of the two other handlers: the button of
    its row, which calls [deleteStock] with the symbol, does not remove it,
    and no sync ever gives it another price. *)
Theorem added_stock_is_out_of_reach :
  forall (service : Service) (e e1 e2 : Env) (p : StockPrompt) (symbol : string)
         (st : App),
    isDemoMode st = false ->
    stock_guard p = true ->
    typed_symbol p = Some symbol ->
    symbol <> auto_id e ->
    (forall s, In s (stocks st) -> StockHolding.symbol s <> auto_id e) ->
    confirmed e1 = true ->
    let added := new_holding e (auto_id e) symbol (typed_quantity p) (typed_cost p) in
    In added (stocks (addStock e p st)) /\
    In added (stocks (deleteStock e1 symbol (addStock e p st))) /\
    In added (stocks (snd (handleUpdateStocks service e2 (addStock e p st)))).
Proof.
  intros service e e1 e2 p symbol st Hd Hg Hs Hne Hfresh Hc added.
  destruct (addStock_cases e p st) as [[Hg' _]|(symbol' & _ & Hs' & Hadd)];
    [congruence|].
  assert (symbol' = symbol) as -> by congruence.
  rewrite Hd in Hadd. fold added in Hadd. rewrite Hadd.
  split; [|split].
  - cbn. apply in_or_app. right. now left.
  - unfold deleteStock. rewrite Hc. cbn [isDemoMode set_stocks stocks]. rewrite Hd.
    apply filter_In. split; [apply in_or_app; right; now left|].
    cbn. now destruct (String.eqb_spec (auto_id e) symbol); [congruence|].
  - destruct (sync_effect service e2 (set_stocks (stocks st ++ [added]) st))
      as (_ & _ & _ & _ & Hr & _).
    specialize (Hr Hd). cbn [stocks set_stocks] in Hr.
    apply Forall2_snoc_inv in Hr as (l0 & x' & -> & Hx).
    apply in_or_app. right. left.
    destruct Hx as [->|(h & price & Hh & Hsym & _)]; [reflexivity|].
    exfalso. cbn in Hsym. apply in_app_or in Hh as [Hh|[<-|[]]].
    + now apply (Hfresh h).
    + now apply Hne.
Qed.

Lemma added_stock_witness :
  In (new_holding sample_env "Zq3kT0" "MSFT" 3 410)
    (stocks (snd (handleUpdateStocks
                    (answers (dq "[{'symbol':'MSFT','price':433.1}]")) sample_env
                    (addStock sample_env (mkStockPrompt (Some "MSFT") 3 410)
                       (live_start []))))).
Proof.
  refine (proj2 (proj2 (added_stock_is_out_of_reach
                          (answers (dq "[{'symbol':'MSFT','price':433.1}]"))
                          sample_env sample_env sample_env
                          (mkStockPrompt (Some "MSFT") 3 410) "MSFT" (live_start [])
                          eq_refl eq_refl eq_refl _ _ eq_refl))).
  - discriminate.
  - intros s [].
Defined.

(* ================================================================== *)
(** * 30. The derived figures *)
(* ================================================================== *)

Lemma is_nan_spec x : PrimFloat.is_nan x = true <-> Prim2SF x = S754_nan.
Proof.
  unfold PrimFloat.is_nan. rewrite eqb_spec. unfold SFeqb, SFcompare.
  destruct (Prim2SF x) as [s|s| |s m e'].
  - split; discriminate.
  - destruct s; split; discriminate.
  - split; reflexivity.
  - rewrite Z.compare_refl, Pos.compare_cont_refl. destruct s; split; discriminate.
Qed.

Lemma nan_add_l x y : PrimFloat.is_nan x = true -> PrimFloat.is_nan (x + y) = true.
Proof.
  rewrite !is_nan_spec, add_spec. intros ->. reflexivity.
Qed.

Lemma nan_add_r x y : PrimFloat.is_nan y = true -> PrimFloat.is_nan (x + y) = true.
Proof.
  rewrite !is_nan_spec, add_spec. intros ->. now destruct (Prim2SF x).
Qed.

Lemma nan_mul_r x y : PrimFloat.is_nan y = true -> PrimFloat.is_nan (x * y) = true.
Proof.
  rewrite !is_nan_spec, mul_spec. intros ->. now destruct (Prim2SF x).
Qed.

Lemma portfolio_fold_nan l a :
  PrimFloat.is_nan a = true ->
  (forall s, In s l -> ToNumber (StockHolding.currentPrice s) <> None) ->
  exists v, fold_left portfolio_step l (Some a) = Some v /\ PrimFloat.is_nan v = true.
Proof.
  revert a; induction l as [|s l IH]; intros a Ha Hl; cbn.
  - now exists a.
  - unfold marketValue.
    destruct (ToNumber (StockHolding.currentPrice s)) as [p|] eqn:Ep.
    + cbn. apply IH; [now apply nan_add_l|]. intros x Hx. apply Hl. now right.
    + exfalso. apply (Hl s); [now left | exact Ep].
Qed.

Lemma portfolio_fold_poisoned l a :
  (forall s, In s l -> ToNumber (StockHolding.currentPrice s) <> None) ->
  (exists s, In s l /\ StockHolding.currentPrice s = JUndefined) ->
  exists v, fold_left portfolio_step l (Some a) = Some v /\ PrimFloat.is_nan v = true.
Proof.
  revert a; induction l as [|s l IH]; intros a Hl (s0 & Hin & Hu); [contradiction|].
  cbn. unfold marketValue.
  destruct (ToNumber (StockHolding.currentPrice s)) as [p|] eqn:Ep.
  2:{ exfalso. apply (Hl s); [now left | exact Ep]. }
  cbn. destruct Hin as [->|Hin].
  - rewrite Hu in Ep. injection Ep as <-.
    apply portfolio_fold_nan; [|intros x Hx; apply Hl; now right].
    apply nan_add_r, nan_mul_r. reflexivity.
  - apply IH; [intros x Hx; apply Hl; now right|]. now exists s0.
Qed.

(** X12.  One holding without a price spoils the figures of the dashboard.
    When the price of a holding is [undefined], which is what a sync leaves
    when the matched entry of the price list has no "price", the portfolio
    value is [NaN] and so is the net worth, whatever the other holdings and
    the accounts are (all prices being booleans, numbers, [null] or
    [undefined]). *)
Theorem undefined_price_spoils_net_worth :
  forall (st : App),
    (forall s, In s (stocks st) -> ToNumber (StockHolding.currentPrice s) <> None) ->
    (exists s, In s (stocks st) /\ StockHolding.currentPrice s = JUndefined) ->
    exists v w,
      stockPortfolioValue st = Some v /\ PrimFloat.is_nan v = true /\
      netWorth st = Some w /\ PrimFloat.is_nan w = true.
Proof.
  intros st Hl Hu.
  destruct (portfolio_fold_poisoned (stocks st) 0%float Hl Hu) as (v & Ev & Hv).
  exists v, (totalBalance st + v)%float. unfold netWorth, stockPortfolioValue.
  rewrite Ev. repeat split; auto. now apply nan_add_r.
Qed.

(** The demo data after a sync in which "NVDA" was matched by an entry
    without a price. *)
Lemma undefined_price_witness :
  exists v w,
    let st := snd (handleUpdateStocks
                     (answers (dq "```json
[{'symbol':'AAPL','price':225.3},{'symbol':'NVDA'}]
```"))
                     sample_env (demo_start sample_env)) in
    stockPortfolioValue st = Some v /\ PrimFloat.is_nan v = true /\
    netWorth st = Some w /\ PrimFloat.is_nan w = true.
Proof.
  apply (undefined_price_spoils_net_worth
           (snd (handleUpdateStocks
                   (answers (dq "```json
[{'symbol':'AAPL','price':225.3},{'symbol':'NVDA'}]
```"))
                   sample_env (demo_start sample_env)))).
  - intros s Hs. vm_compute in Hs.
    repeat (destruct Hs as [<-|Hs]; [discriminate|]). contradiction.
  - eexists. split; [vm_compute; do 3 right; left; reflexivity | reflexivity].
Defined.

(* ================================================================== *)
(** * 31. The ledger: what the two handlers leave alone *)
(* ================================================================== *)

Lemma alter_balance_fields i g l :
  map Account.id (alter_balance i g l) = map Account.id l /\
  map Account.name (alter_balance i g l) = map Account.name l /\
  map Account.type (alter_balance i g l) = map Account.type l /\
  map Account.currency (alter_balance i g l) = map Account.currency l.
Proof.
  induction l as [|a l (I1 & I2 & I3 & I4)]; cbn; [repeat split|].
  destruct (has_id i a); cbn; [repeat split|].
  now rewrite I1, I2, I3, I4.
Qed.

(** The accounts after a step are those before, with one balance altered. *)
Lemma step_accounts a st :
  exists i g, accounts (step a st) = alter_balance i g (accounts st).
Proof.
  destruct a as [e n|e t]; cbn [step].
  - destruct (save_guard n) eqn:Hg.
    + destruct (save_guard_fields n Hg) as (amount & accId & cat & Ha & Hi & Hc).
      destruct (handleSaveTransaction_accepted e (setNewTx n st) amount accId cat
                  Ha Hi Hc Hg) as (Hacc & _).
      rewrite Hacc. eauto.
    + rewrite handleSaveTransaction_rejected by exact Hg.
      exists "", (fun b => b). cbn [accounts setNewTx].
      symmetry. apply alter_balance_fixed. auto.
  - destruct (confirmed e) eqn:Hc.
    + destruct (deleteTransaction_confirmed e t st Hc) as (Hacc & _).
      rewrite Hacc. eauto.
    + unfold deleteTransaction. rewrite Hc.
      exists "", (fun b => b). symmetry. apply alter_balance_fixed. auto.
Qed.

Lemma step_holdings a st :
  stocks (step a st) = stocks st /\ stockSources (step a st) = stockSources st /\
  updatingStocks (step a st) = updatingStocks st /\
  alerts (step a st) = alerts st /\ console (step a st) = console st /\
  requests (step a st) = requests st /\ isDemoMode (step a st) = isDemoMode st.
Proof.
  destruct a as [e n|e t]; cbn [step].
  - unfold handleSaveTransaction. cbn [newTx setNewTx].
    destruct (NewTx.amount n), (NewTx.accountId n), (NewTx.category n);
      try (repeat split; reflexivity).
    destruct (save_guard n); [|repeat split; reflexivity].
    cbn [isDemoMode setNewTx accounts].
    destruct (isDemoMode st) eqn:Ed;
      [destruct (findIndex _ (accounts st)) | destruct (find _ (accounts st))];
      repeat split; try reflexivity; exact Ed.
  - unfold deleteTransaction.
    destruct (confirmed e); [|repeat split; reflexivity].
    destruct (isDemoMode st) eqn:Ed;
      [destruct (findIndex _ (accounts st)) | destruct (find _ (accounts st))];
      repeat split; try reflexivity; exact Ed.
Qed.

(** X13.  Saves and deletions of transactions, in any number and order and
    in either mode, never add, remove, reorder or rename an account: the
    ids, names, types and currencies of the accounts stay as they are, and
    only balances move.  And they leave the holdings, their sources, the
    alerts, the console and the requests alone. *)
Theorem ledger_moves_only_balances :
  forall (l : list Action) (st : App),
    map Account.id (accounts (run l st)) = map Account.id (accounts st) /\
    map Account.name (accounts (run l st)) = map Account.name (accounts st) /\
    map Account.type (accounts (run l st)) = map Account.type (accounts st) /\
    map Account.currency (accounts (run l st)) = map Account.currency (accounts st) /\
    stocks (run l st) = stocks st /\
    stockSources (run l st) = stockSources st /\
    alerts (run l st) = alerts st /\
    console (run l st) = console st /\
    requests (run l st) = requests st.
Proof.
  intros l; induction l as [|a l IH]; intros st; [repeat split|].
  cbn [run]. destruct (IH (step a st)) as (I1 & I2 & I3 & I4 & I5 & I6 & I7 & I8 & I9).
  destruct (step_accounts a st) as (i & g & Hacc).
  destruct (alter_balance_fields i g (accounts st)) as (F1 & F2 & F3 & F4).
  destruct (step_holdings a st) as (H1 & H2 & _ & H4 & H5 & H6 & _).
  rewrite I1, I2, I3, I4, I5, I6, I7, I8, I9, Hacc. repeat split; auto.
Qed.

(** What a step does to the accounts depends on the accounts only. *)
Lemma step_accounts_any_mode a st st' :
  accounts st' = accounts st -> accounts (step a st') = accounts (step a st).
Proof.
  intros E. destruct a as [e n|e t]; cbn [step].
  - destruct (save_guard n) eqn:Hg.
    + destruct (save_guard_fields n Hg) as (amount & accId & cat & Ha & Hi & Hc).
      destruct (handleSaveTransaction_accepted e (setNewTx n st) amount accId cat
                  Ha Hi Hc Hg) as (-> & _).
      destruct (handleSaveTransaction_accepted e (setNewTx n st') amount accId cat
                  Ha Hi Hc Hg) as (-> & _).
      cbn [accounts setNewTx newTx]. now rewrite E.
    + rewrite !handleSaveTransaction_rejected by exact Hg. exact E.
  - destruct (confirmed e) eqn:Hc.
    + destruct (deleteTransaction_confirmed e t st Hc) as (-> & _).
      destruct (deleteTransaction_confirmed e t st' Hc) as (-> & _).
      now rewrite E.
    + unfold deleteTransaction. now rewrite Hc.
Qed.

(** X14.  The two backends agree on the balances.  Two ledgers that start
    with the same accounts, whatever their modes and their transactions,
    have the same accounts after the same saves and deletions: what a save
    or a deletion does to the balances depends on the form, resp. on the
    transaction passed, and on nothing else. *)
Theorem modes_agree_on_balances :
  forall (l : list Action) (st st' : App),
    accounts st' = accounts st ->
    accounts (run l st') = accounts (run l st).
Proof.
  intros l; induction l as [|a l IH]; intros st st' E; [exact E|].
  cbn [run]. apply IH. now apply step_accounts_any_mode.
Qed.

(** The end-to-end scenario on the demo ledger and on the persisted one. *)
Lemma modes_agree_witness :
  accounts (run (scenario true) (scenario_start false))
  = accounts (run (scenario true) (scenario_start true)).
Proof.
  apply (modes_agree_on_balances (scenario true) (scenario_start true)
           (scenario_start false)).
  reflexivity.
Defined.

Lemma remove_tx_snoc i l t :
  Transaction.id t = i -> remove_tx i (l ++ [t]) = remove_tx i l.
Proof.
  intros E. unfold remove_tx. rewrite filter_app. cbn.
  rewrite E, String.eqb_refl. cbn. apply app_nil_r.
Qed.

(** X15.  Saving a transaction and deleting it again leaves the collection
    of transactions as it was, in both modes, when the id given to the
    transaction was not in use; the form is then blank and the dialog
    closed. *)
Theorem delete_after_save_restores_transactions :
  forall (e e' : Env) (st : App) amount accId cat,
    NewTx.amount (newTx st) = Some amount ->
    NewTx.accountId (newTx st) = Some accId ->
    NewTx.category (newTx st) = Some cat ->
    save_guard (newTx st) = true ->
    confirmed e' = true ->
    (forall t, In t (transactions st) -> Transaction.id t <> new_id e st) ->
    let t := txData e (newTx st) (new_id e st) accId amount cat in
    let st' := deleteTransaction e' t (handleSaveTransaction e st) in
    transactions st' = transactions st /\
    newTx st' = blank_form e /\
    txModalOpen st' = false.
Proof.
  intros e e' st amount accId cat Ha Hi Hc Hg Hc' Hfresh t st'. subst st'.
  destruct (handleSaveTransaction_accepted e st amount accId cat Ha Hi Hc Hg)
    as (_ & Htx & _).
  destruct (deleteTransaction_confirmed e' t (handleSaveTransaction e st) Hc')
    as (_ & Htx' & _).
  split.
  - rewrite Htx', Htx. fold t. destruct (isDemoMode st).
    + rewrite remove_tx_cons. cbn [Transaction.id t txData].
      rewrite String.eqb_refl. now apply remove_tx_fresh.
    + rewrite remove_tx_snoc by reflexivity. now apply remove_tx_fresh.
  - assert (forall s, newTx (deleteTransaction e' t s) = newTx s /\
                      txModalOpen (deleteTransaction e' t s) = txModalOpen s) as Hd.
    { intros s. unfold deleteTransaction. destruct (confirmed e'); [|auto].
      destruct (isDemoMode s);
        [destruct (findIndex _ (accounts s)) | destruct (find _ (accounts s))];
        auto. }
    destruct (Hd (handleSaveTransaction e st)) as [-> ->].
    unfold handleSaveTransaction. rewrite Ha, Hi, Hc, Hg. auto.
Qed.

Lemma delete_after_save_transactions_witness :
  transactions
    (deleteTransaction sample_env
       (txData sample_env (form 2500 "3" Expense "Food") "0.7312" "3" 2500 "Food")
       (handleSaveTransaction sample_env
          (setNewTx (form 2500 "3" Expense "Food") (demo_start sample_env))))
  = INITIAL_TRANSACTIONS.
Proof.
  refine (proj1 (delete_after_save_restores_transactions sample_env sample_env
                   (setNewTx (form 2500 "3" Expense "Food") (demo_start sample_env))
                   2500 "3" "Food" eq_refl eq_refl eq_refl eq_refl eq_refl _)).
  intros t [<-|[<-|[<-|[<-|[<-|[]]]]]]; discriminate.
Defined.

(** X16.  The "top expense" of the summary sent for advice is no maximum:
    it is the category of the first Expense of the list.  So in demo mode,
    where a new transaction goes to the head of the list, it is the category
    of the Expense saved last, whatever its amount. *)
Theorem top_expense_is_the_latest :
  forall (e : Env) (st : App) amount accId cat,
    isDemoMode st = true ->
    NewTx.amount (newTx st) = Some amount ->
    NewTx.accountId (newTx st) = Some accId ->
    NewTx.category (newTx st) = Some cat ->
    NewTx.type (newTx st) = Expense ->
    save_guard (newTx st) = true ->
    top_expense (handleSaveTransaction e st) = cat.
Proof.
  intros e st amount accId cat Hd Ha Hi Hc Ht Hg.
  destruct (handleSaveTransaction_accepted e st amount accId cat Ha Hi Hc Hg)
    as (_ & Htx & _).
  unfold top_expense. rewrite Htx, Hd. cbn [find].
  unfold is_expense at 1. cbn [Transaction.type txData]. rewrite Ht.
  cbn [option_map or_string Transaction.category].
  unfold save_guard in Hg. rewrite Hc in Hg. cbn in Hg.
  apply andb_prop in Hg as [_ Hg].
  change (Transaction.category (txData e (newTx st) (new_id e st) accId amount cat))
    with cat.
  now rewrite Hg.
Qed.

(** The demo data: an Expense of 1 on "Food" is saved; the largest Expense
    of the ledger is the rent of 15000. *)
Lemma top_expense_witness :
  top_expense
    (handleSaveTransaction sample_env
       (setNewTx (form 1 "3" Expense "Food") (demo_start sample_env)))
  = "Food".
Proof.
  apply (top_expense_is_the_latest sample_env
           (setNewTx (form 1 "3" Expense "Food") (demo_start sample_env))
           1 "3" "Food"); reflexivity.
Defined.

(* ================================================================== *)
(** * 32. The lookup: its failures, its requests, its sources *)
(* ================================================================== *)

(** X17.  The lookup fails only when the service does.  When the call of
    the service is rejected, the lookup writes one line on the console and
    throws what the service threw.  In every other case it returns a price
    list, whatever the text of the answer is: no text makes the extraction
    throw.  One request is sent when there is a symbol, none when there is
    none; and the lookup touches nothing of the state but the console. *)
Theorem lookup_fails_only_with_the_service :
  forall (service : Service) (symbols : list string) (st : App),
    let req := String.concat ", " symbols in
    let r := fetchCurrentStockPrices service symbols st in
    ((symbols <> [] /\ service req = None /\
      fst r = Throw LookupError /\
      console (snd r) = console st ++ ["Error fetching stock prices:"])
     \/
     ((symbols = [] \/ service req <> None) /\ exists result, fst r = Ret result)) /\
    requests (snd r)
    = requests st ++ match symbols with [] => [] | _ :: _ => [req] end /\
    same_ledger st (snd r) /\
    stocks (snd r) = stocks st /\
    stockSources (snd r) = stockSources st /\
    alerts (snd r) = alerts st.
Proof.
  intros service symbols st req r.
  destruct (fetch_cases service symbols st)
    as [[-> Hr]|[(Hne & Hs & Hr)|(Hne & response & v & Hs & Hr & _ & Hst)]];
    fold req in Hr; fold r in Hr.
  - rewrite Hr. cbn. rewrite app_nil_r. split; [right|repeat split].
    split; [now left | eauto].
  - fold req in Hs. rewrite Hr. cbn. split; [left; auto|].
    destruct symbols; [congruence|]. repeat split.
  - fold req in Hs, Hst. fold r in Hst. split.
    + right. split; [right; congruence | eauto].
    + destruct symbols; [congruence|].
      destruct Hst as [-> | [msg ->]]; repeat split.
Qed.

(** X18.  The sources of a lookup are the pages the service cited with an
    address and a title, both non-empty, and no other: a citation without
    one of the two is dropped. *)
Theorem sources_are_the_cited_pages :
  forall (chunks : list GroundingChunk.t) (s : GroundingSource.t),
    In s (chunk_sources chunks) <->
    exists chunk w,
      In chunk chunks /\ GroundingChunk.web chunk = Some w /\
      Web.uri w = Some (GroundingSource.url s) /\
      Web.title w = Some (GroundingSource.title s) /\
      GroundingSource.url s <> "" /\ GroundingSource.title s <> "".
Proof.
  intros chunks s. unfold chunk_sources. rewrite in_flat_map. split.
  - intros (chunk & Hin & Hs). exists chunk.
    destruct (GroundingChunk.web chunk) as [w|]; [|contradiction]. exists w.
    destruct (Web.uri w) as [u|], (Web.title w) as [t|]; try contradiction.
    unfold truthy_string in Hs.
    destruct (String.eqb_spec u ""), (String.eqb_spec t ""); try contradiction.
    destruct Hs as [<-|[]]. repeat split; auto.
  - intros (chunk & w & Hin & Hw & Hu & Ht & Hne & Hne'). exists chunk.
    split; [exact Hin|]. rewrite Hw, Hu, Ht. unfold truthy_string.
    destruct (String.eqb_spec (GroundingSource.url s) ""); [contradiction|].
    destruct (String.eqb_spec (GroundingSource.title s) ""); [contradiction|].
    left. now destruct s.
Qed.

(* ================================================================== *)
(** * 33. When a fenced block is found *)
(* ================================================================== *)

(** X19.  [text.match(/```json.../) || text.match(/```.../)] finds a block
    exactly when the text holds two fences, one after the other: nothing
    else is needed, neither a label nor a line break nor content. *)
Theorem fence_is_found_iff :
  forall text : string,
    jsonMatch text <> None <->
    exists pre mid post, text = (pre ++ fence ++ mid ++ fence ++ post)%string.
Proof.
  intros text. unfold jsonMatch. split.
  - destruct (regexp_match "```json" text) as [g|] eqn:E1.
    + intros _. apply regexp_match_sound in E1 as (pre & w1 & w2 & post & -> & _).
      exists pre, ("json" ++ w1 ++ g ++ w2)%string, post.
      change "```json" with (fence ++ "json")%string.
      now rewrite !append_assoc.
    + destruct (regexp_match "```" text) as [g|] eqn:E2; [|congruence].
      intros _. apply regexp_match_sound in E2 as (pre & w1 & w2 & post & -> & _).
      exists pre, (w1 ++ g ++ w2)%string, post.
      now rewrite !append_assoc.
  - intros (pre & mid & post & ->).
    destruct (regexp_match "```json" _); [discriminate|].
    apply (regexp_match_complete "```" pre "" mid "" post); constructor.
Qed.

(* ================================================================== *)
(** * 34. One sync after another *)
(* ================================================================== *)

Lemma symbol_reprice rule e quotes s :
  StockHolding.symbol (reprice rule e quotes s) = StockHolding.symbol s.
Proof.
  unfold reprice. now destruct (find (rule (StockHolding.symbol s)) quotes).
Qed.

Lemma reprice_twice rule e1 e2 quotes s :
  reprice rule e2 quotes (reprice rule e1 quotes s) = reprice rule e2 quotes s.
Proof.
  unfold reprice at 1. rewrite symbol_reprice. unfold reprice.
  destruct (find (rule (StockHolding.symbol s)) quotes); reflexivity.
Qed.

(** The holdings after a sync on a parsed, well-formed price list, in the
    mode of the state. *)
Lemma sync_parsed service e st response c quotes :
  stocks st <> [] ->
  (isDemoMode st = false ->
   (forall s, In s (stocks st) -> StockHolding.docId s = StockHolding.symbol s) /\
   NoDup (map StockHolding.docId (stocks st))) ->
  service (String.concat ", " (map StockHolding.symbol (stocks st))) = Some response ->
  candidate (or_string (Response.text response) "") = Some c ->
  JSON_parse c = Some (JArr quotes) ->
  quotes <> [] ->
  (forall q, In q quotes -> quote_symbol q <> None) ->
  stocks (snd (handleUpdateStocks service e st))
  = map (reprice (sync_rule st) e quotes) (stocks st).
Proof.
  intros Hne Hkey Hs Hc Hp Hq Hsym.
  rewrite handleUpdateStocks_unfold.
  rewrite (fetch_parsed service _ response c (JArr quotes)); auto.
  2:{ destruct (stocks st); [congruence | discriminate]. }
  cbn [FetchResult.prices FetchResult.sources length_positive].
  destruct quotes as [|q0 quotes]; [congruence|].
  cbn [List.length Nat.ltb Nat.leb].
  cbn [isDemoMode send_request set_stockSources set_updatingStocks].
  unfold sync_rule. destruct (isDemoMode st) eqn:Hd.
  - rewrite (map_outcome_total _ (reprice demo_rule e (q0 :: quotes))); [reflexivity|].
    intros s _. apply demo_update_reprice. intros x Hx.
    specialize (Hsym x Hx). split; intros ->; now apply Hsym.
  - destruct (Hkey eq_refl) as [Hk Hnd].
    set (st1 := send_request _ _).
    destruct (for_each_live_keyed e (q0 :: quotes) Hsym (stocks st) [] st1)
      as (Ho & Hst & _); auto.
    destruct (for_each _ _ st1) as [[[]|ex] st2]; cbn in Ho, Hst; [|discriminate].
    exact Hst.
Qed.

(** X20.  A sync forgets the syncs before it.  On a well-formed price list
    (an array, not empty, every entry with a string for symbol; in persisted
    mode, every document named by its holding's symbol) the holdings after
    two syncs that got the same answer are those after the second one
    alone: prices and time stamps of the first are overwritten, and nothing
    else of it is left in the holdings. *)
Theorem later_sync_overrides :
  forall (service : Service) (e1 e2 : Env) (st : App) (response : Response.t)
         (c : string) (quotes : list JSValue),
    stocks st <> [] ->
    (isDemoMode st = false ->
     (forall s, In s (stocks st) -> StockHolding.docId s = StockHolding.symbol s) /\
     NoDup (map StockHolding.docId (stocks st))) ->
    service (String.concat ", " (map StockHolding.symbol (stocks st))) = Some response ->
    candidate (or_string (Response.text response) "") = Some c ->
    JSON_parse c = Some (JArr quotes) ->
    quotes <> [] ->
    (forall q, In q quotes -> quote_symbol q <> None) ->
    stocks (snd (handleUpdateStocks service e2
                   (snd (handleUpdateStocks service e1 st))))
    = stocks (snd (handleUpdateStocks service e2 st)).
Proof.
  intros service e1 e2 st response c quotes Hne Hkey Hs Hc Hp Hq Hsym.
  set (st1 := snd (handleUpdateStocks service e1 st)).
  assert (stocks st1 = map (reprice (sync_rule st) e1 quotes) (stocks st)) as E1
      by now apply (sync_parsed service e1 st response c quotes).
  assert (isDemoMode st1 = isDemoMode st) as Hd
      by apply (sync_effect service e1 st).
  assert (map StockHolding.symbol (stocks st1) = map StockHolding.symbol (stocks st))
    as Hsymbols.
  { rewrite E1, map_map. apply map_ext. intros s. apply symbol_reprice. }
  assert (map StockHolding.docId (stocks st1) = map StockHolding.docId (stocks st))
    as Hids.
  { rewrite E1, map_map. apply map_ext. intros s. apply docId_reprice. }
  rewrite (sync_parsed service e2 st1 response c quotes); auto.
  - rewrite (sync_parsed service e2 st response c quotes); auto.
    unfold sync_rule. rewrite Hd, E1, map_map.
    apply map_ext. intros s. apply reprice_twice.
  - rewrite E1. destruct (stocks st); [congruence | discriminate].
  - rewrite Hd, Hids. intros Hlive. destruct (Hkey Hlive) as [Hk Hnd].
    split; [|exact Hnd]. rewrite E1. intros s Hin.
    apply in_map_iff in Hin as (s0 & <- & Hin).
    rewrite docId_reprice, symbol_reprice. now apply Hk.
  - now rewrite Hsymbols.
Qed.

Lemma later_sync_witness :
  let service := answers (dq "```json
[{'symbol':'AAPL','price':225.3},{'symbol':'NVDA'}]
```") in
  stocks (snd (handleUpdateStocks service env_expense
                 (snd (handleUpdateStocks service env_income (demo_start sample_env)))))
  = stocks (snd (handleUpdateStocks service env_expense (demo_start sample_env))).
Proof.
  apply (later_sync_overrides _ env_income env_expense (demo_start sample_env)
           (Response.mk (Some (dq "```json
[{'symbol':'AAPL','price':225.3},{'symbol':'NVDA'}]
```")) [])
           (dq "[{'symbol':'AAPL','price':225.3},{'symbol':'NVDA'}]")
           [quote_value "AAPL" (JNum 225.3); JObj [("symbol", JStr "NVDA")]]).
  - discriminate.
  - discriminate.
  - reflexivity.
  - vm_compute; reflexivity.
  - vm_compute; reflexivity.
  - discriminate.
  - intros q [<-|[<-|[]]]; discriminate.
Defined.

(* ================================================================== *)
(** * 35. The text between the brackets, and the containment rule *)
(* ================================================================== *)

Lemma indexOf_first c pre post :
  lacks c pre -> indexOf c (pre ++ String c post) = Some (String.length pre).
Proof.
  induction pre as [|d pre IH]; cbn.
  - intros _. now rewrite Ascii.eqb_refl.
  - intros [Hd Hl]. destruct (Ascii.eqb_spec d c); [contradiction|].
    now rewrite IH.
Qed.

Lemma lastIndexOf_lacks c s : lacks c s -> lastIndexOf c s = None.
Proof.
  induction s as [|d s IH]; cbn; [reflexivity|].
  intros [Hd Hl]. rewrite IH by assumption.
  now destruct (Ascii.eqb_spec d c).
Qed.

Lemma lastIndexOf_last c pre post :
  lacks c post -> lastIndexOf c (pre ++ String c post) = Some (String.length pre).
Proof.
  intros Hl. induction pre as [|d pre IH]; cbn.
  - rewrite lastIndexOf_lacks by assumption. now rewrite Ascii.eqb_refl.
  - now rewrite IH.
Qed.

Lemma substring_skip pre n s :
  String.substring (String.length pre) n (pre ++ s) = String.substring 0 n s.
Proof. induction pre as [|d pre IH]; cbn; [reflexivity | exact IH]. Qed.

Lemma substring_prefix b post :
  String.substring 0 (String.length b) (b ++ post) = b.
Proof.
  induction b as [|d b IH]; cbn; [now destruct post | now rewrite IH].
Qed.

Lemma length_append (a b : string) :
  String.length (a ++ b) = String.length a + String.length b.
Proof. induction a as [|d a IH]; cbn; [reflexivity | now rewrite IH]. Qed.

(** X21.  The text handed to [JSON.parse] when no fence was found.  When
    the first "[" of the text comes before its last "]", it is the text
    from the one to the other, both included.  When the last "]" comes
    before the first "[", [substring] swaps its arguments, and it is the
    text between the two, both excluded. *)
Theorem text_between_the_brackets :
  forall pre mid post : string,
    (lacks "[" pre -> lacks "]" post ->
     bracketed (pre ++ "[" ++ mid ++ "]" ++ post) = Some ("[" ++ mid ++ "]")%string) /\
    (lacks "[" (pre ++ "]" ++ mid) -> lacks "]" (mid ++ "[" ++ post) ->
     bracketed (pre ++ "]" ++ mid ++ "[" ++ post) = Some mid).
Proof.
  intros pre mid post. split.
  - intros Hpre Hpost. unfold bracketed.
    change (pre ++ "[" ++ mid ++ "]" ++ post)%string
      with (pre ++ String "[" (mid ++ "]" ++ post))%string at 1.
    rewrite indexOf_first by assumption.
    replace (pre ++ "[" ++ mid ++ "]" ++ post)%string
      with ((pre ++ "[" ++ mid) ++ String "]" post)%string at 1
      by (now rewrite !append_assoc).
    rewrite lastIndexOf_last by assumption.
    unfold substring. rewrite !length_append. cbn [String.length].
    rewrite Nat.min_l, Nat.max_r by lia.
    rewrite substring_skip.
    replace (String.length pre + (1 + String.length mid) + 1 - String.length pre)
      with (String.length ("[" ++ mid ++ "]")) by (rewrite !length_append; cbn; lia).
    replace ("[" ++ mid ++ "]" ++ post)%string with (("[" ++ mid ++ "]") ++ post)%string
      by (cbn; now rewrite append_assoc).
    now rewrite substring_prefix.
  - intros Hpre Hpost. unfold bracketed.
    replace (pre ++ "]" ++ mid ++ "[" ++ post)%string
      with ((pre ++ "]" ++ mid) ++ String "[" post)%string at 1
      by (now rewrite !append_assoc).
    rewrite indexOf_first by assumption.
    change (pre ++ "]" ++ mid ++ "[" ++ post)%string
      with (pre ++ String "]" (mid ++ "[" ++ post))%string at 1.
    rewrite lastIndexOf_last by assumption.
    unfold substring. rewrite !length_append. cbn [String.length].
    rewrite Nat.min_r, Nat.max_l by lia.
    replace (String.length pre + 1) with (String.length (pre ++ "]"))
      by (rewrite length_append; reflexivity).
    replace (pre ++ "]" ++ mid ++ "[" ++ post)%string
      with ((pre ++ "]") ++ mid ++ "[" ++ post)%string by (now rewrite !append_assoc).
    rewrite substring_skip.
    replace (String.length pre + (1 + String.length mid) - String.length (pre ++ "]"))
      with (String.length mid) by (rewrite length_append; cbn; lia).
    now rewrite substring_prefix.
Qed.

Lemma text_between_the_brackets_witness :
  bracketed (dq "Prices: [{'symbol':'AAPL','price':225.3}] (delayed)")
  = Some (dq "[{'symbol':'AAPL','price':225.3}]")
  /\ bracketed "1] 5 [2" = Some " 5 ".
Proof.
  split.
  - apply (proj1 (text_between_the_brackets "Prices: "
                    (dq "{'symbol':'AAPL','price':225.3}") " (delayed)"));
      cbn; repeat split; discriminate.
  - apply (proj2 (text_between_the_brackets "1" " 5 " "2"));
      cbn; repeat split; discriminate.
Defined.



(* ================================================================== *)
(** * 36. The sync when the price list is empty, and when it fails *)
(* ================================================================== *)

Lemma extract_prices_empty text st :
  candidate text = None \/
  (exists c, candidate text = Some c /\
             (JSON_parse c = None \/ JSON_parse c = Some (JArr []))) ->
  fst (extract_prices text st) = Ret (JArr []).
Proof.
  unfold candidate, bracketed, extract_prices, parse_brackets.
  destruct (jsonMatch text) as [g|]; [destruct (truthy_string g)|].
  - intros [H|(c & [= <-] & [-> | ->])]; [discriminate| |]; reflexivity.
  - destruct (indexOf "[" text), (lastIndexOf "]" text); try reflexivity.
    intros [H|(c & [= <-] & [-> | ->])]; [discriminate| |]; reflexivity.
  - destruct (indexOf "[" text), (lastIndexOf "]" text); try reflexivity.
    intros [H|(c & [= <-] & [-> | ->])]; [discriminate| |]; reflexivity.
Qed.

(** X23.  An answer without a price list fails silently.  When the service
    answers and its text holds nothing to parse, or what it holds is no
    JSON, or is the empty array, the sync ends with no alert and leaves
    every holding as it was; only the console may tell. *)
Theorem empty_price_list_changes_nothing :
  forall (service : Service) (e : Env) (st : App) (response : Response.t),
    stocks st <> [] ->
    service (String.concat ", " (map StockHolding.symbol (stocks st))) = Some response ->
    (let text := or_string (Response.text response) "" in
     candidate text = None \/
     exists c, candidate text = Some c /\
               (JSON_parse c = None \/ JSON_parse c = Some (JArr []))) ->
    let r := handleUpdateStocks service e st in
    fst r = Ret tt /\
    stocks (snd r) = stocks st /\
    alerts (snd r) = alerts st /\
    stockSources (snd r) = chunk_sources (Response.groundingChunks response).
Proof.
  intros service e st response Hne Hs Hempty r. subst r. cbv zeta in Hempty.
  rewrite handleUpdateStocks_unfold.
  set (st0 := set_stockSources [] (set_updatingStocks true st)).
  destruct (fetch_cases service (map StockHolding.symbol (stocks st)) st0)
    as [[Hnil _]|[(_ & Hs' & _)|(_ & response' & v & Hs' & Hr & Hv & Hst)]].
  - destruct (stocks st); [congruence | discriminate].
  - congruence.
  - assert (response' = response) as -> by congruence.
    rewrite (extract_prices_empty _ _ Hempty) in Hv. injection Hv as <-.
    destruct (fetchCurrentStockPrices _ _ st0) as [[fr|ex] st1];
      cbn in Hr, Hst; [|discriminate].
    injection Hr as ->. cbn.
    destruct Hst as [-> | [msg ->]]; cbn; auto.
Qed.

(** The demo data, and an answer in prose. *)
Lemma empty_price_list_witness :
  stocks (snd (handleUpdateStocks (answers "I could not find any price.")
                 sample_env (demo_start sample_env)))
  = INITIAL_STOCKS (now sample_env).
Proof.
  refine (proj1 (proj2 (empty_price_list_changes_nothing
                          (answers "I could not find any price.") sample_env
                          (demo_start sample_env)
                          (Response.mk (Some "I could not find any price.") [])
                          _ eq_refl _))).
  - discriminate.
  - left. vm_compute. reflexivity.
Defined.

(** X24.  In demo mode a sync is all or nothing: the holdings are replaced
    in one step, after every holding was matched.  So a sync that changes a
    holding has returned with no alert; and a sync that ends in the alert
    has changed no holding.  (Persisted mode writes holding by holding, and
    can end in the alert with some of them repriced.) *)
Theorem demo_sync_is_all_or_nothing :
  forall (service : Service) (e : Env) (st : App),
    isDemoMode st = true ->
    let r := handleUpdateStocks service e st in
    stocks (snd r) = stocks st \/
    (fst r = Ret tt /\ alerts (snd r) = alerts st).
Proof.
  intros service e st Hd r. subst r. rewrite handleUpdateStocks_unfold.
  set (st0 := set_stockSources [] (set_updatingStocks true st)).
  assert (forall ex st1, stocks st1 = stocks st ->
                         stocks (snd (sync_failed ex st1)) = stocks st) as Hfail.
  { intros ex st1 H. unfold sync_failed. now destruct (catchable ex). }
  assert (let r := fetchCurrentStockPrices service
                     (map StockHolding.symbol (stocks st)) st0 in
          stocks (snd r) = stocks st /\ alerts (snd r) = alerts st /\
          isDemoMode (snd r) = true) as (Hst & Hal & Hd1).
  { destruct (lookup_frame service (map StockHolding.symbol (stocks st)) st0)
      as (H1 & H2 & H3). cbv zeta. rewrite H1, H2, H3. auto. }
  destruct (fetchCurrentStockPrices _ _ st0) as [[fr|ex] st1]; cbn in Hst, Hal, Hd1.
  - destruct (length_positive (FetchResult.prices fr)) as [[|]|ex].
    + rewrite Hd1. destruct (map_outcome _ _) as [l|ex].
      * right. cbn. auto.
      * left. now apply Hfail.
    + left. exact Hst.
    + left. now apply Hfail.
  - left. now apply Hfail.
Qed.

Lemma demo_sync_all_or_nothing_witness :
  let r := handleUpdateStocks (answers text_null) sample_env (demo_start sample_env) in
  stocks (snd r) = stocks (demo_start sample_env) \/
  (fst r = Ret tt /\ alerts (snd r) = alerts (demo_start sample_env)).
Proof.
  apply (demo_sync_is_all_or_nothing (answers text_null) sample_env
           (demo_start sample_env)).
  reflexivity.
Defined.

(** The service is down: the demo data stay, the alert is shown. *)
Lemma sync_lookup_failure_witness :
  stocks (snd (handleUpdateStocks unreachable sample_env (demo_start sample_env)))
  = INITIAL_STOCKS (now sample_env) /\
  alerts (snd (handleUpdateStocks unreachable sample_env (demo_start sample_env)))
  = [failure_message true].
Proof.
  refine (proj2 (sync_lookup_failure unreachable sample_env (demo_start sample_env)
                   _ eq_refl)).
  discriminate.
Defined.

(** A labelled block in the middle of a sentence. *)
Lemma regexp_match_spec_witness :
  exists pre w1 w2 post,
    "Here: ```json
[1]
``` bye"
    = (pre ++ "```json" ++ w1 ++ "[1]" ++ w2 ++ fence ++ post)%string
    /\ spaces w1 /\ spaces w2.
Proof.
  destruct (regexp_match_spec "```json" "Here: ```json
[1]
``` bye" "[1]" eq_refl) as (pre & w1 & w2 & post & H1 & H2 & H3 & _).
  now exists pre, w1, w2, post.
Defined.

(* ================================================================== *)
(** * 37. The ledger invariant and the other handlers *)
(* ================================================================== *)






(* ================================================================== *)
(** * 38. The "Expense Structure" chart *)
(* ================================================================== *)

Lemma add_to_category_keys c amount acc :
  NoDup (map fst acc) ->
  NoDup (map fst (add_to_category c amount acc)) /\
  forall k, In k (map fst (add_to_category c amount acc)) <-> In k (map fst acc) \/ k = c.
Proof.
  induction acc as [|[k0 v0] acc IH]; cbn [add_to_category map fst].
  - intros _. split; [repeat constructor; intros []|]. intros k. cbn. intuition.
  - intros Hnd. apply NoDup_cons_iff in Hnd as [Hk Hnd].
    destruct (String.eqb_spec k0 c) as [->|Hne]; cbn [map fst].
    + split; [now apply NoDup_cons|]. intros k. cbn. intuition.
    + destruct (IH Hnd) as [Hnd' Hin]. split.
      * apply NoDup_cons; [|exact Hnd']. rewrite Hin. intuition.
      * intros k. cbn. rewrite Hin. intuition.
Qed.

Lemma chart_step_none l : fold_left chart_step l None = None.
Proof. induction l; cbn; auto. Qed.

Lemma chart_fold_keys l : forall acc chart,
  fold_left chart_step l (Some acc) = Some chart ->
  NoDup (map fst acc) ->
  NoDup (map fst chart) /\
  forall k, In k (map fst chart) <->
            In k (map fst acc) \/ exists t, In t l /\ Transaction.category t = k.
Proof.
  induction l as [|t l IH]; intros acc chart; cbn [fold_left].
  - intros [= <-] Hnd. split; [exact Hnd|]. intros k. split; [auto|].
    intros [H|(t & [] & _)]. exact H.
  - unfold chart_step at 2. destruct (plain_key (Transaction.category t)).
    2:{ rewrite chart_step_none. discriminate. }
    intros H Hnd.
    destruct (add_to_category_keys (Transaction.category t) (Transaction.amount t)
                acc Hnd) as [Hnd' Hin].
    destruct (IH _ _ H Hnd') as [Hnd'' Hin'']. split; [exact Hnd''|].
    intros k. rewrite Hin'', Hin. split.
    + intros [[Hk | ->] | (t' & Ht' & Ek)]; eauto.
      * right. exists t. split; [now left | reflexivity].
      * right. exists t'. split; [now right | exact Ek].
    + intros [Hk|(t' & [<-|Ht'] & Ek)]; eauto.
Qed.

(** X28.  The chart of the expenses has one slice for each category: when
    the categories of the Expense transactions are plain keys (no array
    index, no name of [Object.prototype], as the categories of
    [CATEGORIES] are), no category is listed twice, every category that is
    listed is the category of an Expense of the collection, and every
    Expense has its category listed; no Income counts. *)
Theorem expense_chart_has_one_slice_per_category :
  forall (st : App) (chart : list (string * float)),
    expense_structure st = Some chart ->
    NoDup (map fst chart) /\
    forall c,
      In c (map fst chart) <->
      exists t, In t (transactions st) /\ Transaction.type t = Expense /\
                Transaction.category t = c.
Proof.
  intros st chart H. unfold expense_structure in H.
  destruct (chart_fold_keys _ _ _ H) as [Hnd Hin]; [constructor|].
  split; [exact Hnd|]. intros c. rewrite Hin. split.
  - intros [[]|(t & Ht & Ec)]. apply filter_In in Ht as [Ht He].
    exists t. repeat split; auto. unfold is_expense in He.
    now destruct (Transaction.type t).
  - intros (t & Ht & He & Ec). right. exists t. split; [|exact Ec].
    apply filter_In. split; [exact Ht|]. unfold is_expense. now rewrite He.
Qed.

(** The demo data: four categories for the four expenses. *)
Lemma expense_chart_witness :
  NoDup ["Food"; "Transport"; "Entertainment"; "Rent"].
Proof.
  exact (proj1 (expense_chart_has_one_slice_per_category (demo_start sample_env)
                  [("Food", 2500%float); ("Transport", 1200%float);
                   ("Entertainment", 300%float); ("Rent", 15000%float)]
                  eq_refl)).
Defined.

